(** * JobPilot: the semantic matching core

    A shallow embedding of the scoring, ranking and fallback code of
    [src/semantic/embeddings.py], [src/semantic/search_engine.py] and
    [src/semantic/llm_analyzer.py], followed by the properties proved about
    it.

    Conventions of the embedding.
    - Python [float] scores are exact rationals ([Q]); where the source
      manipulates [float('inf')] the extended type [pyfloat] is used, with
      IEEE's infinities and NaN written out.  Cosine similarity, which needs
      a square root, is stated over the reals.
    - Python [int] is [Z]; a list slice [l[:k]] keeps Python's meaning for a
      negative [k].
    - A Python dict read with fixed keys is a record of optional fields
      ([None] for a missing key or a [None] value, which [dict.get(k)] does
      not tell apart); a dict read with [dict.get(k, default)] is a [gmap].
      [None] for a whole profile also stands for the empty dict: every use in
      the source tests [not user_profile] first.
    - [try ... except Exception] is an error monad: a computation that may
      raise has type [outcome A], and each handler is the [match] that maps
      [Raised] to the handler's value.
    - Strings are byte strings; [lower] changes the ASCII letters. *)

From Stdlib Require Import ZArith QArith Qround Qminmax Qabs Qpower Reals Psatz.
From Stdlib Require Import List String Ascii Sorted Permutation.
From stdpp Require Import gmap strings list fin_maps sorting.

Local Open Scope Q_scope.

(* ===================================================================== *)
(** * Part I: the program *)
(* ===================================================================== *)

(** ** Exceptions *)

Inductive outcome (A : Type) : Type :=
| Ok (a : A)
| Raised.
Arguments Ok {A} a.
Arguments Raised {A}.

Definition obind {A B : Type} (m : outcome A) (k : A → outcome B) : outcome B :=
  match m with
  | Ok a => k a
  | Raised => Raised
  end.

Notation "'try!' x ← m ; k" := (obind m (fun x => k))
  (at level 10, x name, m at level 100, k at level 200).

(** [try: body except Exception: return d] *)
Definition except {A : Type} (body : outcome A) (d : A) : A :=
  match body with
  | Ok a => a
  | Raised => d
  end.

(** ** Python floats with infinities *)

Inductive pyfloat : Type :=
| Fin (q : Q)
| PInf
| NInf
| NaN.

Definition Qltb (x y : Q) : bool := negb (Qle_bool y x).

(** The builtins [max(a, b)] and [min(a, b)] on finite numbers: the first
    argument stays unless the second beats it strictly. *)
Definition pymax (a b : Q) : Q := if Qltb a b then b else a.
Definition pymin (a b : Q) : Q := if Qltb b a then b else a.

(** [a < b] and [a <= b] on floats: every comparison with NaN is false. *)
Definition flt (a b : pyfloat) : bool :=
  match a, b with
  | NaN, _ | _, NaN => false
  | Fin x, Fin y => Qltb x y
  | NInf, NInf => false
  | NInf, _ => true
  | _, NInf => false
  | PInf, _ => false
  | Fin _, PInf => true
  end.

Definition fle (a b : pyfloat) : bool :=
  match a, b with
  | NaN, _ | _, NaN => false
  | Fin x, Fin y => Qle_bool x y
  | NInf, _ => true
  | _, NInf => false
  | _, PInf => true
  | PInf, Fin _ => false
  end.

(** [max(a, b)] and [min(a, b)] on floats *)
Definition fmax (a b : pyfloat) : pyfloat := if flt a b then b else a.
Definition fmin (a b : pyfloat) : pyfloat := if flt b a then b else a.

Definition fadd (a b : pyfloat) : pyfloat :=
  match a, b with
  | NaN, _ | _, NaN => NaN
  | Fin x, Fin y => Fin (x + y)
  | PInf, NInf | NInf, PInf => NaN
  | PInf, _ | _, PInf => PInf
  | NInf, _ | _, NInf => NInf
  end.

Definition fneg (a : pyfloat) : pyfloat :=
  match a with
  | Fin x => Fin (- x)
  | PInf => NInf
  | NInf => PInf
  | NaN => NaN
  end.

Definition fsub (a b : pyfloat) : pyfloat := fadd a (fneg b).

(** True division.  A zero divisor raises [ZeroDivisionError]. *)
Definition fdiv (a b : pyfloat) : outcome pyfloat :=
  match b with
  | Fin y =>
      if Qeq_bool y 0 then Raised
      else match a with
           | Fin x => Ok (Fin (x / y))
           | PInf => Ok (if Qltb 0 y then PInf else NInf)
           | NInf => Ok (if Qltb 0 y then NInf else PInf)
           | NaN => Ok NaN
           end
  | NaN => Ok NaN
  | PInf | NInf =>
      match a with
      | Fin _ => Ok (Fin 0)
      | _ => Ok NaN
      end
  end.

(** Equality of floats as numbers. *)
Definition feq (a b : pyfloat) : Prop :=
  match a, b with
  | Fin x, Fin y => x == y
  | PInf, PInf | NInf, NInf | NaN, NaN => True
  | _, _ => False
  end.

(** ** Strings *)

Definition lower_ascii (c : ascii) : ascii :=
  let n := nat_of_ascii c in
  if (65 <=? n)%nat && (n <=? 90)%nat then ascii_of_nat (n + 32) else c.

(** [str.lower()] *)
Fixpoint lower (s : string) : string :=
  match s with
  | EmptyString => EmptyString
  | String c s' => String (lower_ascii c) (lower s')
  end.

(** [sub in s] on strings *)
Fixpoint py_in (sub s : string) : bool :=
  String.prefix sub s ||
  match s with
  | EmptyString => false
  | String _ s' => py_in sub s'
  end.

(** [x or ''] for an optional string *)
Definition or_empty (x : option string) : string :=
  match x with
  | Some s => s
  | None => EmptyString
  end.

(** An optional string inside an f-string *)
Definition fstr (x : option string) : string :=
  match x with
  | Some s => s
  | None => "None"
  end.

(** [l[:k]] *)
Definition py_slice_to {A : Type} (k : Z) (l : list A) : list A :=
  if (0 <=? k)%Z then firstn (Z.to_nat k) l
  else firstn (length l - Z.to_nat (- k)) l.

(** ** Records of the data model *)

(** The job dictionary built from a [JobListingDB] row. *)
Record JobDict : Type := {
  jd_id : option string;
  jd_title : option string;
  jd_company : option string;
  jd_location : option string;
  jd_description : option string;
  jd_requirements : option (list string);
  jd_responsibilities : option (list string);
  jd_remote_type : option string;
  jd_experience_level : option string;
  jd_skills_required : option (list string);
  jd_skills_preferred : option (list string);
  jd_salary_min : option Q;
  jd_salary_max : option Q
}.

(** The user profile dictionary. *)
Record UserProfile : Type := {
  up_skills : option (list string);
  up_experience_years : option Z;
  up_preferred_locations : option (list string);
  up_desired_salary_min : option Q;
  up_desired_salary_max : option Q
}.

(** Truthiness of an optional number *)
Definition truthy (x : option Q) : bool :=
  match x with
  | Some q => negb (Qeq_bool q 0)
  | None => false
  end.

Definition truthy_int (x : option Z) : bool :=
  match x with
  | Some n => negb (n =? 0)%Z
  | None => false
  end.

(** [x or d] for an optional number *)
Definition or_else (x : option Q) (d : pyfloat) : pyfloat :=
  match x with
  | Some q => if Qeq_bool q 0 then d else Fin q
  | None => d
  end.

(** The value of [x or 0] *)
Definition lower_bound (x : option Q) : Q :=
  match x with
  | Some q => if Qeq_bool q 0 then 0 else q
  | None => 0
  end.

(** [filter(None, xs)] on optional numbers *)
Fixpoint filter_none (xs : list (option Q)) : list Q :=
  match xs with
  | [] => []
  | x :: xs' =>
      match x with
      | Some q => if Qeq_bool q 0 then filter_none xs' else q :: filter_none xs'
      | None => filter_none xs'
      end
  end.

Definition Qsum (l : list Q) : Q := fold_right Qplus 0 l.

(* --------------------------------------------------------------------- *)
(** ** search_engine.py: the five sub-scores *)
(* --------------------------------------------------------------------- *)

(** [set(skill.lower() for skill in skills)] *)
Definition lower_set (skills : list string) : gset string :=
  list_to_set (lower <$> skills).

(** [job_skills]: the set updated with the required, then the preferred
    skills, each only when the field is a non-empty list. *)
Definition job_skill_set (job_dict : JobDict) : gset string :=
  let job_skills : gset string := ∅ in
  let job_skills :=
    match jd_skills_required job_dict with
    | Some (s :: l) => job_skills ∪ lower_set (s :: l)
    | _ => job_skills
    end in
  match jd_skills_preferred job_dict with
  | Some (s :: l) => job_skills ∪ lower_set (s :: l)
  | _ => job_skills
  end.

Definition _calculate_skills_match
  (job_dict : JobDict) (user_profile : option UserProfile) : Q :=
  match user_profile with
  | None => 0.5
  | Some profile =>
      match up_skills profile with
      | None | Some [] => 0.5
      | Some skills =>
          let user_skills := lower_set skills in
          let job_skills := job_skill_set job_dict in
          if decide (job_skills = ∅) then 0.5
          else
            let overlap := size (user_skills ∩ job_skills) in
            let total_job_skills := size job_skills in
            if (total_job_skills =? 0)%nat then 0.5
            else
              let score :=
                inject_Z (Z.of_nat overlap) / inject_Z (Z.of_nat total_job_skills) in
              Qmin score 1
      end
  end.

Definition level_to_years : gmap string (Z * Z) :=
  list_to_map
    [ ("entry_level", (0, 2)%Z);
      ("associate", (1, 3)%Z);
      ("mid_level", (3, 7)%Z);
      ("senior_level", (5, 12)%Z);
      ("director", (8, 20)%Z);
      ("executive", (10, 30)%Z) ].

Definition _calculate_experience_match
  (job_dict : JobDict) (user_profile : option UserProfile) : Q :=
  match user_profile with
  | None => 0.5
  | Some profile =>
      if negb (truthy_int (up_experience_years profile)) then 0.5
      else
        match up_experience_years profile with
        | None => 0.5
        | Some user_years =>
            let job_level := lower (or_empty (jd_experience_level job_dict)) in
            match level_to_years !! job_level with
            | None => 0.5
            | Some (min_years, max_years) =>
                if ((min_years <=? user_years) && (user_years <=? max_years))%Z
                then 1
                else if (user_years <? min_years)%Z then
                  let gap := (min_years - user_years)%Z in
                  Qmax 0 (1 - inject_Z gap / 5)
                else
                  let gap := (user_years - max_years)%Z in
                  Qmax 0.6 (1 - inject_Z gap / 10)
            end
        end
  end.

Definition salary_body (user_min user_max job_min job_max : option Q)
  : outcome pyfloat :=
  if negb (existsb truthy [user_min; user_max; job_min; job_max]) then
    Ok (Fin 0.5)
  else if negb (truthy job_min) && negb (truthy job_max) then
    Ok (Fin 0.4)
  else if negb (truthy user_min) && negb (truthy user_max) then
    Ok (Fin 0.5)
  else
    let job_range := (or_else job_min (Fin 0), or_else job_max PInf) in
    let user_range := (or_else user_min (Fin 0), or_else user_max PInf) in
    let overlap_start := fmax (fst job_range) (fst user_range) in
    let overlap_end := fmin (snd job_range) (snd user_range) in
    if fle overlap_start overlap_end then
      let overlap_size := fsub overlap_end overlap_start in
      let job_range_size := fsub (snd job_range) (fst job_range) in
      let user_range_size := fsub (snd user_range) (fst user_range) in
      if flt (Fin 0) job_range_size && flt (Fin 0) user_range_size then
        try! avg_range_size ← fdiv (fadd job_range_size user_range_size) (Fin 2);
        try! score ← fdiv overlap_size avg_range_size;
        Ok (fmin score (Fin 1))
      else Ok (Fin 1)
    else
      let gap := fsub overlap_start overlap_end in
      let known := filter_none [job_min; job_max; user_min; user_max] in
      try! avg_salary ←
        fdiv (Fin (Qsum known)) (Fin (inject_Z (Z.of_nat (length known))));
      if flt (Fin 0) avg_salary then
        try! gap_ratio ← fdiv gap avg_salary;
        Ok (fmax (Fin 0) (fsub (Fin 1) gap_ratio))
      else Ok (Fin 0).

Definition _calculate_salary_match
  (job_dict : JobDict) (user_profile : option UserProfile) : pyfloat :=
  match user_profile with
  | None => Fin 0.5
  | Some profile =>
      except
        (salary_body (up_desired_salary_min profile) (up_desired_salary_max profile)
           (jd_salary_min job_dict) (jd_salary_max job_dict))
        (Fin 0.5)
  end.

(** The [for user_loc in user_locations] loop, which returns at the first
    preference that contains, or is contained in, the job location. *)
Fixpoint location_loop (user_locations : list string) (job_location : string)
  : bool :=
  match user_locations with
  | [] => false
  | user_loc :: rest =>
      if py_in user_loc job_location || py_in job_location user_loc then true
      else location_loop rest job_location
  end.

Definition _calculate_location_match
  (job_dict : JobDict) (user_profile : option UserProfile) : Q :=
  match user_profile with
  | None => 0.5
  | Some profile =>
      match up_preferred_locations profile with
      | None | Some [] => 0.5
      | Some preferred =>
          let user_locations := lower <$> preferred in
          let job_location := lower (or_empty (jd_location job_dict)) in
          let job_remote := lower (or_empty (jd_remote_type job_dict)) in
          if existsb (String.eqb "remote") user_locations
             && existsb (String.eqb job_remote) ["remote"; "hybrid"]
          then 1
          else if location_loop user_locations job_location then 1
          else if String.eqb job_remote "hybrid" then 0.7
          else 0.2
      end
  end.

(** Rounding to the nearest integer, a tie to the even one. *)
Definition round_half_even (y : Q) : Z :=
  let f := Qfloor y in
  let r := y - inject_Z f in
  if Qltb r 0.5 then f
  else if Qltb 0.5 r then (f + 1)%Z
  else if Z.even f then f else (f + 1)%Z.

(** To the nearest multiple of 1/1000, a tie to the even one. *)
Definition round3 (x : Q) : Q := inject_Z (round_half_even (x * 1000)) / 1000.

(* --------------------------------------------------------------------- *)
(** ** Python floats: IEEE 754 binary64 *)
(* --------------------------------------------------------------------- *)

(** A Python float is a double: a rational with a 53-bit significand.  Each
    arithmetic operation gives the double nearest to the exact result, a tie
    going to the even significand.  The values here are scores, of
    magnitude below 2, so the largest double is never reached and overflow
    is left out. *)
Definition pow2 (e : Z) : Q := 2 ^ e.

(** For [q > 0], the [m] with [2^(m-1) <= q < 2^m]. *)
Definition mag (q : Q) : Z :=
  let e := (Z.log2 (Qnum q) - Z.log2 (Zpos (Qden q)))%Z in
  if Qle_bool (pow2 e) q then (e + 1)%Z else e.

(** The exponent of the last bit of the doubles around [q]: 53 bits below
    its magnitude, and never below that of the subnormal numbers. *)
Definition b64_exponent (q : Q) : Z := Z.max (mag q - 53) (-1074).

Definition round_positive (q : Q) : Q :=
  let e := b64_exponent q in
  inject_Z (round_half_even (q / pow2 e)) * pow2 e.

(** The double nearest to [q]. *)
Definition to_double (q : Q) : Q :=
  match Qcompare q 0 with
  | Gt => round_positive q
  | Eq => 0
  | Lt => - round_positive (- q)
  end.

(** [x * y] and [x + y] on floats *)
Definition fl_mul (x y : Q) : Q := to_double (x * y).
Definition fl_add (x y : Q) : Q := to_double (x + y).

(** [round(x, 3)] on a float: the exact value of [x] is rounded to three
    decimals, a tie to the even one, and the double nearest to that decimal
    is returned. *)
Definition py_round3 (x : Q) : Q := to_double (round3 x).

(** The sum [_calculate_overall_score] rounds.  The arguments are floats (a
    rational stands for the double nearest to it), the weights are the
    doubles of the literals, and the sum is taken from left to right. *)
Definition weighted_sum (semantic skills experience salary location : Q) : Q :=
  let semantic := to_double semantic in
  let skills := to_double skills in
  let experience := to_double experience in
  let salary := to_double salary in
  let location := to_double location in
  fl_add
    (fl_add
       (fl_add
          (fl_add (fl_mul semantic (to_double 0.35))
                  (fl_mul skills (to_double 0.25)))
          (fl_mul experience (to_double 0.20)))
       (fl_mul salary (to_double 0.15)))
    (fl_mul location (to_double 0.05)).

Definition _calculate_overall_score
  (semantic skills experience salary location : Q) : Q :=
  let overall := weighted_sum semantic skills experience salary location in
  py_round3 overall.

(* --------------------------------------------------------------------- *)
(** ** Ranking: [list.sort(key=..., reverse=True)] *)
(* --------------------------------------------------------------------- *)

(** Python's sort is stable, also with [reverse=True]: items with equal keys
    keep their original order.  An insertion sort that lets an item pass
    only the items with a strictly greater key computes that list. *)
Section Ranking.
Context {A : Type} (key : A → Q).

Fixpoint insert_desc (x : A) (l : list A) : list A :=
  match l with
  | [] => [x]
  | y :: l' => if Qltb (key x) (key y) then y :: insert_desc x l' else x :: l
  end.

Definition sort_desc (l : list A) : list A := fold_right insert_desc [] l.

End Ranking.

(* --------------------------------------------------------------------- *)
(** ** embeddings.py *)
(* --------------------------------------------------------------------- *)

(** [sklearn.metrics.pairwise.cosine_similarity] on two rows, over the
    reals: each row is divided by its Euclidean norm, a zero norm being
    replaced by one, and the two normalised rows are multiplied.  Rows of
    different lengths, or without entries, are refused with a
    [ValueError]. *)
Module Exact.
Local Open Scope R_scope.

Definition dot (x y : list R) : R :=
  fold_right Rplus 0 (map (fun p => fst p * snd p) (combine x y)).

Definition row_norm (x : list R) : R := sqrt (dot x x).

Definition handle_zeros (n : R) : R := if Req_dec_T n 0 then 1 else n.

Definition normalize (x : list R) : list R :=
  map (fun v => v / handle_zeros (row_norm x)) x.

Definition cosine_similarity (x y : list R) : outcome R :=
  if (length x =? length y)%nat && negb (length x =? 0)%nat
  then Ok (dot (normalize x) (normalize y))
  else Raised.

Definition calculate_similarity (embedding1 embedding2 : list R) : R :=
  except (cosine_similarity embedding1 embedding2) 0.

End Exact.

(** [find_most_similar] ranks by the similarity it is given; it is
    parametric in [reshape] and in the scoring function, which both may
    raise. *)
Section MostSimilar.
Context {vec row : Type}.
Context (reshape : vec → outcome row).
Context (cosine_similarity : row → row → outcome Q).

(** The [for i, candidate_emb in enumerate(candidate_embeddings)] loop,
    from index [i] on. *)
Fixpoint similarities_from (i : nat) (query_emb : row)
  (candidate_embeddings : list (option vec)) : outcome (list (nat * Q)) :=
  match candidate_embeddings with
  | [] => Ok []
  | candidate_emb :: rest =>
      try! similarity ←
        match candidate_emb with
        | Some candidate =>
            try! cand_emb ← reshape candidate;
            cosine_similarity query_emb cand_emb
        | None => Ok 0
        end;
      try! similarities ← similarities_from (S i) query_emb rest;
      Ok ((i, similarity) :: similarities)
  end.

Definition most_similar_body (query_embedding : vec)
  (candidate_embeddings : list (option vec)) (top_k : Z)
  : outcome (list (nat * Q)) :=
  try! query_emb ← reshape query_embedding;
  try! similarities ← similarities_from 0 query_emb candidate_embeddings;
  Ok (py_slice_to top_k (sort_desc snd similarities)).

Definition find_most_similar (query_embedding : vec)
  (candidate_embeddings : list (option vec)) (top_k : Z) : list (nat * Q) :=
  match candidate_embeddings with
  | [] => []
  | _ => except (most_similar_body query_embedding candidate_embeddings top_k) []
  end.

End MostSimilar.

(** Truthiness of a string *)
Definition nonempty (s : string) : bool :=
  match s with
  | EmptyString => false
  | _ => true
  end.

Definition text_of (x : option string) : list string :=
  match x with
  | Some s => if nonempty s then [s] else []
  | None => []
  end.

Definition items_of (x : option (list string)) : list string :=
  match x with
  | Some l => l
  | None => []
  end.

Definition joined_of (x : option (list string)) : list string :=
  match x with
  | Some (s :: l) => [String.concat ", " (s :: l)]
  | _ => []
  end.

(** The text a job is embedded from: the title three times, the
    description, the requirements, the responsibilities and the two skill
    lists joined by commas, empty parts dropped, joined by spaces. *)
Definition job_text_parts (job_dict : JobDict) : list string :=
  (text_of (jd_title job_dict) ++ text_of (jd_title job_dict)
     ++ text_of (jd_title job_dict))
  ++ text_of (jd_description job_dict)
  ++ items_of (jd_requirements job_dict)
  ++ items_of (jd_responsibilities job_dict)
  ++ joined_of (jd_skills_required job_dict)
  ++ joined_of (jd_skills_preferred job_dict).

Definition job_combined_text (job_dict : JobDict) : string :=
  String.concat " " (filter (fun s => nonempty s = true) (job_text_parts job_dict)).

(* --------------------------------------------------------------------- *)
(** ** search_engine.py: search and similar jobs *)
(* --------------------------------------------------------------------- *)

(** A row of the job table, with the columns the engine reads. *)
Record JobListingDB : Type := {
  id : string;
  title : option string;
  company : option string;
  location : option string;
  description : option string;
  requirements : option (list string);
  responsibilities : option (list string);
  skills_required : option (list string);
  skills_preferred : option (list string)
}.

Record JobMatch : Type := {
  job_id : string;
  job_title : option string;
  jm_company : option string;
  jm_location : string;
  semantic_score : Q;
  skills_match_score : Q;
  experience_match_score : Q;
  salary_match_score : Q;
  location_match_score : Q;
  overall_score : Q;
  match_reasons : list string;
  raw_job_data : JobDict
}.

(** [job.location or "Not specified"] *)
Definition location_or_default (x : option string) : string :=
  match x with
  | Some s => if nonempty s then s else "Not specified"
  | None => "Not specified"
  end.

(** The six-key dictionary [find_similar_jobs] builds from a row. *)
Definition similar_job_dict (job : JobListingDB) : JobDict :=
  {| jd_id := None;
     jd_title := title job;
     jd_company := None;
     jd_location := None;
     jd_description := description job;
     jd_requirements := requirements job;
     jd_responsibilities := responsibilities job;
     jd_remote_type := None;
     jd_experience_level := None;
     jd_skills_required := skills_required job;
     jd_skills_preferred := skills_preferred job;
     jd_salary_min := None;
     jd_salary_max := None |}.

Section Engine.
Context {vec SearchFilters : Type}.
(** [EmbeddingService.embed_text]: the model and its cache; it may raise. *)
Context (embed_text : string → outcome vec).
(** [EmbeddingService.calculate_similarity], which handles its own errors *)
Context (embedding_similarity : vec → vec → Q).
(** [_get_filtered_jobs]: the rows passing the filters, [[]] on a database
    error; [None] is the call without filters. *)
Context (_get_filtered_jobs : option SearchFilters → list JobListingDB).
(** [job_repo.get_job], [None] when the id is unknown or on an error *)
Context (get_job : string → option JobListingDB).

Definition embed_job_description (job_dict : JobDict) : outcome vec :=
  embed_text (job_combined_text job_dict).

Definition similar_match (ref_job job : JobListingDB) (similarity : Q) : JobMatch :=
  {| job_id := id job;
     job_title := title job;
     jm_company := company job;
     jm_location := location_or_default (location job);
     semantic_score := similarity;
     skills_match_score := 0;
     experience_match_score := 0;
     salary_match_score := 0;
     location_match_score := 0;
     overall_score := similarity;
     match_reasons :=
       ["Similar to " +:+ fstr (title ref_job) +:+ " at " +:+ fstr (company ref_job)];
     raw_job_data := similar_job_dict job |}.

(** The [for job in all_jobs] loop of [find_similar_jobs]. *)
Fixpoint similar_jobs_of (ref_job : JobListingDB) (reference_id : string)
  (ref_embedding : vec) (all_jobs : list JobListingDB) : list JobMatch :=
  match all_jobs with
  | [] => []
  | job :: rest =>
      let others := similar_jobs_of ref_job reference_id ref_embedding rest in
      if String.eqb (id job) reference_id then others
      else
        match embed_job_description (similar_job_dict job) with
        | Ok job_embedding =>
            let similarity := embedding_similarity ref_embedding job_embedding in
            if Qltb 0.3 similarity
            then similar_match ref_job job similarity :: others
            else others
        | Raised => others
        end
  end.

Definition similar_body (reference_id : string) (limit : Z)
  : outcome (list JobMatch) :=
  match get_job reference_id with
  | None => Ok []
  | Some ref_job =>
      try! ref_embedding ← embed_job_description (similar_job_dict ref_job);
      let all_jobs := _get_filtered_jobs None in
      let similar_jobs := similar_jobs_of ref_job reference_id ref_embedding all_jobs in
      Ok (py_slice_to limit (sort_desc semantic_score similar_jobs))
  end.

Definition find_similar_jobs (reference_id : string) (limit : Z) : list JobMatch :=
  except (similar_body reference_id limit) [].

End Engine.

(* --------------------------------------------------------------------- *)
(** ** llm_analyzer.py: the match explanation *)
(* --------------------------------------------------------------------- *)

(** [job_dict.get(key, default)] inside an f-string: the default for a
    missing key, the text of the value otherwise ([None] prints as
    ["None"]). *)
Definition get_text (job_dict : gmap string (option string)) (key default : string)
  : string :=
  match job_dict !! key with
  | Some v => fstr v
  | None => default
  end.

Definition _fallback_match_explanation
  (job_dict : gmap string (option string)) (match_scores : gmap string Q) : string :=
  let overall_score :=
    match match_scores !! "overall_score" with
    | Some v => v
    | None => 0
    end in
  if Qle_bool 0.7 overall_score then
    "This looks like a strong match for the " +:+ get_text job_dict "title" "position"
    +:+ " role at " +:+ get_text job_dict "company" "this company"
    +:+ ". Your skills and experience align well with their requirements."
  else if Qle_bool 0.5 overall_score then
    "This could be a good opportunity for the " +:+ get_text job_dict "title" "position"
    +:+ " role. There are some areas of alignment, though you may want to highlight specific relevant experiences in your application."
  else
    "This " +:+ get_text job_dict "title" "position"
    +:+ " role might be a stretch, but could offer growth opportunities. Consider whether you're ready to take on new challenges in areas where you have less experience.".

Section Explanation.
Context {client profile : Type}.
(** The body of the [try] block: the prompt is prepared and
    [_make_llm_request] called; [Ok None] is a request that gave nothing. *)
Context (llm_request :
  client → gmap string (option string) → profile → gmap string Q
  → outcome (option string)).
(** [str.strip()] *)
Context (strip : string → string).

Definition generate_match_explanation (self_client : option client)
  (job_dict : gmap string (option string)) (user_profile : profile)
  (match_scores : gmap string Q) : string :=
  match self_client with
  | None => _fallback_match_explanation job_dict match_scores
  | Some c =>
      except
        (try! response ← llm_request c job_dict user_profile match_scores;
         match response with
         | Some text =>
             if nonempty text then Ok (strip text)
             else Ok (_fallback_match_explanation job_dict match_scores)
         | None => Ok (_fallback_match_explanation job_dict match_scores)
         end)
        (_fallback_match_explanation job_dict match_scores)
  end.

End Explanation.

(* ===================================================================== *)
(** * Part II: the vocabulary of the statements *)
(* ===================================================================== *)

(** ** Sample jobs and profiles *)

Definition job_with_level (level : option string) : JobDict :=
  {| jd_id := None; jd_title := None; jd_company := None; jd_location := None;
     jd_description := None; jd_requirements := None; jd_responsibilities := None;
     jd_remote_type := None; jd_experience_level := level;
     jd_skills_required := None; jd_skills_preferred := None;
     jd_salary_min := None; jd_salary_max := None |}.

Definition profile_with_years (years : option Z) : UserProfile :=
  {| up_skills := None; up_experience_years := years;
     up_preferred_locations := None;
     up_desired_salary_min := None; up_desired_salary_max := None |}.

Definition job_with_skills (required preferred : option (list string)) : JobDict :=
  {| jd_id := None; jd_title := None; jd_company := None; jd_location := None;
     jd_description := None; jd_requirements := None; jd_responsibilities := None;
     jd_remote_type := None; jd_experience_level := None;
     jd_skills_required := required; jd_skills_preferred := preferred;
     jd_salary_min := None; jd_salary_max := None |}.

Definition profile_with_skills (skills : option (list string)) : UserProfile :=
  {| up_skills := skills; up_experience_years := None;
     up_preferred_locations := None;
     up_desired_salary_min := None; up_desired_salary_max := None |}.

Definition job_at (location remote_type : option string) : JobDict :=
  {| jd_id := None; jd_title := None; jd_company := None; jd_location := location;
     jd_description := None; jd_requirements := None; jd_responsibilities := None;
     jd_remote_type := remote_type; jd_experience_level := None;
     jd_skills_required := None; jd_skills_preferred := None;
     jd_salary_min := None; jd_salary_max := None |}.

Definition profile_with_locations (locations : option (list string)) : UserProfile :=
  {| up_skills := None; up_experience_years := None;
     up_preferred_locations := locations;
     up_desired_salary_min := None; up_desired_salary_max := None |}.

Definition job_with_salary (salary_min salary_max : option Q) : JobDict :=
  {| jd_id := None; jd_title := None; jd_company := None; jd_location := None;
     jd_description := None; jd_requirements := None; jd_responsibilities := None;
     jd_remote_type := None; jd_experience_level := None;
     jd_skills_required := None; jd_skills_preferred := None;
     jd_salary_min := salary_min; jd_salary_max := salary_max |}.

Definition profile_with_salary (salary_min salary_max : option Q) : UserProfile :=
  {| up_skills := None; up_experience_years := None;
     up_preferred_locations := None;
     up_desired_salary_min := salary_min; up_desired_salary_max := salary_max |}.

(** ** Scores *)

(** The bands as the data model lists them. *)
Definition experience_bands : list (string * (Z * Z)) :=
  [ ("entry_level", (0, 2)%Z); ("associate", (1, 3)%Z); ("mid_level", (3, 7)%Z);
    ("senior_level", (5, 12)%Z); ("director", (8, 20)%Z); ("executive", (10, 30)%Z) ].

(** The job's skills as the specification reads them: the lower-cased
    union of the required and the preferred skills. *)
Definition job_skills_union (job_dict : JobDict) : gset string :=
  lower_set (items_of (jd_skills_required job_dict)
             ++ items_of (jd_skills_preferred job_dict)).

(** The average of the supplied bounds, [sum(...) / len(...)]. *)
Definition known_average (job_min job_max user_min user_max : option Q) : Q :=
  let known := filter_none [job_min; job_max; user_min; user_max] in
  Qsum known / inject_Z (Z.of_nat (length known)).

(** ** Ranking *)

(** The order of a list sorted by descending key in a stable way: a
    greater key first, and for equal keys the earlier item first, where
    [earlier a b] says that [a] stood before [b] in the list that was
    sorted. *)
Definition ranked_before {A : Type} (key : A → Q) (earlier : A → A → Prop)
  (a b : A) : Prop :=
  key b < key a ∨ (key b == key a ∧ earlier a b).

(** Lower index first *)
Definition index_order (p q : nat * Q) : Prop := (fst p < fst q)%nat.

(** The score the loop of [find_most_similar] gives a candidate: 0 for a
    missing vector, the cosine similarity to the query otherwise. *)
Definition candidate_score {vec row : Type} (reshape : vec → outcome row)
  (cosine_similarity : row → row → outcome Q)
  (query_emb : row) (candidate : option vec) (s : Q) : Prop :=
  match candidate with
  | None => s = 0
  | Some v => ∃ r, reshape v = Ok r ∧ cosine_similarity query_emb r = Ok s
  end.

(** A candidate at which the loop of [find_most_similar] raises: its vector
    cannot be reshaped, or cannot be compared with the query. *)
Definition candidate_raises {vec row : Type} (reshape : vec → outcome row)
  (cosine_similarity : row → row → outcome Q)
  (query_emb : row) (candidate : option vec) : Prop :=
  match candidate with
  | None => False
  | Some v =>
      reshape v = Raised
      ∨ ∃ r, reshape v = Ok r ∧ cosine_similarity query_emb r = Raised
  end.

(** One-dimensional vectors scored by their product. *)
Definition product_score (a b : Q) : outcome Q := Ok (a * b).

(** Rows scored by the sum of their products; rows of different lengths are
    refused, as [cosine_similarity] refuses them. *)
Definition checked_score (a b : list Q) : outcome Q :=
  if (length a =? length b)%nat
  then Ok (Qsum (map (fun p => fst p * snd p) (combine a b)))
  else Raised.

(** ** The engine *)

(** What every match built by [find_similar_jobs] satisfies. *)
Definition similar_only (reference_id : string) (m : JobMatch) : Prop :=
  job_id m ≠ reference_id
  ∧ 0.3 < semantic_score m
  ∧ skills_match_score m = 0
  ∧ experience_match_score m = 0
  ∧ salary_match_score m = 0
  ∧ location_match_score m = 0
  ∧ overall_score m = semantic_score m.

(** A small job table and trivial collaborators, to run the engine on. *)
Definition sample_job (key : string) : JobListingDB :=
  {| id := key; title := Some key; company := None; location := None;
     description := None; requirements := None; responsibilities := None;
     skills_required := None; skills_preferred := None |}.

Definition sample_match (score : Q) (job : JobListingDB) : JobMatch :=
  {| job_id := id job; job_title := title job; jm_company := company job;
     jm_location := location_or_default (location job);
     semantic_score := score; skills_match_score := 0.5;
     experience_match_score := 0.5; salary_match_score := 0.5;
     location_match_score := 0.5; overall_score := score;
     match_reasons := []; raw_job_data := similar_job_dict job |}.

Definition sample_table (filters : option unit) : list JobListingDB :=
  [sample_job "a"; sample_job "b"; sample_job "c"].

Definition sample_lookup (key : string) : option JobListingDB :=
  if String.eqb key "a" then Some (sample_job "a") else None.

(** Text length as a one-number embedding. *)
Definition sample_embed (text : string) : outcome nat := Ok (String.length text).

Definition sample_similarity (a b : nat) : Q := 0.8.

(** ** Explanations *)

(** [part] occurs in [text]. *)
Definition mentions (text part : string) : Prop :=
  ∃ pre post : string, text = pre +:+ part +:+ post.

(** The overall score the fallback reads, [match_scores.get('overall_score', 0)] *)
Definition overall_of (match_scores : gmap string Q) : Q :=
  match match_scores !! "overall_score"%string with
  | Some v => v
  | None => 0
  end.

Definition sample_job_dict : gmap string (option string) :=
  {[ "title"%string := Some "Data Engineer"%string ]}.

Definition sample_scores : gmap string Q := {[ "overall_score"%string := 0.85 ]}.

(** ** The overall score *)

(** What the float operations of the weighted sum can lose against the
    exact sum, for scores of magnitude at most 1. *)
Definition sum_tolerance : Q := 1 # 100000000000000.

(** The expression of the specification,
    [round(0.35*semantic + 0.25*skills + 0.20*experience + 0.15*salary
    + 0.05*location, 3)], evaluated on floats as Python evaluates it. *)
Definition stated_overall_score
  (semantic skills experience salary location : Q) : Q :=
  py_round3
    (fl_add
       (fl_add
          (fl_add
             (fl_add (fl_mul (to_double 0.35) (to_double semantic))
                     (fl_mul (to_double 0.25) (to_double skills)))
             (fl_mul (to_double 0.20) (to_double experience)))
          (fl_mul (to_double 0.15) (to_double salary)))
       (fl_mul (to_double 0.05) (to_double location))).

(* ===================================================================== *)
(** * Part II, continued: more of the program and of the vocabulary *)
(* ===================================================================== *)

(** A float that is a number, and its value. *)
Definition is_number (f : pyfloat) : Prop := ∃ q : Q, f = Fin q.

Definition float_value (f : pyfloat) : Q :=
  match f with
  | Fin q => q
  | _ => 0
  end.

(** A float score that is a number in [0,1]. *)
Definition unit_score (f : pyfloat) : Prop := ∃ q : Q, f = Fin q ∧ 0 <= q <= 1.

(** The job and the user each supply a lower salary bound and no upper one. *)
Definition lower_bounds_only (job : JobDict) (profile : UserProfile) : Prop :=
  truthy (jd_salary_min job) = true ∧ truthy (jd_salary_max job) = false
  ∧ truthy (up_desired_salary_min profile) = true
  ∧ truthy (up_desired_salary_max profile) = false.

(* --------------------------------------------------------------------- *)
(** ** search_engine.py: match reasons and the job match *)
(* --------------------------------------------------------------------- *)

Definition upper_ascii (c : ascii) : ascii :=
  let n := nat_of_ascii c in
  if (97 <=? n)%nat && (n <=? 122)%nat then ascii_of_nat (n - 32) else c.

Definition is_lower_ascii (c : ascii) : bool :=
  let n := nat_of_ascii c in (97 <=? n)%nat && (n <=? 122)%nat.

Definition is_upper_ascii (c : ascii) : bool :=
  let n := nat_of_ascii c in (65 <=? n)%nat && (n <=? 90)%nat.

(** [str.title()]: a letter after a non-letter is upper-cased, a letter
    after a letter is lower-cased. *)
Fixpoint title_from (previous_is_cased : bool) (s : string) : string :=
  match s with
  | EmptyString => EmptyString
  | String c s' =>
      if is_lower_ascii c then
        String (if previous_is_cased then c else upper_ascii c) (title_from true s')
      else if is_upper_ascii c then
        String (if previous_is_cased then lower_ascii c else c) (title_from true s')
      else String c (title_from false s')
  end.

Definition title_case (s : string) : string := title_from false s.

(** [s.replace('_', ' ')] *)
Fixpoint underscores_to_spaces (s : string) : string :=
  match s with
  | EmptyString => EmptyString
  | String c s' =>
      String (if Ascii.eqb c "_" then " "%char else c) (underscores_to_spaces s')
  end.

(** Truthiness of an optional string *)
Definition truthy_text (x : option string) : bool :=
  match x with
  | Some s => nonempty s
  | None => false
  end.

Section MatchReasons.
(** [list(s)] for a set: Python fixes no order. *)
Context (list_of_set : gset string → list string).

Definition semantic_reasons (semantic : Q) : list string :=
  if Qltb 0.7 semantic then ["Excellent match with your search query and interests"]
  else if Qltb 0.5 semantic then ["Good alignment with your search criteria"]
  else [].

(** The skills reason looks at the required skills only. *)
Definition skills_reasons (job_dict : JobDict) (user_profile : option UserProfile)
  (skills : Q) : list string :=
  if Qltb 0.7 skills then
    match user_profile with
    | None => []
    | Some profile =>
        match up_skills profile with
        | None | Some [] => []
        | Some user =>
            let user_skills := lower_set user in
            let job_skills : gset string :=
              match jd_skills_required job_dict with
              | Some (s :: l) => lower_set (s :: l)
              | _ => ∅
              end in
            let matching_skills := user_skills ∩ job_skills in
            if decide (matching_skills = ∅) then []
            else
              let skills_list := firstn 3 (list_of_set matching_skills) in
              ["Strong skills match: " +:+ String.concat ", " skills_list]
        end
    end
  else [].

(** The experience reason.  The dictionary built by [_calculate_job_match]
    always has the key, so a missing level is the value [None], on which
    [.replace] raises. *)
Definition experience_reasons (job_dict : JobDict) (experience : Q)
  : outcome (list string) :=
  if Qltb 0.8 experience then Ok ["Perfect experience level match"]
  else if Qltb 0.6 experience then Ok ["Good experience level alignment"]
  else if Qltb experience 0.4 then
    match jd_experience_level job_dict with
    | None => Raised
    | Some level =>
        let job_level := title_case (underscores_to_spaces level) in
        if nonempty job_level
        then Ok ["Consider this " +:+ job_level +:+ " opportunity for growth"]
        else Ok []
    end
  else Ok [].

Definition salary_reasons (job_dict : JobDict) (salary : pyfloat) : list string :=
  if flt (Fin 0.7) salary then ["Salary range aligns with your expectations"]
  else if flt salary (Fin 0.3) && truthy (jd_salary_min job_dict)
  then ["Salary may be below expectations"]
  else [].

Definition is_remote_type (job_dict : JobDict) (kind : string) : bool :=
  match jd_remote_type job_dict with
  | Some r => String.eqb r kind
  | None => false
  end.

Definition location_reasons (job_dict : JobDict) (location : Q) : list string :=
  if Qltb 0.8 location then
    if is_remote_type job_dict "remote" then ["Fully remote position"]
    else ["Location matches your preferences"]
  else if is_remote_type job_dict "hybrid" then ["Hybrid work arrangement available"]
  else [].

Definition company_reasons (job_dict : JobDict) : list string :=
  match jd_company job_dict with
  | Some c => if nonempty c then ["Opportunity at " +:+ c] else []
  | None => []
  end.

(** The reasons found before the company is looked at. *)
Definition reasons_before_company (job_dict : JobDict)
  (user_profile : option UserProfile)
  (semantic skills experience : Q) (salary : pyfloat) (location : Q)
  : outcome (list string) :=
  try! experience_part ← experience_reasons job_dict experience;
  Ok (semantic_reasons semantic
      ++ skills_reasons job_dict user_profile skills
      ++ experience_part
      ++ salary_reasons job_dict salary
      ++ location_reasons job_dict location).

Definition _generate_match_reasons (job_dict : JobDict)
  (user_profile : option UserProfile)
  (semantic skills experience : Q) (salary : pyfloat) (location : Q)
  : outcome (list string) :=
  try! reasons ←
    reasons_before_company job_dict user_profile semantic skills experience
      salary location;
  Ok (firstn 5 (reasons ++ company_reasons job_dict)).

End MatchReasons.

(** A row of the job table with the further columns [_calculate_job_match]
    reads. *)
Record JobRow : Type := {
  row_listing : JobListingDB;
  row_salary_min : option Q;
  row_salary_max : option Q;
  row_remote_type : option string;
  row_experience_level : option string
}.

(** The dictionary [_calculate_job_match] builds from a row (the job type
    and the posting date, which no score reads, are left out). *)
Definition job_dict_of_row (job : JobRow) : JobDict :=
  {| jd_id := Some (id (row_listing job));
     jd_title := title (row_listing job);
     jd_company := company (row_listing job);
     jd_location := location (row_listing job);
     jd_description := description (row_listing job);
     jd_requirements := requirements (row_listing job);
     jd_responsibilities := responsibilities (row_listing job);
     jd_remote_type := row_remote_type job;
     jd_experience_level := row_experience_level job;
     jd_skills_required := skills_required (row_listing job);
     jd_skills_preferred := skills_preferred (row_listing job);
     jd_salary_min := row_salary_min job;
     jd_salary_max := row_salary_max job |}.

(** [JobMatch] with its scores as floats: the salary score, and with it the
    overall score, may be NaN. *)
Record ScoredMatch : Type := {
  sm_job_id : string;
  sm_job_title : option string;
  sm_company : option string;
  sm_location : string;
  sm_semantic_score : Q;
  sm_skills_match_score : Q;
  sm_experience_match_score : Q;
  sm_salary_match_score : pyfloat;
  sm_location_match_score : Q;
  sm_overall_score : pyfloat;
  sm_match_reasons : list string;
  sm_raw_job_data : JobDict
}.

(** [_calculate_overall_score] when the salary score is a float: an
    infinite or NaN term makes the sum, and its rounding, infinite or
    NaN. *)
Definition overall_score_float (semantic skills experience : Q) (salary : pyfloat)
  (location : Q) : pyfloat :=
  match salary with
  | Fin s => Fin (_calculate_overall_score semantic skills experience s location)
  | PInf => PInf
  | NInf => NInf
  | NaN => NaN
  end.

Section JobMatching.
Context {vec : Type}.
Context (list_of_set : gset string → list string).
Context (embed_text : string → outcome vec).
Context (embedding_similarity : vec → vec → Q).

Definition job_match_body (job : JobRow) (query_embedding : vec)
  (user_embedding : option vec) (user_profile : option UserProfile)
  : outcome ScoredMatch :=
  let job_dict := job_dict_of_row job in
  try! job_embedding ← embed_job_description embed_text job_dict;
  let semantic_score := embedding_similarity query_embedding job_embedding in
  let skills_match_score := _calculate_skills_match job_dict user_profile in
  let experience_match_score := _calculate_experience_match job_dict user_profile in
  let salary_match_score := _calculate_salary_match job_dict user_profile in
  let location_match_score := _calculate_location_match job_dict user_profile in
  let overall_score :=
    overall_score_float semantic_score skills_match_score experience_match_score
      salary_match_score location_match_score in
  try! match_reasons ←
    _generate_match_reasons list_of_set job_dict user_profile semantic_score
      skills_match_score experience_match_score salary_match_score
      location_match_score;
  Ok {| sm_job_id := id (row_listing job);
        sm_job_title := title (row_listing job);
        sm_company := company (row_listing job);
        sm_location := location_or_default (location (row_listing job));
        sm_semantic_score := semantic_score;
        sm_skills_match_score := skills_match_score;
        sm_experience_match_score := experience_match_score;
        sm_salary_match_score := salary_match_score;
        sm_location_match_score := location_match_score;
        sm_overall_score := overall_score;
        sm_match_reasons := match_reasons;
        sm_raw_job_data := job_dict |}.

(** [_calculate_job_match]: [None] after any exception. *)
Definition calculate_job_match (job : JobRow) (query_embedding : vec)
  (user_embedding : option vec) (user_profile : option UserProfile)
  : option ScoredMatch :=
  match job_match_body job query_embedding user_embedding user_profile with
  | Ok m => Some m
  | Raised => None
  end.

End JobMatching.

(* --------------------------------------------------------------------- *)
(** ** [list.sort(key=..., reverse=True)] on float keys *)
(* --------------------------------------------------------------------- *)

(** The keys are floats and may be NaN, on which every comparison is false;
    what the sort returns then depends on the comparisons it makes.  This is
    CPython's sort of a list of fewer than 64 items: the list is reversed,
    the run at its head is found and made ascending, every later item is
    inserted into the sorted part by binary search, and the list is reversed
    again.  The sort asks for [<] only.  Python sorts longer lists by
    merging several such runs. *)
Section ListSort.
Context {A : Type} (key : A → pyfloat).

Definition key_lt (a b : A) : bool := flt (key a) (key b).

(** [count_run]: the items after [previous] that go on a run. *)
Fixpoint run_ascending (previous : A) (l : list A) : nat :=
  match l with
  | [] => 0
  | x :: l' => if key_lt x previous then 0 else S (run_ascending x l')
  end.

Fixpoint run_descending (previous : A) (l : list A) : nat :=
  match l with
  | [] => 0
  | x :: l' => if key_lt x previous then S (run_descending x l') else 0
  end.

(** The length of the run at the head, and whether it is strictly
    descending. *)
Definition count_run (l : list A) : nat * bool :=
  match l with
  | [] => (0, false)%nat
  | [x] => (1, false)%nat
  | x :: y :: l' =>
      if key_lt y x then (2 + run_descending y l', true)%nat
      else (2 + run_ascending y l', false)%nat
  end.

(** The binary search of [binarysort]: where [pivot] goes in [sorted],
    between the positions [l] and [r]. *)
Fixpoint bisect (fuel : nat) (pivot : A) (sorted : list A) (l r : nat) : nat :=
  match fuel with
  | O => l
  | S fuel' =>
      if (l <? r)%nat then
        let p := (l + (r - l) / 2)%nat in
        match nth_error sorted p with
        | Some x =>
            if key_lt pivot x then bisect fuel' pivot sorted l p
            else bisect fuel' pivot sorted (S p) r
        | None => l
        end
      else l
  end.

Definition binary_insert (sorted : list A) (pivot : A) : list A :=
  let i := bisect (length sorted) pivot sorted 0 (length sorted) in
  firstn i sorted ++ pivot :: skipn i sorted.

(** [binarysort]: the first [start] items are sorted, the others are
    inserted one by one. *)
Definition binarysort (start : nat) (l : list A) : list A :=
  fold_left binary_insert (skipn start l) (firstn start l).

Definition sort_ascending (l : list A) : list A :=
  let (n, descending) := count_run l in
  binarysort n (if descending then rev (firstn n l) ++ skipn n l else l).

Definition list_sort_reverse (l : list A) : list A :=
  rev (sort_ascending (rev l)).

End ListSort.

(* --------------------------------------------------------------------- *)
(** ** search_engine.py: the search *)
(* --------------------------------------------------------------------- *)

Section Search.
Context {vec SearchFilters : Type}.
(** [EmbeddingService.embed_text]: the model and its cache; it may raise. *)
Context (embed_text : string → outcome vec).
(** [EmbeddingService.embed_user_profile] *)
Context (embed_user_profile : UserProfile → outcome vec).
(** [_get_filtered_jobs]: the rows passing the filters, [[]] on a database
    error; [None] is the call without filters. *)
Context (_get_filtered_jobs : option SearchFilters → list JobRow).
(** [_calculate_job_match], taken by its interface: a match, [None] after
    an error it handled, or an exception. *)
Context (_calculate_job_match :
  JobRow → vec → option vec → option UserProfile → outcome (option ScoredMatch)).

(** The [for job in jobs] loop of [search_jobs_semantic]: a match is
    appended, a [None] or an exception goes on to the next job. *)
Fixpoint job_matches_of (jobs : list JobRow) (query_embedding : vec)
  (user_embedding : option vec) (user_profile : option UserProfile)
  : list ScoredMatch :=
  match jobs with
  | [] => []
  | job :: rest =>
      let others := job_matches_of rest query_embedding user_embedding user_profile in
      match _calculate_job_match job query_embedding user_embedding user_profile with
      | Ok (Some job_match) => job_match :: others
      | Ok None => others
      | Raised => others
      end
  end.

(** [user_embedding = None], replaced by the profile's embedding
    [if user_profile]. *)
Definition user_embedding_of (user_profile : option UserProfile)
  : outcome (option vec) :=
  match user_profile with
  | Some profile => try! e ← embed_user_profile profile; Ok (Some e)
  | None => Ok None
  end.

Definition search_body (query : string) (user_profile : option UserProfile)
  (filters : option SearchFilters) (limit : Z) : outcome (list ScoredMatch) :=
  let jobs := _get_filtered_jobs filters in
  match jobs with
  | [] => Ok []
  | _ =>
      try! query_embedding ← embed_text query;
      try! user_embedding ← user_embedding_of user_profile;
      let job_matches :=
        job_matches_of jobs query_embedding user_embedding user_profile in
      Ok (py_slice_to limit (list_sort_reverse sm_overall_score job_matches))
  end.

Definition search_jobs_semantic (query : string)
  (user_profile : option UserProfile) (filters : option SearchFilters)
  (limit : Z) : list ScoredMatch :=
  except (search_body query user_profile filters limit) [].

End Search.

(** The scorer of the engine as the search calls it. *)
Definition engine_scorer {vec : Type} (list_of_set : gset string → list string)
  (embed_text : string → outcome vec) (embedding_similarity : vec → vec → Q)
  (job : JobRow) (query_embedding : vec) (user_embedding : option vec)
  (user_profile : option UserProfile) : outcome (option ScoredMatch) :=
  Ok (calculate_job_match list_of_set embed_text embedding_similarity job
        query_embedding user_embedding user_profile).

(* --------------------------------------------------------------------- *)
(** ** embeddings.py: the embedding service and its cache *)
(* --------------------------------------------------------------------- *)

(** ASCII whitespace, as [str.strip()] sees it. *)
Definition is_space (c : ascii) : bool :=
  let n := nat_of_ascii c in
  ((9 <=? n)%nat && (n <=? 13)%nat) || ((28 <=? n)%nat && (n <=? 32)%nat).

Fixpoint lstrip (s : string) : string :=
  match s with
  | EmptyString => EmptyString
  | String c s' => if is_space c then lstrip s' else s
  end.

Fixpoint rstrip (s : string) : string :=
  match s with
  | EmptyString => EmptyString
  | String c s' =>
      match rstrip s' with
      | EmptyString => if is_space c then EmptyString else String c EmptyString
      | r => String c r
      end
  end.

(** [str.strip()] *)
Definition py_strip (s : string) : string := rstrip (lstrip s).

(** [not text or not text.strip()] *)
Definition is_blank (text : string) : bool := negb (nonempty (py_strip text)).

Module EmbeddingService.
Section Service.
Context {vec : Type}.
(** [np.zeros(self.model.get_sentence_embedding_dimension())] *)
Context (zeros : vec).
(** [self.model.encode] on one text and on a batch; either may raise. *)
Context (encode : string → outcome vec).
Context (encode_batch : list string → outcome (list vec)).
(** [_get_cache_key]: the MD5 digest of the text, in hexadecimal *)
Context (cache_key : string → string).
(** Whether the cache file of a key can be written; a failed write is
    logged and changes nothing. *)
Context (can_write : string → bool).

(** The cache directory: the embeddings that can be loaded, by key. *)
Definition _load_from_cache (cache : gmap string vec) (key : string) : option vec :=
  cache !! key.

Definition _save_to_cache (cache : gmap string vec) (key : string) (embedding : vec)
  : gmap string vec :=
  if can_write key then <[key := embedding]> cache else cache.

(** The cache look-up of [embed_text] and [embed_texts], skipped without
    [use_cache]. *)
Definition cached (use_cache : bool) (cache : gmap string vec) (text : string)
  : option vec :=
  if use_cache then _load_from_cache cache (cache_key text) else None.

Definition embed_text (text : string) (use_cache : bool) (cache : gmap string vec)
  : vec * gmap string vec :=
  if is_blank text then (zeros, cache)
  else
    let text := py_strip text in
    match cached use_cache cache text with
    | Some cached_embedding => (cached_embedding, cache)
    | None =>
        match encode text with
        | Ok embedding =>
            (embedding,
             if use_cache then _save_to_cache cache (cache_key text) embedding
             else cache)
        | Raised => (zeros, cache)
        end
    end.

(** The first loop of [embed_texts], from index [i] on: the embeddings
    known so far, [None] being the placeholder, and the texts still to
    embed with their indices ([indices_to_embed] and [texts_to_embed], which
    the source fills together).  The loop does not change the cache, so its
    iterations are independent. *)
Fixpoint scan_texts (i : nat) (texts : list string) (use_cache : bool)
  (cache : gmap string vec) : list (option vec) * list (nat * string) :=
  match texts with
  | [] => ([], [])
  | text :: rest =>
      let scanned := scan_texts (S i) rest use_cache cache in
      if is_blank text then (Some zeros :: fst scanned, snd scanned)
      else
        let text := py_strip text in
        match cached use_cache cache text with
        | Some cached_embedding => (Some cached_embedding :: fst scanned, snd scanned)
        | None => (None :: fst scanned, (i, text) :: snd scanned)
        end
  end.

(** The loop over [zip(texts_to_embed, batch_embeddings)]. *)
Fixpoint store_batch (pending : list (nat * string)) (batch : list vec)
  (use_cache : bool) (embeddings : list (option vec)) (cache : gmap string vec)
  : list (option vec) * gmap string vec :=
  match pending, batch with
  | (original_index, text) :: pending', embedding :: batch' =>
      store_batch pending' batch' use_cache
        (<[original_index := Some embedding]> embeddings)
        (if use_cache then _save_to_cache cache (cache_key text) embedding
         else cache)
  | _, _ => (embeddings, cache)
  end.

(** The loop of the handler: placeholders become zero vectors. *)
Fixpoint fill_zeros (indices : list nat) (embeddings : list (option vec))
  : list (option vec) :=
  match indices with
  | [] => embeddings
  | i :: rest =>
      fill_zeros rest
        (match embeddings !! i with
         | Some None => <[i := Some zeros]> embeddings
         | _ => embeddings
         end)
  end.

Definition embed_texts (texts : list string) (use_cache : bool)
  (cache : gmap string vec) : list (option vec) * gmap string vec :=
  match texts with
  | [] => ([], cache)
  | _ =>
      let scanned := scan_texts 0 texts use_cache cache in
      let embeddings := fst scanned in
      let pending := snd scanned in
      match pending with
      | [] => (embeddings, cache)
      | _ =>
          match encode_batch (snd <$> pending) with
          | Ok batch_embeddings =>
              store_batch pending batch_embeddings use_cache embeddings cache
          | Raised => (fill_zeros (fst <$> pending) embeddings, cache)
          end
      end
  end.

(** [embed_job_description]: the combined text goes through [embed_text]. *)
Definition embed_job_description (job_dict : JobDict) (cache : gmap string vec)
  : vec * gmap string vec :=
  embed_text (job_combined_text job_dict) true cache.

End Service.
End EmbeddingService.

(** The placeholders of a scanned list filled in order from a batch reply. *)
Fixpoint fill_with {vec : Type} (embeddings : list (option vec)) (batch : list vec)
  : list (option vec) :=
  match embeddings with
  | [] => []
  | Some v :: rest => Some v :: fill_with rest batch
  | None :: rest =>
      match batch with
      | v :: batch' => Some v :: fill_with rest batch'
      | [] => None :: fill_with rest []
      end
  end.

(** Text made of whitespace only *)
Fixpoint all_space (s : string) : bool :=
  match s with
  | EmptyString => true
  | String c s' => is_space c && all_space s'
  end.

(** What the first loop of [embed_texts] knows of a text without the model:
    the zero vector for a blank text, the cached vector if there is one. *)
Definition known_embedding {vec : Type} (zeros : vec) (cache_key : string → string)
  (use_cache : bool) (cache : gmap string vec) (text : string) : option vec :=
  if is_blank text then Some zeros
  else EmbeddingService.cached cache_key use_cache cache (py_strip text).

(** The texts the first loop of [embed_texts] leaves to the model, stripped
    and in input order. *)
Definition unknown_texts {vec : Type} (zeros : vec) (cache_key : string → string)
  (use_cache : bool) (cache : gmap string vec) (texts : list string) : list string :=
  py_strip <$>
    List.filter
      (fun text =>
         match known_embedding zeros cache_key use_cache cache text with
         | None => true
         | Some _ => false
         end)
      texts.

(* --------------------------------------------------------------------- *)
(** ** llm_analyzer.py: the rule-based fallbacks *)
(* --------------------------------------------------------------------- *)

(** The values a job dictionary holds. *)
Inductive pyval : Type :=
| PyNone
| PyStr (s : string)
| PyList (l : list string)
| PyNum (q : Q).

(** [job_dict[key] if job_dict.get(key) and isinstance(..., list) else []] *)
Definition list_field (job_dict : gmap string pyval) (key : string) : list string :=
  match job_dict !! key with
  | Some (PyList l) => l
  | _ => []
  end.

(** [s[:3]] for a string *)
Fixpoint string_take (n : nat) (s : string) : string :=
  match n, s with
  | S n', String c s' => String c (string_take n' s')
  | _, _ => EmptyString
  end.

(** [job_dict.get('responsibilities', [])[:3]]: the empty list for a
    missing key; [None] and numbers cannot be sliced. *)
Definition first_responsibilities (job_dict : gmap string pyval) : outcome pyval :=
  match job_dict !! "responsibilities"%string with
  | None => Ok (PyList [])
  | Some (PyList l) => Ok (PyList (firstn 3 l))
  | Some (PyStr s) => Ok (PyStr (string_take 3 s))
  | Some PyNone => Raised
  | Some (PyNum _) => Raised
  end.

Record JobAnalysis : Type := {
  required_skills : list string;
  soft_skills : list string;
  analysis_experience_level : string;
  key_responsibilities : pyval;
  growth_opportunities : list string;
  culture_indicators : list string;
  nice_to_have : list string;
  difficulty_level : Z
}.

Definition _fallback_job_analysis (job_dict : gmap string pyval)
  : outcome JobAnalysis :=
  let skills := list_field job_dict "skills_required"
                ++ list_field job_dict "skills_preferred" in
  try! responsibilities ← first_responsibilities job_dict;
  Ok {| required_skills := firstn 5 skills;
        soft_skills := ["Communication"; "Problem Solving"; "Teamwork"]%string;
        analysis_experience_level := "3-5 years";
        key_responsibilities := responsibilities;
        growth_opportunities := ["Skill development"; "Career advancement"]%string;
        culture_indicators := ["Collaborative environment"%string];
        nice_to_have :=
          if (5 <? length skills)%nat then skipn 5 skills else [];
        difficulty_level := 5 |}.

(** What [analyze_job_requirements] returns: the parsed reply of the
    language model, or the fallback. *)
Inductive analysis (json : Type) : Type :=
| Parsed (reply : json)
| RuleBased (a : JobAnalysis).
Arguments Parsed {json} reply.
Arguments RuleBased {json} a.

Section Analyzer.
Context {client json : Type}.
(** The prompt is prepared and [_make_llm_request] called: a reply, [None]
    when the request failed, or an exception. *)
Context (llm_request : client → gmap string pyval → outcome (option string)).
(** [json.loads]; [None] stands for [JSONDecodeError]. *)
Context (json_loads : string → option json).

Definition fallback_analysis (job_dict : gmap string pyval)
  : outcome (analysis json) :=
  try! a ← _fallback_job_analysis job_dict; Ok (RuleBased a).

(** The body of the [try] block *)
Definition analyze_body (c : client) (job_dict : gmap string pyval)
  : outcome (analysis json) :=
  try! response ← llm_request c job_dict;
  match response with
  | Some text =>
      if nonempty text then
        match json_loads text with
        | Some reply => Ok (Parsed reply)
        | None => fallback_analysis job_dict
        end
      else fallback_analysis job_dict
  | None => fallback_analysis job_dict
  end.

(** The handler calls the fallback again, outside any [try]: an exception
    of the fallback reaches the caller. *)
Definition analyze_job_requirements (self_client : option client)
  (job_dict : gmap string pyval) : outcome (analysis json) :=
  match self_client with
  | None => fallback_analysis job_dict
  | Some c =>
      match analyze_body c job_dict with
      | Ok a => Ok a
      | Raised => fallback_analysis job_dict
      end
  end.

End Analyzer.

Record SkillGaps : Type := {
  missing_skills : list string;
  matching_skills : list string;
  learning_priorities : list string;
  time_estimates : gmap string string;
  learning_suggestions : gmap string string;
  transferable_skills : list string
}.

Section SkillGapsFallback.
Context (list_of_set : gset string → list string).

(** The comparison is between the skills as written: nothing here lowers
    the case. *)
Definition _fallback_skill_gaps (job_dict : JobDict) (user_profile : UserProfile)
  : SkillGaps :=
  let job_skills : gset string :=
    list_to_set (items_of (jd_skills_required job_dict)) in
  let user_skills : gset string := list_to_set (items_of (up_skills user_profile)) in
  let missing := list_of_set (job_skills ∖ user_skills) in
  let matching := list_of_set (job_skills ∩ user_skills) in
  {| missing_skills := firstn 5 missing;
     matching_skills := matching;
     learning_priorities := firstn 3 missing;
     time_estimates :=
       list_to_map ((fun skill => (skill, "2-3 months"%string)) <$> firstn 3 missing);
     learning_suggestions :=
       list_to_map
         ((fun skill => (skill, "Online courses and practice projects"%string))
            <$> firstn 3 missing);
     transferable_skills := matching |}.

End SkillGapsFallback.

(** The profile with the text fields [_prepare_profile_text] reads. *)
Record ProfileText : Type := {
  pt_profile : UserProfile;
  pt_current_title : option string;
  pt_industry : option string;
  pt_preferred_titles : option (list string)
}.

Section ProfilePrompt.
(** [str] of an integer *)
Context (str_of_int : Z → string).

Definition labelled_text (label : string) (x : option string) : list string :=
  match x with
  | Some s => if nonempty s then [label +:+ s] else []
  | None => []
  end.

Definition labelled_list (label : string) (x : option (list string)) : list string :=
  match x with
  | Some (s :: l) => [label +:+ String.concat ", " (s :: l)]
  | _ => []
  end.

Definition _prepare_profile_text (user_profile : ProfileText) : string :=
  let parts :=
    labelled_text "Current Role: " (pt_current_title user_profile)
    ++ (match up_experience_years (pt_profile user_profile) with
        | Some years =>
            if (years =? 0)%Z then []
            else ["Years of Experience: " +:+ str_of_int years]
        | None => []
        end)
    ++ labelled_text "Industry: " (pt_industry user_profile)
    ++ labelled_list "Skills: " (up_skills (pt_profile user_profile))
    ++ labelled_list "Preferred Roles: " (pt_preferred_titles user_profile)
    ++ labelled_list "Preferred Locations: "
         (up_preferred_locations (pt_profile user_profile)) in
  match parts with
  | [] => "Limited profile information available"
  | _ => String.concat (String "010"%char EmptyString) parts
  end.

End ProfilePrompt.

(* --------------------------------------------------------------------- *)
(** ** app.py: the callers *)
(* --------------------------------------------------------------------- *)

(** [l[a:b]] *)
Definition slice_index (len : nat) (i : Z) : nat :=
  if (i <? 0)%Z then Z.to_nat (Z.max 0 (i + Z.of_nat len))
  else Nat.min (Z.to_nat i) len.

Definition py_slice {A : Type} (l : list A) (a b : Z) : list A :=
  let lo := slice_index (length l) a in
  let hi := slice_index (length l) b in
  firstn (hi - lo) (skipn lo l).

(** The page of the search route: [all_matches[start_idx:end_idx]]. *)
Definition page_matches {A : Type} (all_matches : list A) (page per_page : Z)
  : list A :=
  let start_idx := ((page - 1) * per_page)%Z in
  let end_idx := (start_idx + per_page)%Z in
  py_slice all_matches start_idx end_idx.

(** The dictionary of scores the job page hands to the explanation. *)
Definition detail_match_scores (job_match : JobMatch) : gmap string Q :=
  {[ "overall"%string := overall_score job_match;
     "skills"%string := skills_match_score job_match;
     "experience"%string := experience_match_score job_match;
     "salary"%string := salary_match_score job_match ]}.

(** The dictionary the job page builds for the analysis. *)
Definition py_text (x : option string) : pyval :=
  match x with
  | Some s => PyStr s
  | None => PyNone
  end.

Definition py_items (x : option (list string)) : pyval :=
  match x with
  | Some l => PyList l
  | None => PyNone
  end.

Definition py_number (x : option Q) : pyval :=
  match x with
  | Some q => PyNum q
  | None => PyNone
  end.

Definition detail_job_dict (job : JobRow) : gmap string pyval :=
  {[ "title"%string := py_text (title (row_listing job));
     "description"%string := py_text (description (row_listing job));
     "requirements"%string := py_items (requirements (row_listing job));
     "responsibilities"%string := py_items (responsibilities (row_listing job));
     "skills_required"%string := py_items (skills_required (row_listing job));
     "skills_preferred"%string := py_items (skills_preferred (row_listing job));
     "experience_level"%string := py_text (row_experience_level job);
     "salary_min"%string := py_number (row_salary_min job);
     "salary_max"%string := py_number (row_salary_max job) ]}.

Section JobDetail.
Context {client json : Type}.
Context (llm_request : client → gmap string pyval → outcome (option string)).
Context (json_loads : string → option json).
(** The block under [if user_profile]: the match is scored and its
    explanation stored in the analysis; it may raise. *)
Context (explain : UserProfile → JobRow → analysis json → outcome (analysis json)).
(** [search_engine.find_similar_jobs] *)
Context (similar_jobs_of_id : string → Z → list JobMatch).

(** The inner [try] of the job page: the analysis and the similar jobs it
    shows.  Both start empty and keep what was assigned before an
    exception. *)
Definition job_detail_ai (self_client : option client) (job : JobRow)
  (user_profile : option UserProfile) : option (analysis json) * list JobMatch :=
  match analyze_job_requirements llm_request json_loads self_client
          (detail_job_dict job) with
  | Raised => (None, [])
  | Ok ai_analysis =>
      match user_profile with
      | Some profile =>
          match explain profile job ai_analysis with
          | Ok explained =>
              (Some explained, similar_jobs_of_id (id (row_listing job)) 5)
          | Raised => (Some ai_analysis, [])
          end
      | None => (Some ai_analysis, similar_jobs_of_id (id (row_listing job)) 5)
      end
  end.

End JobDetail.

(** [api_search_suggestions].  Strings are UTF-8 byte strings here, on
    which [in] is the same relation as on characters.  [str.lower] and [len]
    work on whole characters: they are parameters. *)
Section Suggestions.
Context (list_of_set : gset string → list string).
Context (str_lower : string → string).
Context (str_len : string → nat).

(** The titles and skills of one job that contain the query; a NULL title
    raises. *)
Definition job_suggestions (query : string) (job : JobListingDB)
  : outcome (gset string) :=
  match title job with
  | None => Raised
  | Some t =>
      let from_title : gset string :=
        if py_in query (str_lower t) then {[ t ]} else ∅ in
      let from_skills : gset string :=
        list_to_set
          (List.filter (fun skill => py_in query (str_lower skill))
             (items_of (skills_required job))) in
      Ok (from_title ∪ from_skills)
  end.

Fixpoint collect_suggestions (query : string) (recent_jobs : list JobListingDB)
  : outcome (gset string) :=
  match recent_jobs with
  | [] => Ok ∅
  | job :: rest =>
      try! here ← job_suggestions query job;
      try! others ← collect_suggestions query rest;
      Ok (here ∪ others)
  end.

(** [api_search_suggestions], given the recent jobs. *)
Definition search_suggestions (q : string) (recent_jobs : list JobListingDB)
  : list string :=
  let query := str_lower q in
  if (2 <=? str_len query)%nat then
    except
      (try! titles ← collect_suggestions query recent_jobs;
       Ok (firstn 8 (list_of_set titles)))
      []
  else [].

End Suggestions.

Section SearchRoute.
Context {vec SearchFilters : Type}.
Context (embed_text : string → outcome vec).
Context (embed_user_profile : UserProfile → outcome vec).
Context (_get_filtered_jobs : option SearchFilters → list JobRow).
Context (_calculate_job_match :
  JobRow → vec → option vec → option UserProfile → outcome (option ScoredMatch)).

(** The matches the search route shows: nothing for a blank query,
    otherwise the page cut out of a search with limit [per_page * 5]. *)
Definition search_route_matches (q : string) (page per_page : Z)
  (user_profile : option UserProfile) (filters : SearchFilters)
  : list ScoredMatch :=
  let query := py_strip q in
  if nonempty query then
    let all_matches :=
      search_jobs_semantic embed_text embed_user_profile _get_filtered_jobs
        _calculate_job_match query user_profile (Some filters) (per_page * 5) in
    page_matches all_matches page per_page
  else [].

End SearchRoute.

(* --------------------------------------------------------------------- *)
(** ** Sample data *)
(* --------------------------------------------------------------------- *)

(** A job and a profile that agree on everything. *)
Definition busy_job : JobDict :=
  {| jd_id := None; jd_title := Some "Engineer"%string;
     jd_company := Some "Acme"%string; jd_location := Some "Berlin"%string;
     jd_description := None; jd_requirements := None; jd_responsibilities := None;
     jd_remote_type := Some "remote"%string;
     jd_experience_level := Some "mid_level"%string;
     jd_skills_required := Some ["Python"%string]; jd_skills_preferred := None;
     jd_salary_min := Some 100000; jd_salary_max := Some 150000 |}.

Definition busy_profile : UserProfile :=
  {| up_skills := Some ["python"%string]; up_experience_years := Some 4%Z;
     up_preferred_locations := Some ["remote"%string];
     up_desired_salary_min := Some 100000; up_desired_salary_max := Some 150000 |}.

(** A hybrid job without a level, with a lower salary bound only. *)
Definition sample_row : JobRow :=
  {| row_listing := sample_job "a"; row_salary_min := Some 100000;
     row_salary_max := None; row_remote_type := Some "hybrid"%string;
     row_experience_level := None |}.

(** A row with a title and salary bounds only. *)
Definition salary_row (key : string) (salary_min salary_max : option Q) : JobRow :=
  {| row_listing := sample_job key; row_salary_min := salary_min;
     row_salary_max := salary_max; row_remote_type := None;
     row_experience_level := None |}.

(** Three jobs: one with a salary range, one with a lower bound only, one
    without salary. *)
Definition salary_table (filters : option unit) : list JobRow :=
  [salary_row "c" (Some 100000) (Some 150000); salary_row "b" (Some 90000) None;
   salary_row "a" None None].

(** The scorer of the engine, except that it raises on job "b". *)
Definition sample_scoring (job : JobRow) (query_embedding : nat)
  (user_embedding : option nat) (user_profile : option UserProfile)
  : outcome (option ScoredMatch) :=
  if String.eqb (id (row_listing job)) "b" then Raised
  else engine_scorer elements sample_embed sample_similarity job query_embedding
         user_embedding user_profile.

(** A job with a title and skills. *)
Definition python_job : JobListingDB :=
  {| id := "p"; title := Some "Python Developer"%string; company := None;
     location := None; description := None; requirements := None;
     responsibilities := None;
     skills_required := Some ["Python"; "SQL"]%string; skills_preferred := None |}.

(* ===================================================================== *)
(** * Part III: properties *)
(* ===================================================================== *)

(** ** Comparisons and rounding *)

Lemma Qltb_lt (x y : Q) : Qltb x y = true ↔ x < y.
Proof.
  unfold Qltb. rewrite negb_true_iff. split.
  - intros H. apply Qnot_le_lt. intros Hle. apply Qle_bool_iff in Hle. congruence.
  - intros H. destruct (Qle_bool y x) eqn:E; [|reflexivity].
    apply Qle_bool_iff in E. exfalso. apply (Qlt_not_le _ _ H E).
Qed.

Lemma Qltb_ge (x y : Q) : Qltb x y = false ↔ y <= x.
Proof.
  unfold Qltb. rewrite negb_false_iff. apply Qle_bool_iff.
Qed.

Lemma Qltb_comp (x x' y y' : Q) : x == x' → y == y' → Qltb x y = Qltb x' y'.
Proof.
  intros Hx Hy. destruct (Qltb x' y') eqn:E.
  - apply Qltb_lt. apply Qltb_lt in E. rewrite Hx, Hy. exact E.
  - apply Qltb_ge. apply Qltb_ge in E. rewrite Hx, Hy. exact E.
Qed.

Lemma round_half_even_comp (x y : Q) :
  x == y → round_half_even x = round_half_even y.
Proof.
  intros H. unfold round_half_even.
  assert (Hf : Qfloor x = Qfloor y) by (rewrite H; reflexivity).
  rewrite Hf.
  rewrite (Qltb_comp (x - inject_Z (Qfloor y)) (y - inject_Z (Qfloor y)) 0.5 0.5);
    [| rewrite H; reflexivity | reflexivity].
  rewrite (Qltb_comp 0.5 0.5 (x - inject_Z (Qfloor y)) (y - inject_Z (Qfloor y)));
    [| reflexivity | rewrite H; reflexivity].
  reflexivity.
Qed.

Lemma round3_comp (x y : Q) : x == y → round3 x == round3 y.
Proof.
  intros H. unfold round3.
  rewrite (round_half_even_comp (x * 1000) (y * 1000)); [reflexivity|].
  rewrite H. reflexivity.
Qed.

Lemma round_half_even_bounds (y : Q) (n : Z) :
  0 <= y → y <= inject_Z n → (0 <= round_half_even y <= n)%Z.
Proof.
  intros H0 Hn.
  assert (Hf0 : (0 <= Qfloor y)%Z).
  { change 0%Z with (Qfloor 0). apply Qfloor_resp_le. exact H0. }
  assert (Hfn : (Qfloor y <= n)%Z).
  { rewrite <- (Qfloor_Z n). apply Qfloor_resp_le. exact Hn. }
  unfold round_half_even.
  destruct (Qltb (y - inject_Z (Qfloor y)) 0.5) eqn:E1; [lia|].
  assert (Hlt : (Qfloor y < n)%Z).
  { destruct (Z.eq_dec (Qfloor y) n) as [Heq|Hne]; [|lia].
    exfalso. apply Qltb_ge in E1. rewrite Heq in E1.
    assert (y - inject_Z n <= 0) by lra. lra. }
  destruct (Qltb 0.5 (y - inject_Z (Qfloor y))); [lia|].
  destruct (Z.even (Qfloor y)); lia.
Qed.

Lemma round3_unit (x : Q) : 0 <= x <= 1 → 0 <= round3 x <= 1.
Proof.
  intros [H0 H1]. unfold round3.
  destruct (round_half_even_bounds (x * 1000) 1000) as [Hlo Hhi].
  - lra.
  - change (inject_Z 1000) with 1000. lra.
  - rewrite Zle_Qle in Hlo. rewrite Zle_Qle in Hhi.
    change (inject_Z 0) with 0 in Hlo. change (inject_Z 1000) with 1000 in Hhi.
    split.
    + apply Qle_shift_div_l; lra.
    + apply Qle_shift_div_r; lra.
Qed.

Lemma round_half_even_near (y : Q) :
  (Qfloor y <= round_half_even y <= Qfloor y + 1)%Z.
Proof.
  unfold round_half_even.
  destruct (Qltb _ _); [lia|]. destruct (Qltb _ _); [lia|].
  destruct (Z.even _); lia.
Qed.

Lemma round_half_even_monotone (x y : Q) :
  x <= y → (round_half_even x <= round_half_even y)%Z.
Proof.
  intros Hxy.
  pose proof (Qfloor_resp_le _ _ Hxy) as Hf.
  destruct (Z.eq_dec (Qfloor x) (Qfloor y)) as [Heq|Hne].
  - unfold round_half_even. rewrite Heq.
    set (f := Qfloor y).
    destruct (Qltb (x - inject_Z f) 0.5) eqn:E1.
    { destruct (Qltb (y - inject_Z f) 0.5); [lia|].
      destruct (Qltb 0.5 (y - inject_Z f)); [lia|]. destruct (Z.even f); lia. }
    apply Qltb_ge in E1.
    assert (E1' : Qltb (y - inject_Z f) 0.5 = false) by (apply Qltb_ge; lra).
    rewrite E1'.
    destruct (Qltb 0.5 (x - inject_Z f)) eqn:E2.
    { apply Qltb_lt in E2.
      assert (E2' : Qltb 0.5 (y - inject_Z f) = true) by (apply Qltb_lt; lra).
      rewrite E2'. lia. }
    destruct (Qltb 0.5 (y - inject_Z f)); destruct (Z.even f); lia.
  - pose proof (round_half_even_near x). pose proof (round_half_even_near y). lia.
Qed.

Lemma round3_monotone (x y : Q) : x <= y → round3 x <= round3 y.
Proof.
  intros Hxy. unfold round3.
  assert (H : (round_half_even (x * 1000) <= round_half_even (y * 1000))%Z)
    by (apply round_half_even_monotone; lra).
  rewrite Zle_Qle in H.
  unfold Qdiv. apply Qmult_le_compat_r; [exact H|]. intros Hc; discriminate Hc.
Qed.

(** ** Doubles *)


Lemma round_half_even_error (y : Q) :
  y - (1 # 2) <= inject_Z (round_half_even y) <= y + (1 # 2).
Proof.
  pose proof (Qfloor_le y) as Hlo. pose proof (Qlt_floor y) as Hhi.
  rewrite inject_Z_plus in Hhi. change (inject_Z 1) with 1 in Hhi.
  unfold round_half_even.
  destruct (Qltb (y - inject_Z (Qfloor y)) 0.5) eqn:E1.
  { apply Qltb_lt in E1. lra. }
  apply Qltb_ge in E1.
  destruct (Qltb 0.5 (y - inject_Z (Qfloor y))) eqn:E2.
  { rewrite inject_Z_plus. change (inject_Z 1) with 1. lra. }
  apply Qltb_ge in E2.
  destruct (Z.even (Qfloor y)); [lra|].
  rewrite inject_Z_plus. change (inject_Z 1) with 1. lra.
Qed.

Lemma round_half_even_Z (n : Z) : round_half_even (inject_Z n) = n.
Proof.
  unfold round_half_even. rewrite Qfloor_Z.
  assert (E : Qltb (inject_Z n - inject_Z n) 0.5 = true) by (apply Qltb_lt; lra).
  rewrite E. reflexivity.
Qed.

Lemma pow2_pos (e : Z) : 0 < pow2 e.
Proof. apply Qpower_0_lt. reflexivity. Qed.

Lemma pow2_add (a b : Z) : pow2 (a + b) == pow2 a * pow2 b.
Proof. apply Qpower_plus. intros H. discriminate H. Qed.

Lemma pow2_le (a b : Z) : (a <= b)%Z → pow2 a <= pow2 b.
Proof. intros H. apply Qpower_le_compat_l; [exact H|]. discriminate. Qed.

Lemma pow2_lt (a b : Z) : (a < b)%Z → pow2 a < pow2 b.
Proof. intros H. apply Qpower_lt_compat_l; [exact H|]. reflexivity. Qed.

Lemma pow2_lt_inv (a b : Z) : pow2 a < pow2 b → (a < b)%Z.
Proof. intros H. apply (Qpower_lt_compat_l_inv 2); [exact H|]. reflexivity. Qed.

Lemma pow2_Z (e : Z) : (0 <= e)%Z → pow2 e == inject_Z (2 ^ e).
Proof. intros H. symmetry. apply (Zpower_Qpower 2 e H). Qed.

Lemma pow2_split (a b : Z) : pow2 a == pow2 (a - b) * pow2 b.
Proof.
  rewrite <- pow2_add. replace (a - b + b)%Z with a by ring. reflexivity.
Qed.

Lemma mag_bounds (n : Z) (d : positive) :
  (0 < n)%Z ->
  let e := (Z.log2 n - Z.log2 (Zpos d))%Z in
  pow2 (e - 1) < n # d ∧ n # d < pow2 (e + 1).
Proof.
  intros Hn. cbv zeta.
  set (a := Z.log2 n). set (b := Z.log2 (Zpos d)).
  destruct (Z.log2_spec n Hn) as [Ha1 Ha2].
  destruct (Z.log2_spec (Zpos d) ltac:(lia)) as [Hb1 Hb2].
  fold a in Ha1, Ha2. fold b in Hb1, Hb2.
  assert (Ha0 : (0 <= a)%Z) by apply Z.log2_nonneg.
  assert (Hb0 : (0 <= b)%Z) by apply Z.log2_nonneg.
  rewrite Z.pow_succ_r in Ha2, Hb2 by assumption.
  assert (HPa : (0 < 2 ^ a)%Z) by (apply Z.pow_pos_nonneg; lia).
  assert (HPb : (0 < 2 ^ b)%Z) by (apply Z.pow_pos_nonneg; lia).
  split.
  - apply (Qmult_lt_r _ _ (pow2 (b + 1))); [apply pow2_pos|].
    rewrite <- pow2_add. replace (a - b - 1 + (b + 1))%Z with a by ring.
    rewrite (pow2_Z a Ha0), (pow2_Z (b + 1)) by lia.
    rewrite Z.pow_add_r by lia. change (2 ^ 1)%Z with 2%Z.
    revert Ha1 Ha2 Hb1 Hb2 HPa HPb. generalize (2 ^ a)%Z (2 ^ b)%Z.
    intros A B Ha1 Ha2 Hb1 Hb2 HPa HPb.
    unfold Qlt, Qmult, inject_Z. simpl. nia.
  - apply (Qmult_lt_r _ _ (pow2 b)); [apply pow2_pos|].
    rewrite <- pow2_add. replace (a - b + 1 + b)%Z with (a + 1)%Z by ring.
    rewrite (pow2_Z (a + 1)), (pow2_Z b) by lia.
    rewrite Z.pow_add_r by lia. change (2 ^ 1)%Z with 2%Z.
    revert Ha1 Ha2 Hb1 Hb2 HPa HPb. generalize (2 ^ a)%Z (2 ^ b)%Z.
    intros A B Ha1 Ha2 Hb1 Hb2 HPa HPb.
    unfold Qlt, Qmult, inject_Z. simpl. nia.
Qed.

Lemma mag_spec (q : Q) : 0 < q → pow2 (mag q - 1) <= q ∧ q < pow2 (mag q).
Proof.
  intros Hq. destruct q as [n d].
  assert (Hn : (0 < n)%Z) by (unfold Qlt in Hq; simpl in Hq; lia).
  destruct (mag_bounds n d Hn) as [Hlo Hhi]. cbv zeta in Hlo, Hhi.
  unfold mag. cbn [Qnum Qden].
  destruct (Qle_bool (pow2 (Z.log2 n - Z.log2 (Zpos d))) (n # d)) eqn:E.
  - apply Qle_bool_iff in E.
    replace (Z.log2 n - Z.log2 (Zpos d) + 1 - 1)%Z
      with (Z.log2 n - Z.log2 (Zpos d))%Z by ring.
    split; assumption.
  - split; [apply Qlt_le_weak; exact Hlo|].
    apply Qnot_le_lt. intros H. apply Qle_bool_iff in H. congruence.
Qed.

Lemma mag_unique (q : Q) (m : Z) :
  0 < q → pow2 (m - 1) <= q → q < pow2 m → mag q = m.
Proof.
  intros Hq Hlo Hhi. destruct (mag_spec q Hq) as [Hlo' Hhi'].
  assert (H1 : (m - 1 < mag q)%Z).
  { apply pow2_lt_inv. apply (Qle_lt_trans _ q); assumption. }
  assert (H2 : (mag q - 1 < m)%Z).
  { apply pow2_lt_inv. apply (Qle_lt_trans _ q); assumption. }
  lia.
Qed.

Lemma mag_comp (x y : Q) : x == y → 0 < x → mag x = mag y.
Proof.
  intros Hxy Hx. symmetry. destruct (mag_spec x Hx) as [Hlo Hhi].
  apply mag_unique; rewrite <- Hxy; assumption.
Qed.

Lemma mag_monotone (x y : Q) : 0 < x → x <= y → (mag x <= mag y)%Z.
Proof.
  intros Hx Hxy. assert (Hy : 0 < y) by lra.
  destruct (mag_spec x Hx) as [Hlo _]. destruct (mag_spec y Hy) as [_ Hhi].
  assert (H : (mag x - 1 < mag y)%Z).
  { apply pow2_lt_inv. apply (Qle_lt_trans _ x); [exact Hlo|].
    apply (Qle_lt_trans _ y); assumption. }
  lia.
Qed.

Lemma b64_exponent_comp (x y : Q) :
  x == y → 0 < x → b64_exponent x = b64_exponent y.
Proof. intros H Hx. unfold b64_exponent. rewrite (mag_comp x y H Hx). reflexivity. Qed.

Lemma b64_exponent_monotone (x y : Q) :
  0 < x → x <= y → (b64_exponent x <= b64_exponent y)%Z.
Proof.
  intros Hx Hxy. unfold b64_exponent. pose proof (mag_monotone x y Hx Hxy). lia.
Qed.

Lemma round_positive_comp (x y : Q) :
  x == y → 0 < x → round_positive x == round_positive y.
Proof.
  intros H Hx. unfold round_positive. rewrite <- (b64_exponent_comp x y H Hx).
  rewrite (round_half_even_comp (x / pow2 (b64_exponent x))
             (y / pow2 (b64_exponent x)))
    by (apply Qmult_comp; [exact H|reflexivity]).
  reflexivity.
Qed.

(** A power of two on the grid of [q] bounds its rounding as it bounds [q]. *)
Lemma scaled_power (t e : Z) :
  (e <= t)%Z → pow2 t / pow2 e == inject_Z (2 ^ (t - e)).
Proof.
  intros H. rewrite <- (pow2_Z (t - e)) by lia.
  rewrite (pow2_split t e). pose proof (pow2_pos e). field. lra.
Qed.

Lemma round_positive_upper (q : Q) (t : Z) :
  0 < q → q <= pow2 t → (b64_exponent q <= t)%Z → round_positive q <= pow2 t.
Proof.
  intros Hq Hle He. unfold round_positive.
  set (e := b64_exponent q) in *. pose proof (pow2_pos e) as Hp.
  assert (Hs : q / pow2 e <= inject_Z (2 ^ (t - e))).
  { rewrite <- (scaled_power t e He). apply Qle_shift_div_l; [exact Hp|].
    setoid_replace (q / pow2 e * pow2 e) with q using relation Qeq by (field; lra).
    exact Hle. }
  apply round_half_even_monotone in Hs. rewrite round_half_even_Z in Hs.
  rewrite Zle_Qle in Hs.
  setoid_replace (pow2 t) with (inject_Z (2 ^ (t - e)) * pow2 e) using relation Qeq
    by (rewrite <- (scaled_power t e He); field; lra).
  apply Qmult_le_compat_r; [exact Hs|lra].
Qed.

Lemma round_positive_lower (q : Q) (t : Z) :
  0 < q → pow2 t <= q → (b64_exponent q <= t)%Z → pow2 t <= round_positive q.
Proof.
  intros Hq Hle He. unfold round_positive.
  set (e := b64_exponent q) in *. pose proof (pow2_pos e) as Hp.
  assert (Hs : inject_Z (2 ^ (t - e)) <= q / pow2 e).
  { rewrite <- (scaled_power t e He). apply Qle_shift_div_l; [exact Hp|].
    setoid_replace (pow2 t / pow2 e * pow2 e) with (pow2 t) using relation Qeq by (field; lra).
    exact Hle. }
  apply round_half_even_monotone in Hs. rewrite round_half_even_Z in Hs.
  rewrite Zle_Qle in Hs.
  setoid_replace (pow2 t) with (inject_Z (2 ^ (t - e)) * pow2 e) using relation Qeq
    by (rewrite <- (scaled_power t e He); field; lra).
  apply Qmult_le_compat_r; [exact Hs|lra].
Qed.

Lemma round_positive_nonneg (q : Q) : 0 < q → 0 <= round_positive q.
Proof.
  intros Hq. unfold round_positive.
  pose proof (pow2_pos (b64_exponent q)) as Hp.
  assert (Hs : inject_Z 0 <= q / pow2 (b64_exponent q)).
  { apply Qle_shift_div_l; [exact Hp|]. change (inject_Z 0) with 0. lra. }
  apply round_half_even_monotone in Hs. rewrite round_half_even_Z in Hs.
  rewrite Zle_Qle in Hs. change (inject_Z 0) with 0 in Hs.
  apply Qmult_le_0_compat; lra.
Qed.

Lemma round_positive_monotone (x y : Q) :
  0 < x → x <= y → round_positive x <= round_positive y.
Proof.
  intros Hx Hxy. assert (Hy : 0 < y) by lra.
  pose proof (b64_exponent_monotone x y Hx Hxy) as He.
  destruct (Z.eq_dec (b64_exponent x) (b64_exponent y)) as [Heq|Hne].
  - unfold round_positive. rewrite Heq.
    pose proof (pow2_pos (b64_exponent y)) as Hp.
    apply Qmult_le_compat_r; [|lra]. rewrite <- Zle_Qle.
    apply round_half_even_monotone.
    apply Qle_shift_div_l; [exact Hp|].
    setoid_replace (x / pow2 (b64_exponent y) * pow2 (b64_exponent y)) with x using relation Qeq
      by (field; lra).
    exact Hxy.
  - assert (Hlt : (b64_exponent x < b64_exponent y)%Z) by lia.
    pose proof (mag_monotone x y Hx Hxy) as Hm.
    destruct (mag_spec x Hx) as [_ Hxhi]. destruct (mag_spec y Hy) as [Hylo _].
    unfold b64_exponent in Hlt.
    assert (Hmlt : (mag x < mag y)%Z) by lia.
    apply (Qle_trans _ (pow2 (mag y - 1))).
    + apply round_positive_upper; [exact Hx| |unfold b64_exponent; lia].
      apply (Qle_trans _ (pow2 (mag x))); [lra|]. apply pow2_le. lia.
    + apply round_positive_lower; [exact Hy|exact Hylo|unfold b64_exponent; lia].
Qed.

Lemma to_double_comp (x y : Q) : x == y → to_double x == to_double y.
Proof.
  intros H. unfold to_double. rewrite <- H.
  destruct (Qcompare_spec x 0) as [E|E|E]; [reflexivity| |].
  - apply Qopp_comp. apply round_positive_comp; [rewrite H; reflexivity|lra].
  - apply round_positive_comp; assumption.
Qed.

Lemma to_double_monotone (x y : Q) : x <= y → to_double x <= to_double y.
Proof.
  intros Hxy. unfold to_double.
  destruct (Qcompare_spec x 0) as [Ex|Ex|Ex];
    destruct (Qcompare_spec y 0) as [Ey|Ey|Ey]; try lra.
  - apply round_positive_nonneg. exact Ey.
  - pose proof (round_positive_nonneg (- x)). lra.
  - assert (H : round_positive (- y) <= round_positive (- x))
      by (apply round_positive_monotone; lra).
    lra.
  - pose proof (round_positive_nonneg (- x)).
    pose proof (round_positive_nonneg y Ey). lra.
  - apply round_positive_monotone; assumption.
Qed.

Lemma round_positive_error (q : Q) :
  0 < q → q < 2 ->
  q - pow2 (-53) <= round_positive q <= q + pow2 (-53).
Proof.
  intros Hq H2. destruct (mag_spec q Hq) as [Hlo _].
  assert (Hm : (mag q - 1 < 1)%Z).
  { apply pow2_lt_inv. apply (Qle_lt_trans _ q); [exact Hlo|exact H2]. }
  assert (He : (b64_exponent q <= -52)%Z) by (unfold b64_exponent; lia).
  unfold round_positive. set (e := b64_exponent q) in *.
  pose proof (pow2_pos e) as Hp.
  pose proof (pow2_le e (-52) He) as Hple.
  assert (Hhalf : pow2 (-52) == 2 * pow2 (-53)) by reflexivity.
  destruct (round_half_even_error (q / pow2 e)) as [H1 H2'].
  set (r := inject_Z (round_half_even (q / pow2 e))) in *.
  assert (Ha : (q / pow2 e - (1 # 2)) * pow2 e <= r * pow2 e)
    by (apply Qmult_le_compat_r; lra).
  assert (Hb : r * pow2 e <= (q / pow2 e + (1 # 2)) * pow2 e)
    by (apply Qmult_le_compat_r; lra).
  setoid_replace ((q / pow2 e - (1 # 2)) * pow2 e) with (q - (1 # 2) * pow2 e) using relation Qeq
    in Ha by (field; lra).
  setoid_replace ((q / pow2 e + (1 # 2)) * pow2 e) with (q + (1 # 2) * pow2 e) using relation Qeq
    in Hb by (field; lra).
  lra.
Qed.

Lemma to_double_error (x : Q) :
  -2 < x → x < 2 → x - pow2 (-53) <= to_double x <= x + pow2 (-53).
Proof.
  intros Hlo Hhi. unfold to_double.
  destruct (Qcompare_spec x 0) as [E|E|E].
  - pose proof (pow2_pos (-53)). lra.
  - destruct (round_positive_error (- x)); lra.
  - apply round_positive_error; assumption.
Qed.

Lemma to_double_unit (x : Q) : 0 <= x <= 1 → 0 <= to_double x <= 1.
Proof.
  intros [H0 H1]. split.
  - change 0 with (to_double 0) at 1. apply to_double_monotone. exact H0.
  - assert (E : to_double 1 == 1) by (vm_compute; reflexivity).
    pose proof (to_double_monotone x 1 H1). lra.
Qed.

(** ** The weighted sum in doubles *)

Lemma py_round3_monotone (x y : Q) : x <= y → py_round3 x <= py_round3 y.
Proof. intros H. apply to_double_monotone, round3_monotone, H. Qed.

Lemma fl_add_monotone (x y x' y' : Q) :
  x <= x' → y <= y' → fl_add x y <= fl_add x' y'.
Proof. intros Hx Hy. apply to_double_monotone. lra. Qed.

Lemma fl_mul_monotone (x x' w : Q) :
  0 <= w <= 1 → x <= x' → fl_mul x (to_double w) <= fl_mul x' (to_double w).
Proof.
  intros Hw Hx. apply to_double_monotone.
  apply Qmult_le_compat_r; [exact Hx|]. apply to_double_unit. exact Hw.
Qed.

Lemma weighted_sum_monotone
  (semantic skills experience salary location : Q)
  (semantic' skills' experience' salary' location' : Q) :
  semantic <= semantic' → skills <= skills' → experience <= experience' ->
  salary <= salary' → location <= location' ->
  weighted_sum semantic skills experience salary location
  <= weighted_sum semantic' skills' experience' salary' location'.
Proof.
  intros Hs Hk He Ha Hl. unfold weighted_sum. cbv zeta.
  repeat apply fl_add_monotone;
    apply fl_mul_monotone; try lra; apply to_double_monotone; assumption.
Qed.

Ltac weight_value w :=
  let v := eval vm_compute in (to_double w) in
  replace (to_double w) with v by (vm_compute; reflexivity).

Lemma weighted_sum_near (semantic skills experience salary location : Q) :
  -1 <= semantic <= 1 → -1 <= skills <= 1 → -1 <= experience <= 1 ->
  -1 <= salary <= 1 → -1 <= location <= 1 ->
  let exact := 0.35 * semantic + 0.25 * skills + 0.20 * experience
               + 0.15 * salary + 0.05 * location in
  exact - sum_tolerance
  <= weighted_sum semantic skills experience salary location
  <= exact + sum_tolerance.
Proof.
  intros Hs Hk He Ha Hl. cbv zeta. unfold weighted_sum, fl_add, fl_mul. cbv zeta.
  assert (Hu : pow2 (-53) == 1 # 9007199254740992) by reflexivity.
  weight_value 0.35. weight_value 0.25. weight_value 0.20.
  weight_value 0.15. weight_value 0.05.
  pose proof (to_double_error semantic ltac:(lra) ltac:(lra)) as E1.
  pose proof (to_double_error skills ltac:(lra) ltac:(lra)) as E2.
  pose proof (to_double_error experience ltac:(lra) ltac:(lra)) as E3.
  pose proof (to_double_error salary ltac:(lra) ltac:(lra)) as E4.
  pose proof (to_double_error location ltac:(lra) ltac:(lra)) as E5.
  set (x1 := to_double semantic) in *. set (x2 := to_double skills) in *.
  set (x3 := to_double experience) in *. set (x4 := to_double salary) in *.
  set (x5 := to_double location) in *.
  match goal with |- context [to_double (x1 * ?w)] =>
    pose proof (to_double_error (x1 * w) ltac:(lra) ltac:(lra)) as P1;
    set (p1 := to_double (x1 * w)) in * end.
  match goal with |- context [to_double (x2 * ?w)] =>
    pose proof (to_double_error (x2 * w) ltac:(lra) ltac:(lra)) as P2;
    set (p2 := to_double (x2 * w)) in * end.
  match goal with |- context [to_double (x3 * ?w)] =>
    pose proof (to_double_error (x3 * w) ltac:(lra) ltac:(lra)) as P3;
    set (p3 := to_double (x3 * w)) in * end.
  match goal with |- context [to_double (x4 * ?w)] =>
    pose proof (to_double_error (x4 * w) ltac:(lra) ltac:(lra)) as P4;
    set (p4 := to_double (x4 * w)) in * end.
  match goal with |- context [to_double (x5 * ?w)] =>
    pose proof (to_double_error (x5 * w) ltac:(lra) ltac:(lra)) as P5;
    set (p5 := to_double (x5 * w)) in * end.
  pose proof (to_double_error (p1 + p2) ltac:(lra) ltac:(lra)) as S2.
  set (s2 := to_double (p1 + p2)) in *.
  pose proof (to_double_error (s2 + p3) ltac:(lra) ltac:(lra)) as S3.
  set (s3 := to_double (s2 + p3)) in *.
  pose proof (to_double_error (s3 + p4) ltac:(lra) ltac:(lra)) as S4.
  set (s4 := to_double (s3 + p4)) in *.
  pose proof (to_double_error (s4 + p5) ltac:(lra) ltac:(lra)) as S5.
  set (s5 := to_double (s4 + p5)) in *.
  unfold sum_tolerance. lra.
Qed.

(** ** The overall score *)

Lemma py_round3_comp (x y : Q) : x == y → py_round3 x == py_round3 y.
Proof. intros H. apply to_double_comp, round3_comp, H. Qed.

Lemma fl_add_comp (x y x' y' : Q) : x == x' → y == y' → fl_add x y == fl_add x' y'.
Proof. intros Hx Hy. apply to_double_comp. rewrite Hx, Hy. reflexivity. Qed.

Lemma fl_mul_comm (x y : Q) : fl_mul x y == fl_mul y x.
Proof. apply to_double_comp. ring. Qed.

(** The score is the double of a decimal with three places, and that decimal
    is a nearest one to the exact weighted sum, up to [sum_tolerance]. *)
Lemma overall_score_nearest (semantic skills experience salary location : Q) :
  -1 <= semantic <= 1 → -1 <= skills <= 1 → -1 <= experience <= 1 →
  -1 <= salary <= 1 → -1 <= location <= 1 →
  let thousandths :=
    round_half_even
      (weighted_sum semantic skills experience salary location * 1000) in
  _calculate_overall_score semantic skills experience salary location
  == to_double (inject_Z thousandths / 1000)
  ∧ Qabs (inject_Z thousandths / 1000
          - (0.35 * semantic + 0.25 * skills + 0.20 * experience
             + 0.15 * salary + 0.05 * location))
    <= (1 # 2000) + sum_tolerance.
Proof.
  intros Hs Hk He Ha Hl. cbv zeta. split; [reflexivity|].
  pose proof (weighted_sum_near semantic skills experience salary location
                Hs Hk He Ha Hl) as Hnear. cbv zeta in Hnear.
  set (overall := weighted_sum semantic skills experience salary location) in *.
  pose proof (round_half_even_error (overall * 1000)) as Hr.
  set (r := inject_Z (round_half_even (overall * 1000))) in *.
  apply Qabs_Qle_condition. unfold Qdiv. change (/ 1000) with (1 # 1000).
  unfold sum_tolerance in *. lra.
Qed.

(** C2. For sub-scores in [0,1] the overall score is the value of
    round(0.35*semantic + 0.25*skills + 0.20*experience + 0.15*salary +
    0.05*location, 3) on floats.  It is the double of a decimal k/1000 with k
    an integer from 0 to 1000, that decimal is a nearest one to the exact
    weighted sum up to the rounding of the float operations (10^-14), and the
    score lies in [0,1]. *)
Theorem overall_score_weighted_round
  (semantic skills experience salary location : Q) :
  0 <= semantic <= 1 → 0 <= skills <= 1 → 0 <= experience <= 1 →
  0 <= salary <= 1 → 0 <= location <= 1 →
  let score := _calculate_overall_score semantic skills experience salary location in
  score == stated_overall_score semantic skills experience salary location
  ∧ (∃ thousandths : Z,
       (0 <= thousandths <= 1000)%Z
       ∧ score == to_double (inject_Z thousandths / 1000)
       ∧ Qabs (inject_Z thousandths / 1000
               - (0.35 * semantic + 0.25 * skills + 0.20 * experience
                  + 0.15 * salary + 0.05 * location))
         <= (1 # 2000) + sum_tolerance)
  ∧ 0 <= score <= 1.
Proof.
  intros Hs Hk He Ha Hl. cbv zeta.
  destruct (overall_score_nearest semantic skills experience salary location)
    as [Hscore Hnear]; try lra.
  cbv zeta in Hscore, Hnear.
  set (overall := weighted_sum semantic skills experience salary location) in *.
  assert (Hlo : weighted_sum 0 0 0 0 0 <= overall)
    by (apply weighted_sum_monotone; lra).
  assert (Hhi : overall <= weighted_sum 1 1 1 1 1)
    by (apply weighted_sum_monotone; lra).
  assert (Hk0 : (round_half_even (weighted_sum 0 0 0 0 0 * 1000)
                 <= round_half_even (overall * 1000))%Z)
    by (apply round_half_even_monotone; lra).
  assert (Hk1 : (round_half_even (overall * 1000)
                 <= round_half_even (weighted_sum 1 1 1 1 1 * 1000))%Z)
    by (apply round_half_even_monotone; lra).
  assert (E0 : round_half_even (weighted_sum 0 0 0 0 0 * 1000) = 0%Z)
    by (vm_compute; reflexivity).
  assert (E1 : round_half_even (weighted_sum 1 1 1 1 1 * 1000) = 1000%Z)
    by (vm_compute; reflexivity).
  rewrite E0 in Hk0. rewrite E1 in Hk1.
  split; [|split].
  - unfold _calculate_overall_score, stated_overall_score, weighted_sum. cbv zeta.
    apply py_round3_comp. repeat apply fl_add_comp; apply fl_mul_comm.
  - exists (round_half_even (overall * 1000)).
    split; [lia|]. split; assumption.
  - rewrite Hscore. apply to_double_unit.
    rewrite Zle_Qle in Hk0. rewrite Zle_Qle in Hk1.
    change (inject_Z 0) with 0 in Hk0. change (inject_Z 1000) with 1000 in Hk1.
    unfold Qdiv. change (/ 1000) with (1 # 1000). lra.
Qed.

Lemma overall_score_weighted_round_witness :
  let score := _calculate_overall_score 0.25 0.5 0.5 0.5 0.5 in
  score == stated_overall_score 0.25 0.5 0.5 0.5 0.5
  ∧ (∃ thousandths : Z,
       (0 <= thousandths <= 1000)%Z
       ∧ score == to_double (inject_Z thousandths / 1000)
       ∧ Qabs (inject_Z thousandths / 1000
               - (0.35 * 0.25 + 0.25 * 0.5 + 0.20 * 0.5 + 0.15 * 0.5 + 0.05 * 0.5))
         <= (1 # 2000) + sum_tolerance)
  ∧ 0 <= score <= 1.
Proof.
  apply (overall_score_weighted_round 0.25 0.5 0.5 0.5 0.5); lra.
Defined.

(** The exact sum 0.4125 is a tie between 0.412 and 0.413; the float sum is
    just above it, and the score is the double of 0.413. *)
Example overall_score_example :
  _calculate_overall_score 0.8 0.5 1 0.4 0.2 == to_double 0.675
  ∧ _calculate_overall_score 0.25 0.5 0.5 0.5 0.5 == to_double 0.413
  ∧ 0.4125 < weighted_sum 0.25 0.5 0.5 0.5 0.5.
Proof. vm_compute. repeat split; reflexivity. Qed.

(** ** The experience match *)

Lemma band_lookup (level : string) (mn mx : Z) :
  In (level, (mn, mx)) experience_bands →
  level_to_years !! lower level = Some (mn, mx).
Proof.
  unfold experience_bands. simpl.
  intros [H|[H|[H|[H|[H|[H|[]]]]]]]; inversion H; subst; vm_compute; reflexivity.
Qed.

Lemma experience_match_unfold (job : JobDict) (profile : UserProfile) (y : Z) :
  up_experience_years profile = Some y → y ≠ 0%Z →
  _calculate_experience_match job (Some profile) =
  match level_to_years !! lower (or_empty (jd_experience_level job)) with
  | None => 0.5
  | Some (mn, mx) =>
      if ((mn <=? y) && (y <=? mx))%Z then 1
      else if (y <? mn)%Z then Qmax 0 (1 - inject_Z (mn - y) / 5)
      else Qmax 0.6 (1 - inject_Z (y - mx) / 10)
  end.
Proof.
  intros Hy Hne. unfold _calculate_experience_match. rewrite Hy. simpl.
  destruct (Z.eqb_spec y 0); [contradiction|]. reflexivity.
Qed.

Lemma experience_zero_is_neutral (job : JobDict) (profile : UserProfile) :
  up_experience_years profile = Some 0%Z →
  _calculate_experience_match job (Some profile) = 0.5.
Proof.
  intros Hy. unfold _calculate_experience_match. rewrite Hy. reflexivity.
Qed.

(** The bands, for a profile with at least one year of experience and a
    job whose level is one of the six: inside the inclusive band the score
    is 1; below the minimum by gap years it is max(0, 1 - gap/5); above the
    maximum by gap years it is max(0.6, 1 - gap/10).  A level outside the
    table scores 0.5.  Zero years scores 0.5 at every level.  Years 4, 1
    and 15 at mid_level give 1, 0.6 and 0.6. *)
Lemma experience_match_bands :
  (∀ (job : JobDict) (profile : UserProfile) (y : Z) (level : string) (mn mx : Z),
      up_experience_years profile = Some y → (1 <= y)%Z →
      jd_experience_level job = Some level →
      In (level, (mn, mx)) experience_bands →
      ((mn <= y <= mx)%Z → _calculate_experience_match job (Some profile) == 1)
      ∧ ((y < mn)%Z →
         _calculate_experience_match job (Some profile)
         == Qmax 0 (1 - inject_Z (mn - y) / 5))
      ∧ ((mx < y)%Z →
         _calculate_experience_match job (Some profile)
         == Qmax 0.6 (1 - inject_Z (y - mx) / 10)))
  ∧ (∀ (job : JobDict) (profile : UserProfile) (y : Z),
      up_experience_years profile = Some y → (1 <= y)%Z →
      lower (or_empty (jd_experience_level job)) ∉ experience_bands.*1 →
      _calculate_experience_match job (Some profile) == 0.5)
  ∧ (∀ (job : JobDict) (profile : UserProfile),
      up_experience_years profile = Some 0%Z →
      _calculate_experience_match job (Some profile) == 0.5)
  ∧ _calculate_experience_match (job_with_level (Some "mid_level"))
      (Some (profile_with_years (Some 4%Z))) == 1
  ∧ _calculate_experience_match (job_with_level (Some "mid_level"))
      (Some (profile_with_years (Some 1%Z))) == 0.6
  ∧ _calculate_experience_match (job_with_level (Some "mid_level"))
      (Some (profile_with_years (Some 15%Z))) == 0.6.
Proof.
  split; [|split; [|split; [|repeat split; reflexivity]]].
  - intros job profile y level mn mx Hy Hge Hl Hin.
    rewrite (experience_match_unfold job profile y Hy) by lia.
    rewrite Hl. simpl or_empty. rewrite (band_lookup level mn mx Hin).
    repeat split; intros Hc.
    + destruct (Z.leb_spec mn y); [|lia]. destruct (Z.leb_spec y mx); [|lia].
      reflexivity.
    + destruct (Z.leb_spec mn y); [lia|]. simpl.
      destruct (Z.ltb_spec y mn); [|lia]. reflexivity.
    + destruct (Z.leb_spec y mx); [lia|]. rewrite andb_false_r.
      destruct (Z.ltb_spec y mn).
      * exfalso.
        assert (Hb : (mn <= mx)%Z).
        { unfold experience_bands in Hin. simpl in Hin.
          destruct Hin as [H'|[H'|[H'|[H'|[H'|[H'|[]]]]]]]; inversion H'; lia. }
        lia.
      * reflexivity.
  - intros job profile y Hy Hge Hnot.
    rewrite (experience_match_unfold job profile y Hy) by lia.
    unfold level_to_years.
    rewrite (not_elem_of_list_to_map_1 _ _ Hnot). reflexivity.
  - intros job profile Hy. rewrite (experience_zero_is_neutral job profile Hy).
    reflexivity.
Qed.

(** C3, at the failing input.  A profile with experience_years = 0 never
    reaches the bands: the guard for a missing value is a truthiness test,
    which 0 fails, so the score is the neutral 0.5 at every level.  At
    entry_level, whose band (0,2) holds 0, the bands give 1; at
    senior_level, five years below the band, they give max(0, 1 - 5/5) = 0,
    and zero years scores above one year, which the bands score 0.2. *)
Theorem experience_match_zero_years :
  (∀ (job : JobDict) (profile : UserProfile),
      up_experience_years profile = Some 0%Z →
      _calculate_experience_match job (Some profile) == 0.5)
  ∧ In ("entry_level"%string, (0, 2)%Z) experience_bands
  ∧ _calculate_experience_match (job_with_level (Some "entry_level"))
      (Some (profile_with_years (Some 0%Z))) == 0.5
  ∧ _calculate_experience_match (job_with_level (Some "senior_level"))
      (Some (profile_with_years (Some 0%Z))) == 0.5
  ∧ _calculate_experience_match (job_with_level (Some "senior_level"))
      (Some (profile_with_years (Some 1%Z))) == 0.2
  ∧ _calculate_experience_match (job_with_level (Some "entry_level"))
      (Some (profile_with_years (Some 1%Z))) == 1.
Proof.
  split.
  - intros job profile Hy. rewrite (experience_zero_is_neutral job profile Hy).
    reflexivity.
  - split; [simpl; tauto|]. repeat split; reflexivity.
Qed.

(** ** The skills match *)

Lemma lower_set_app (l1 l2 : list string) :
  lower_set (l1 ++ l2) = lower_set l1 ∪ lower_set l2.
Proof.
  unfold lower_set. rewrite fmap_app. apply list_to_set_app_L.
Qed.

Lemma lower_set_nil : lower_set [] = ∅.
Proof. reflexivity. Qed.

Lemma job_skill_set_union (job_dict : JobDict) :
  job_skill_set job_dict = job_skills_union job_dict.
Proof.
  unfold job_skill_set, job_skills_union. rewrite lower_set_app.
  destruct (jd_skills_required job_dict) as [[|r rs]|],
           (jd_skills_preferred job_dict) as [[|p ps]|];
    simpl items_of; rewrite ?lower_set_nil;
    rewrite ?(left_id_L ∅ (∪)), ?(right_id_L ∅ (∪)); reflexivity.
Qed.

Lemma ratio_at_most_one (a b : nat) :
  (a <= b)%nat → (0 < b)%nat →
  inject_Z (Z.of_nat a) / inject_Z (Z.of_nat b) <= 1.
Proof.
  intros Hab Hb.
  assert (H0 : 0 < inject_Z (Z.of_nat b)).
  { change 0 with (inject_Z 0). rewrite <- Zlt_Qlt. lia. }
  apply Qle_shift_div_r; [exact H0|].
  rewrite Qmult_1_l. rewrite <- Zle_Qle. lia.
Qed.

Lemma skills_match_unfold (job : JobDict) (profile : UserProfile)
  (s : string) (skills : list string) :
  up_skills profile = Some (s :: skills) →
  _calculate_skills_match job (Some profile) ==
  if decide (job_skills_union job = ∅) then 0.5
  else inject_Z (Z.of_nat (size (lower_set (s :: skills) ∩ job_skills_union job)))
       / inject_Z (Z.of_nat (size (job_skills_union job))).
Proof.
  intros Hs. unfold _calculate_skills_match. rewrite Hs.
  rewrite job_skill_set_union.
  destruct (decide (job_skills_union job = ∅)) as [He|Hne]; [reflexivity|].
  assert (Hpos : (0 < size (job_skills_union job))%nat).
  { destruct (size (job_skills_union job)) eqn:E; [|lia].
    apply size_empty_iff in E. exfalso. apply Hne.
    apply leibniz_equiv. exact E. }
  destruct (Nat.eqb_spec (size (job_skills_union job)) 0); [lia|].
  apply Q.min_l. apply ratio_at_most_one; [|exact Hpos].
  apply subseteq_size. apply intersection_subseteq_r.
Qed.

(** C5. For a profile with a non-empty skills list the skills score is
    |user_skills ∩ job_skills| / |job_skills|, job_skills being the
    lower-cased union of the required and preferred skills; it is 0.5 when
    the job lists no skills or the profile has none.  Required
    ["Python","SQL"], preferred ["AWS"] against ["python","java"] gives
    1/3. *)
Theorem skills_match_ratio :
  (∀ (job : JobDict) (profile : UserProfile) (skills : list string),
      up_skills profile = Some skills → skills ≠ [] →
      (job_skills_union job ≠ ∅ →
       _calculate_skills_match job (Some profile)
       == inject_Z (Z.of_nat (size (lower_set skills ∩ job_skills_union job)))
          / inject_Z (Z.of_nat (size (job_skills_union job))))
      ∧ (job_skills_union job = ∅ →
         _calculate_skills_match job (Some profile) == 0.5))
  ∧ (∀ (job : JobDict) (profile : UserProfile),
      up_skills profile = None ∨ up_skills profile = Some [] →
      _calculate_skills_match job (Some profile) == 0.5)
  ∧ (∀ job : JobDict, _calculate_skills_match job None == 0.5)
  ∧ _calculate_skills_match
      (job_with_skills (Some ["Python"; "SQL"]) (Some ["AWS"]))
      (Some (profile_with_skills (Some ["python"; "java"]))) == 1 # 3.
Proof.
  split; [|split; [|split]].
  - intros job profile skills Hs Hne.
    destruct skills as [|s skills]; [contradiction|].
    rewrite (skills_match_unfold job profile s skills Hs).
    split; intros Hj; destruct (decide (job_skills_union job = ∅));
      try contradiction; reflexivity.
  - intros job profile [Hs|Hs]; unfold _calculate_skills_match; rewrite Hs;
      reflexivity.
  - intros job. reflexivity.
  - vm_compute. reflexivity.
Qed.

Lemma skills_match_ratio_witness :
  _calculate_skills_match
    (job_with_skills (Some ["Go"; "SQL"]) None)
    (Some (profile_with_skills (Some ["go"; "sql"; "rust"])))
  == inject_Z (Z.of_nat (size (lower_set ["go"; "sql"; "rust"]
                               ∩ job_skills_union (job_with_skills (Some ["Go"; "SQL"]) None))))
     / inject_Z (Z.of_nat (size (job_skills_union (job_with_skills (Some ["Go"; "SQL"]) None)))).
Proof.
  destruct skills_match_ratio as [Hratio _].
  apply (Hratio (job_with_skills (Some ["Go"; "SQL"]) None)
           (profile_with_skills (Some ["go"; "sql"; "rust"]))
           ["go"; "sql"; "rust"]).
  - reflexivity.
  - discriminate.
  - vm_compute. discriminate.
Defined.

(** ** The location match *)

Lemma py_in_empty (s : string) : py_in "" s = true.
Proof. destruct s; reflexivity. Qed.

Lemma location_loop_empty_location (user_loc : string) (rest : list string) :
  location_loop (user_loc :: rest) "" = true.
Proof.
  simpl. rewrite py_in_empty. rewrite orb_true_r. reflexivity.
Qed.

(** C10. When the profile lists at least one preferred location and the
    job's location is missing or empty, the location score is 1: the empty
    job location is a substring of the first preference.  This holds for an
    on-site job too, where no preference names a location. *)
Theorem location_match_empty_job_location
  (job : JobDict) (profile : UserProfile) (preferred : list string) :
  up_preferred_locations profile = Some preferred → preferred ≠ [] →
  jd_location job = None ∨ jd_location job = Some ""%string →
  _calculate_location_match job (Some profile) == 1.
Proof.
  intros Hp Hne Hloc. unfold _calculate_location_match. rewrite Hp.
  destruct preferred as [|p ps]; [contradiction|].
  assert (Hl : lower (or_empty (jd_location job)) = ""%string).
  { destruct Hloc as [H|H]; rewrite H; reflexivity. }
  rewrite Hl. rewrite fmap_cons. rewrite location_loop_empty_location.
  destruct (existsb (String.eqb "remote") (lower p :: (lower <$> ps))
            && existsb (String.eqb (lower (or_empty (jd_remote_type job))))
                 ["remote"; "hybrid"]%string); reflexivity.
Qed.

Lemma location_match_empty_job_location_witness :
  _calculate_location_match (job_at None (Some "on_site"%string))
    (Some (profile_with_locations (Some ["Paris"%string]))) == 1.
Proof.
  apply (location_match_empty_job_location
           (job_at None (Some "on_site"%string))
           (profile_with_locations (Some ["Paris"%string])) ["Paris"%string]).
  - reflexivity.
  - discriminate.
  - left. reflexivity.
Defined.

(** With a stated location that no preference matches, the same on-site job
    scores 0.2. *)
Example location_match_stated_location :
  _calculate_location_match (job_at (Some "Berlin"%string) (Some "on_site"%string))
    (Some (profile_with_locations (Some ["Paris"%string]))) == 0.2.
Proof. vm_compute. reflexivity. Qed.

(** ** The salary match *)

Lemma pymax_Qmax (a b : Q) : pymax a b == Qmax a b.
Proof.
  unfold pymax. destruct (Qltb a b) eqn:E.
  - apply Qltb_lt in E. symmetry. apply Q.max_r. lra.
  - apply Qltb_ge in E. symmetry. apply Q.max_l. exact E.
Qed.

Lemma pymin_Qmin (a b : Q) : pymin a b == Qmin a b.
Proof.
  unfold pymin. destruct (Qltb b a) eqn:E.
  - apply Qltb_lt in E. symmetry. apply Q.min_r. lra.
  - apply Qltb_ge in E. symmetry. apply Q.min_l. exact E.
Qed.

Lemma fmax_Fin (a b : Q) : fmax (Fin a) (Fin b) = Fin (pymax a b).
Proof. unfold fmax, pymax. simpl. destruct (Qltb a b); reflexivity. Qed.

Lemma fmin_Fin (a b : Q) : fmin (Fin a) (Fin b) = Fin (pymin a b).
Proof. unfold fmin, pymin. simpl. destruct (Qltb b a); reflexivity. Qed.

Lemma or_else_zero (x : option Q) : or_else x (Fin 0) = Fin (lower_bound x).
Proof.
  destruct x as [q|]; simpl; [|reflexivity]. destruct (Qeq_bool q 0); reflexivity.
Qed.

Lemma or_else_truthy (q : Q) (d : pyfloat) :
  ¬ q == 0 → or_else (Some q) d = Fin q.
Proof.
  intros H. simpl. destruct (Qeq_bool q 0) eqn:E; [|reflexivity].
  apply Qeq_bool_eq in E. contradiction.
Qed.

Lemma or_else_falsy (x : option Q) (d : pyfloat) :
  truthy x = false → or_else x d = d.
Proof.
  destruct x as [q|]; simpl; [|reflexivity].
  destruct (Qeq_bool q 0); [reflexivity|discriminate].
Qed.

Lemma truthy_Some (q : Q) : ¬ q == 0 → truthy (Some q) = true.
Proof.
  intros H. simpl. destruct (Qeq_bool q 0) eqn:E; [|reflexivity].
  apply Qeq_bool_eq in E. contradiction.
Qed.

Lemma Qeq_bool_false (q : Q) : ¬ q == 0 → Qeq_bool q 0 = false.
Proof.
  intros H. destruct (Qeq_bool q 0) eqn:E; [|reflexivity].
  apply Qeq_bool_eq in E. contradiction.
Qed.

(** Past the three guards: both the job and the user supply a bound. *)
Lemma salary_body_supplied (user_min user_max job_min job_max : option Q) :
  truthy job_min || truthy job_max = true →
  truthy user_min || truthy user_max = true →
  salary_body user_min user_max job_min job_max =
  let job_lo := Fin (lower_bound job_min) in
  let user_lo := Fin (lower_bound user_min) in
  let job_hi := or_else job_max PInf in
  let user_hi := or_else user_max PInf in
  let overlap_start := fmax job_lo user_lo in
  let overlap_end := fmin job_hi user_hi in
  if fle overlap_start overlap_end then
    if flt (Fin 0) (fsub job_hi job_lo) && flt (Fin 0) (fsub user_hi user_lo) then
      try! avg_range_size ←
        fdiv (fadd (fsub job_hi job_lo) (fsub user_hi user_lo)) (Fin 2);
      try! score ← fdiv (fsub overlap_end overlap_start) avg_range_size;
      Ok (fmin score (Fin 1))
    else Ok (Fin 1)
  else
    let known := filter_none [job_min; job_max; user_min; user_max] in
    try! avg_salary ←
      fdiv (Fin (Qsum known)) (Fin (inject_Z (Z.of_nat (length known))));
    if flt (Fin 0) avg_salary then
      try! gap_ratio ← fdiv (fsub overlap_start overlap_end) avg_salary;
      Ok (fmax (Fin 0) (fsub (Fin 1) gap_ratio))
    else Ok (Fin 0).
Proof.
  intros Hj Hu. unfold salary_body.
  assert (Hany : existsb truthy [user_min; user_max; job_min; job_max] = true).
  { simpl. destruct (truthy user_min), (truthy user_max); simpl in *;
      try reflexivity; discriminate. }
  rewrite Hany. simpl negb at 1. cbv iota.
  assert (Hj' : negb (truthy job_min) && negb (truthy job_max) = false).
  { destruct (truthy job_min), (truthy job_max); simpl in *;
      try reflexivity; discriminate. }
  assert (Hu' : negb (truthy user_min) && negb (truthy user_max) = false).
  { destruct (truthy user_min), (truthy user_max); simpl in *;
      try reflexivity; discriminate. }
  rewrite Hj', Hu'. rewrite !or_else_zero. reflexivity.
Qed.

Lemma fsub_Fin (a b : Q) : fsub (Fin a) (Fin b) = Fin (a - b).
Proof. reflexivity. Qed.

Lemma fadd_Fin (a b : Q) : fadd (Fin a) (Fin b) = Fin (a + b).
Proof. reflexivity. Qed.

Lemma flt_Fin (a b : Q) : flt (Fin a) (Fin b) = Qltb a b.
Proof. reflexivity. Qed.

Lemma fle_Fin (a b : Q) : fle (Fin a) (Fin b) = Qle_bool a b.
Proof. reflexivity. Qed.

Lemma fdiv_Fin (a b : Q) : ¬ b == 0 → fdiv (Fin a) (Fin b) = Ok (Fin (a / b)).
Proof. intros H. unfold fdiv. rewrite (Qeq_bool_false b H). reflexivity. Qed.

Lemma Qle_bool_false (a b : Q) : b < a → Qle_bool a b = false.
Proof.
  intros H. destruct (Qle_bool a b) eqn:E; [|reflexivity].
  apply Qle_bool_iff in E. lra.
Qed.

Lemma Qltb_true (a b : Q) : a < b → Qltb a b = true.
Proof. apply Qltb_lt. Qed.

Lemma Qltb_false (a b : Q) : ¬ a < b → Qltb a b = false.
Proof. intros H. apply Qltb_ge. lra. Qed.

Lemma sizes_not_both_positive (a b : Q) :
  ¬ (0 < a ∧ 0 < b) → Qltb 0 a && Qltb 0 b = false.
Proof.
  intros H. destruct (Qltb 0 a) eqn:Ea, (Qltb 0 b) eqn:Eb; try reflexivity.
  apply Qltb_lt in Ea. apply Qltb_lt in Eb. exfalso. apply H. split; assumption.
Qed.

Lemma known_average_divisor (job_min job_max user_min user_max : option Q) :
  0 < known_average job_min job_max user_min user_max →
  ¬ inject_Z (Z.of_nat (length (filter_none [job_min; job_max; user_min; user_max])))
    == 0.
Proof.
  unfold known_average. cbv zeta. intros Hpos Hz.
  rewrite Hz in Hpos. unfold Qdiv in Hpos.
  change (/ 0) with 0 in Hpos. lra.
Qed.

(** The penalty branch, shared by the cases with a finite overlap end. *)
Lemma salary_gap_branch (job_min job_max user_min user_max : option Q)
  (overlap_start overlap_end : Q) :
  0 < known_average job_min job_max user_min user_max →
  (try! avg_salary ←
     fdiv (Fin (Qsum (filter_none [job_min; job_max; user_min; user_max])))
       (Fin (inject_Z (Z.of_nat
          (length (filter_none [job_min; job_max; user_min; user_max])))));
   if flt (Fin 0) avg_salary then
     try! gap_ratio ← fdiv (Fin (overlap_start - overlap_end)) avg_salary;
     Ok (fmax (Fin 0) (fsub (Fin 1) gap_ratio))
   else Ok (Fin 0))
  = Ok (Fin (pymax 0 (1 - (overlap_start - overlap_end)
                          / known_average job_min job_max user_min user_max))).
Proof.
  intros Hpos.
  rewrite (fdiv_Fin _ _ (known_average_divisor _ _ _ _ Hpos)).
  unfold obind. fold (known_average job_min job_max user_min user_max).
  rewrite flt_Fin, (Qltb_true _ _ Hpos).
  rewrite fdiv_Fin by lra. rewrite fsub_Fin, fmax_Fin. reflexivity.
Qed.

Lemma half_sum_positive (a b : Q) : 0 < a → 0 < b → 0 < (a + b) / 2.
Proof.
  intros Ha Hb. apply Qlt_shift_div_l; lra.
Qed.

Section SalaryCases.
Variables (job : JobDict) (profile : UserProfile).

Local Abbreviation job_min := (jd_salary_min job).
Local Abbreviation job_max := (jd_salary_max job).
Local Abbreviation user_min := (up_desired_salary_min profile).
Local Abbreviation user_max := (up_desired_salary_max profile).
Local Abbreviation score := (_calculate_salary_match job (Some profile)).

Lemma salary_no_bounds :
  truthy job_min = false → truthy job_max = false →
  truthy user_min = false → truthy user_max = false →
  score = Fin 0.5.
Proof.
  intros H1 H2 H3 H4. unfold _calculate_salary_match, salary_body. simpl.
  rewrite H1, H2, H3, H4. reflexivity.
Qed.

Lemma salary_job_silent :
  truthy job_min = false → truthy job_max = false →
  truthy user_min || truthy user_max = true →
  score = Fin 0.4.
Proof.
  intros H1 H2 H3. unfold _calculate_salary_match, salary_body. simpl.
  rewrite H1, H2.
  destruct (truthy user_min), (truthy user_max); try discriminate; reflexivity.
Qed.

Lemma salary_user_silent :
  truthy job_min || truthy job_max = true →
  truthy user_min = false → truthy user_max = false →
  score = Fin 0.5.
Proof.
  intros H1 H2 H3. unfold _calculate_salary_match, salary_body. simpl.
  rewrite H2, H3.
  destruct (truthy job_min), (truthy job_max); try discriminate; reflexivity.
Qed.

(** Both upper bounds supplied: every quantity is finite. *)
Lemma salary_closed_ranges (job_hi user_hi : Q) :
  job_max = Some job_hi → ¬ job_hi == 0 →
  user_max = Some user_hi → ¬ user_hi == 0 →
  let job_lo := lower_bound job_min in
  let user_lo := lower_bound user_min in
  let overlap_start := pymax job_lo user_lo in
  let overlap_end := pymin job_hi user_hi in
  (overlap_start <= overlap_end → 0 < job_hi - job_lo → 0 < user_hi - user_lo →
   score = Fin (pymin ((overlap_end - overlap_start)
                       / ((job_hi - job_lo + (user_hi - user_lo)) / 2)) 1))
  ∧ (overlap_start <= overlap_end →
     ¬ (0 < job_hi - job_lo ∧ 0 < user_hi - user_lo) → score = Fin 1)
  ∧ (overlap_end < overlap_start →
     0 < known_average job_min job_max user_min user_max →
     score = Fin (pymax 0 (1 - (overlap_start - overlap_end)
                              / known_average job_min job_max user_min user_max))).
Proof.
  intros Hj Hjz Hu Huz job_lo user_lo overlap_start overlap_end.
  unfold _calculate_salary_match.
  rewrite salary_body_supplied;
    [| rewrite Hj, (truthy_Some _ Hjz); apply orb_true_r
     | rewrite Hu, (truthy_Some _ Huz); apply orb_true_r ].
  cbv zeta. rewrite Hj, Hu, (or_else_truthy _ _ Hjz), (or_else_truthy _ _ Huz).
  rewrite fmax_Fin, fmin_Fin, fle_Fin, !fsub_Fin, !flt_Fin.
  fold job_lo user_lo. fold overlap_start overlap_end.
  repeat split.
  - intros Hov Hjs Hus.
    rewrite (proj2 (Qle_bool_iff _ _) Hov).
    rewrite (Qltb_true _ _ Hjs), (Qltb_true _ _ Hus). simpl andb. cbv iota.
    rewrite fadd_Fin. rewrite fdiv_Fin by (intros H; discriminate H).
    unfold obind at 1.
    pose proof (half_sum_positive _ _ Hjs Hus) as Havg.
    rewrite fdiv_Fin by lra.
    unfold obind, except. rewrite fmin_Fin. reflexivity.
  - intros Hov Hnot.
    rewrite (proj2 (Qle_bool_iff _ _) Hov).
    rewrite (sizes_not_both_positive _ _ Hnot). reflexivity.
  - intros Hgap Hpos.
    rewrite (Qle_bool_false _ _ Hgap).
    rewrite (salary_gap_branch job_min (Some job_hi) user_min (Some user_hi)
               overlap_start overlap_end Hpos).
    reflexivity.
Qed.

(** The job names no upper bound: its range reaches to infinity. *)
Lemma salary_open_job_range (user_hi : Q) :
  truthy job_min = true → truthy job_max = false →
  user_max = Some user_hi → ¬ user_hi == 0 →
  let job_lo := lower_bound job_min in
  let user_lo := lower_bound user_min in
  let overlap_start := pymax job_lo user_lo in
  (overlap_start <= user_hi → 0 < user_hi - user_lo → score = Fin 0)
  ∧ (overlap_start <= user_hi → ¬ 0 < user_hi - user_lo → score = Fin 1)
  ∧ (user_hi < overlap_start →
     0 < known_average job_min job_max user_min user_max →
     score = Fin (pymax 0 (1 - (overlap_start - user_hi)
                              / known_average job_min job_max user_min user_max))).
Proof.
  intros Hj Hjm Hu Huz job_lo user_lo overlap_start.
  unfold _calculate_salary_match.
  rewrite salary_body_supplied;
    [| rewrite Hj; reflexivity
     | rewrite Hu, (truthy_Some _ Huz); apply orb_true_r ].
  cbv zeta. rewrite (or_else_falsy _ _ Hjm).
  rewrite Hu, (or_else_truthy _ _ Huz).
  rewrite fmax_Fin. fold job_lo user_lo. fold overlap_start.
  change (fmin PInf (Fin user_hi)) with (Fin user_hi).
  change (fsub PInf (Fin job_lo)) with PInf.
  change (flt (Fin 0) PInf) with true.
  rewrite fle_Fin, !fsub_Fin, flt_Fin.
  repeat split.
  - intros Hov Hus.
    rewrite (proj2 (Qle_bool_iff _ _) Hov), (Qltb_true _ _ Hus). reflexivity.
  - intros Hov Hus.
    rewrite (proj2 (Qle_bool_iff _ _) Hov), (Qltb_false _ _ Hus). reflexivity.
  - intros Hgap Hpos.
    rewrite (Qle_bool_false _ _ Hgap).
    rewrite (salary_gap_branch job_min job_max user_min (Some user_hi)
               overlap_start user_hi Hpos).
    reflexivity.
Qed.

(** The user names no upper bound. *)
Lemma salary_open_user_range (job_hi : Q) :
  job_max = Some job_hi → ¬ job_hi == 0 →
  truthy user_min = true → truthy user_max = false →
  let job_lo := lower_bound job_min in
  let user_lo := lower_bound user_min in
  let overlap_start := pymax job_lo user_lo in
  (overlap_start <= job_hi → 0 < job_hi - job_lo → score = Fin 0)
  ∧ (overlap_start <= job_hi → ¬ 0 < job_hi - job_lo → score = Fin 1)
  ∧ (job_hi < overlap_start →
     0 < known_average job_min job_max user_min user_max →
     score = Fin (pymax 0 (1 - (overlap_start - job_hi)
                              / known_average job_min job_max user_min user_max))).
Proof.
  intros Hj Hjz Hu Hum job_lo user_lo overlap_start.
  unfold _calculate_salary_match.
  rewrite salary_body_supplied;
    [| rewrite Hj, (truthy_Some _ Hjz); apply orb_true_r
     | rewrite Hu; reflexivity ].
  cbv zeta. rewrite (or_else_falsy _ _ Hum).
  rewrite Hj, (or_else_truthy _ _ Hjz).
  rewrite fmax_Fin. fold job_lo user_lo. fold overlap_start.
  change (fmin (Fin job_hi) PInf) with (Fin job_hi).
  change (fsub PInf (Fin user_lo)) with PInf.
  change (flt (Fin 0) PInf) with true.
  rewrite fle_Fin, !fsub_Fin, flt_Fin.
  repeat split.
  - intros Hov Hjs.
    rewrite (proj2 (Qle_bool_iff _ _) Hov), (Qltb_true _ _ Hjs). reflexivity.
  - intros Hov Hjs.
    rewrite (proj2 (Qle_bool_iff _ _) Hov), (Qltb_false _ _ Hjs). reflexivity.
  - intros Hgap Hpos.
    rewrite (Qle_bool_false _ _ Hgap).
    rewrite (salary_gap_branch job_min (Some job_hi) user_min user_max
               overlap_start job_hi Hpos).
    reflexivity.
Qed.

(** Neither side names an upper bound: the overlap and both range sizes are
    infinite, and their quotient is not a number. *)
Lemma salary_open_ranges_nan :
  truthy job_min = true → truthy job_max = false →
  truthy user_min = true → truthy user_max = false →
  score = NaN.
Proof.
  intros Hj Hjm Hu Hum. unfold _calculate_salary_match.
  rewrite salary_body_supplied; [| rewrite Hj; reflexivity | rewrite Hu; reflexivity].
  cbv zeta. rewrite (or_else_falsy _ _ Hjm), (or_else_falsy _ _ Hum).
  rewrite fmax_Fin. reflexivity.
Qed.

End SalaryCases.

(** C4, as the code has it.  A bound is supplied when it is present and not
    zero; an absent lower bound reads as 0 and an absent upper bound as
    +infinity.
    - No bound on either side: 0.5.  The job supplies none and the user
      some: 0.4.  The job supplies some and the user none: 0.5.
    - Both upper bounds supplied and the intervals overlap: when both ranges
      have a positive length the score is overlap / average of the two
      lengths, capped at 1; when one of them is a single point the score
      is 1.
    - Exactly one upper bound supplied and the intervals overlap: the
      average length is infinite and the score is 0, or 1 when the closed
      range is a single point.
    - No overlap: max(0, 1 - gap / average of the supplied bounds), for a
      positive average.
    - Job [100000,150000] against user [120000,200000] scores
      30000/65000 = 6/13. *)
Theorem salary_match_cases :
  (∀ (job : JobDict) (profile : UserProfile),
      let job_min := jd_salary_min job in
      let job_max := jd_salary_max job in
      let user_min := up_desired_salary_min profile in
      let user_max := up_desired_salary_max profile in
      let score := _calculate_salary_match job (Some profile) in
      let job_lo := lower_bound job_min in
      let user_lo := lower_bound user_min in
      let overlap_start := pymax job_lo user_lo in
      let average := known_average job_min job_max user_min user_max in
      (truthy job_min = false → truthy job_max = false →
       truthy user_min = false → truthy user_max = false → score = Fin 0.5)
      ∧ (truthy job_min = false → truthy job_max = false →
         truthy user_min || truthy user_max = true → score = Fin 0.4)
      ∧ (truthy job_min || truthy job_max = true →
         truthy user_min = false → truthy user_max = false → score = Fin 0.5)
      ∧ (∀ job_hi user_hi : Q,
           job_max = Some job_hi → ¬ job_hi == 0 →
           user_max = Some user_hi → ¬ user_hi == 0 →
           let overlap_end := pymin job_hi user_hi in
           (overlap_start <= overlap_end →
            0 < job_hi - job_lo → 0 < user_hi - user_lo →
            score = Fin (pymin ((overlap_end - overlap_start)
                                / ((job_hi - job_lo + (user_hi - user_lo)) / 2)) 1))
           ∧ (overlap_start <= overlap_end →
              ¬ (0 < job_hi - job_lo ∧ 0 < user_hi - user_lo) → score = Fin 1)
           ∧ (overlap_end < overlap_start → 0 < average →
              score = Fin (pymax 0 (1 - (overlap_start - overlap_end) / average))))
      ∧ (∀ user_hi : Q,
           truthy job_min = true → truthy job_max = false →
           user_max = Some user_hi → ¬ user_hi == 0 →
           (overlap_start <= user_hi → 0 < user_hi - user_lo → score = Fin 0)
           ∧ (overlap_start <= user_hi → ¬ 0 < user_hi - user_lo → score = Fin 1)
           ∧ (user_hi < overlap_start → 0 < average →
              score = Fin (pymax 0 (1 - (overlap_start - user_hi) / average))))
      ∧ (∀ job_hi : Q,
           job_max = Some job_hi → ¬ job_hi == 0 →
           truthy user_min = true → truthy user_max = false →
           (overlap_start <= job_hi → 0 < job_hi - job_lo → score = Fin 0)
           ∧ (overlap_start <= job_hi → ¬ 0 < job_hi - job_lo → score = Fin 1)
           ∧ (job_hi < overlap_start → 0 < average →
              score = Fin (pymax 0 (1 - (overlap_start - job_hi) / average)))))
  ∧ (∀ job : JobDict, _calculate_salary_match job None = Fin 0.5)
  ∧ feq (_calculate_salary_match
           (job_with_salary (Some 100000) (Some 150000))
           (Some (profile_with_salary (Some 120000) (Some 200000))))
        (Fin (30000 / 65000)).
Proof.
  split; [|split].
  - intros job profile. cbv zeta.
    split; [apply salary_no_bounds|].
    split; [apply salary_job_silent|].
    split; [apply salary_user_silent|].
    split; [intros job_hi user_hi; apply salary_closed_ranges|].
    split; [intros user_hi; apply salary_open_job_range|].
    intros job_hi; apply salary_open_user_range.
  - intros job. reflexivity.
  - vm_compute. reflexivity.
Qed.

Lemma salary_match_cases_witness :
  _calculate_salary_match
    (job_with_salary (Some 90000) (Some 110000))
    (Some (profile_with_salary (Some 100000) (Some 140000)))
  = Fin (pymin ((pymin 110000 140000 - pymax 90000 100000)
                / ((110000 - 90000 + (140000 - 100000)) / 2)) 1).
Proof.
  destruct salary_match_cases as [Hcases _].
  destruct (Hcases (job_with_salary (Some 90000) (Some 110000))
              (profile_with_salary (Some 100000) (Some 140000)))
    as (_ & _ & _ & Hclosed & _).
  destruct (Hclosed 110000 140000) as [Hoverlap _].
  - reflexivity.
  - intros H; discriminate H.
  - reflexivity.
  - intros H; discriminate H.
  - apply Hoverlap.
    + vm_compute. discriminate.
    + reflexivity.
    + reflexivity.
Defined.

(** The claim as stated fails when the intervals overlap and exactly one of
    them is a single point: job [100,100] lies inside user [50,150], the
    overlap has length 0 and the average length is 50, so the stated ratio
    is 0, yet the score is 1. *)
Lemma salary_match_point_range_counterexample :
  ¬ (∀ (job : JobDict) (profile : UserProfile) (job_lo job_hi user_lo user_hi : Q),
      jd_salary_min job = Some job_lo → jd_salary_max job = Some job_hi →
      up_desired_salary_min profile = Some user_lo →
      up_desired_salary_max profile = Some user_hi →
      Qmax job_lo user_lo <= Qmin job_hi user_hi →
      ¬ (job_lo == job_hi ∧ user_lo == user_hi) →
      feq (_calculate_salary_match job (Some profile))
          (Fin (Qmin ((Qmin job_hi user_hi - Qmax job_lo user_lo)
                      / ((job_hi - job_lo + (user_hi - user_lo)) / 2)) 1))).
Proof.
  intros H.
  specialize (H (job_with_salary (Some 100) (Some 100))
                (profile_with_salary (Some 50) (Some 150)) 100 100 50 150).
  assert (Hs : feq (_calculate_salary_match
                      (job_with_salary (Some 100) (Some 100))
                      (Some (profile_with_salary (Some 50) (Some 150))))
                   (Fin (Qmin ((Qmin 100 150 - Qmax 100 50)
                               / ((100 - 100 + (150 - 50)) / 2)) 1))).
  { apply H; try reflexivity.
    - vm_compute. discriminate.
    - intros [_ Hu]. vm_compute in Hu. discriminate Hu. }
  vm_compute in Hs. discriminate Hs.
Qed.

(** ** Ranking *)

Section RankingFacts.
Context {A : Type} (key : A → Q).

(** [earlier a b]: [a] stood before [b] in the list that was sorted. *)
Context (earlier : A → A → Prop).

Local Abbreviation ranked := (ranked_before key earlier).

Lemma insert_desc_perm (x : A) (l : list A) :
  Permutation (insert_desc key x l) (x :: l).
Proof.
  induction l as [|y l IH]; simpl; [reflexivity|].
  destruct (Qltb (key x) (key y)); [|reflexivity].
  rewrite IH. apply perm_swap.
Qed.

Lemma sort_desc_perm (l : list A) : Permutation (sort_desc key l) l.
Proof.
  induction l as [|x l IH]; simpl; [reflexivity|].
  rewrite insert_desc_perm. apply perm_skip. exact IH.
Qed.

Lemma sort_desc_length (l : list A) : length (sort_desc key l) = length l.
Proof. apply Permutation_length. apply sort_desc_perm. Qed.

Lemma ranked_before_key (a b : A) : ranked a b → key b <= key a.
Proof. intros [H|[H _]]; lra. Qed.

Lemma insert_desc_ranked (x : A) (l : list A) :
  StronglySorted ranked l →
  Forall (earlier x) l →
  StronglySorted ranked (insert_desc key x l).
Proof.
  induction l as [|y l IH]; intros Hs He; simpl.
  - constructor; constructor.
  - inversion Hs as [|? ? Hs' Hy]; subst.
    inversion He as [|? ? Hey He']; subst.
    destruct (Qltb (key x) (key y)) eqn:E.
    + apply Qltb_lt in E. constructor; [apply IH; assumption|].
      apply (Permutation_Forall (Permutation_sym (insert_desc_perm x l))).
      constructor; [left; exact E|exact Hy].
    + apply Qltb_ge in E. constructor; [exact Hs|].
      constructor.
      * destruct (Qlt_le_dec (key y) (key x)) as [Hlt|Hle]; [left; exact Hlt|].
        right. split; [lra|exact Hey].
      * rewrite Forall_forall in Hy, He'. apply Forall_forall. intros z Hz.
        pose proof (ranked_before_key _ _ (Hy z Hz)) as Hzy.
        destruct (Qlt_le_dec (key z) (key x)) as [Hlt|Hle]; [left; exact Hlt|].
        right. split; [lra|]. apply He'. exact Hz.
Qed.

(** Stability: if the input lists its items in the [earlier] order, the
    sorted list is ordered by descending key, ties in the [earlier] order. *)
Lemma sort_desc_stable (l : list A) :
  StronglySorted earlier l → StronglySorted ranked (sort_desc key l).
Proof.
  induction l as [|x l IH]; intros Hs; simpl; [constructor|].
  inversion Hs as [|? ? Hs' Hx]; subst.
  apply insert_desc_ranked; [apply IH; exact Hs'|].
  apply (Permutation_Forall (Permutation_sym (sort_desc_perm l))). exact Hx.
Qed.

End RankingFacts.

Lemma StronglySorted_weaken {A : Type} (R1 R2 : A → A → Prop) (l : list A) :
  (∀ a b, R1 a b → R2 a b) → StronglySorted R1 l → StronglySorted R2 l.
Proof.
  intros Himp Hs. induction Hs as [|a l Hs IH Ha]; constructor; [exact IH|].
  rewrite Forall_forall in *. intros b Hb. apply Himp. apply Ha. exact Hb.
Qed.

Lemma StronglySorted_always {A : Type} (l : list A) :
  StronglySorted (fun _ _ => True) l.
Proof.
  induction l; constructor; [assumption|]. apply Forall_forall. intros; exact I.
Qed.

(** Descending keys, whatever the input order. *)
Lemma sort_desc_descending {A : Type} (key : A → Q) (l : list A) :
  StronglySorted (fun a b => key b <= key a) (sort_desc key l).
Proof.
  apply (StronglySorted_weaken (ranked_before key (fun _ _ => True))).
  - intros a b. apply ranked_before_key.
  - apply sort_desc_stable. apply StronglySorted_always.
Qed.

Lemma In_firstn {A : Type} (n : nat) (l : list A) (x : A) :
  In x (firstn n l) → In x l.
Proof.
  intros H. rewrite <- (firstn_skipn n l). apply in_or_app. left. exact H.
Qed.

Lemma StronglySorted_firstn {A : Type} (R : A → A → Prop) (n : nat) (l : list A) :
  StronglySorted R l → StronglySorted R (firstn n l).
Proof.
  intros Hs. revert n. induction Hs as [|a l Hs IH Ha]; intros n.
  - rewrite firstn_nil. constructor.
  - destruct n; simpl; constructor; [apply IH|].
    rewrite List.Forall_forall in *. intros b Hb. apply Ha.
    exact (In_firstn _ _ _ Hb).
Qed.

Lemma In_py_slice_to {A : Type} (k : Z) (l : list A) (x : A) :
  In x (py_slice_to k l) → In x l.
Proof.
  unfold py_slice_to. destruct (0 <=? k)%Z; apply In_firstn.
Qed.

Lemma StronglySorted_py_slice_to {A : Type} (R : A → A → Prop) (k : Z) (l : list A) :
  StronglySorted R l → StronglySorted R (py_slice_to k l).
Proof.
  intros Hs. unfold py_slice_to. destruct (0 <=? k)%Z; apply StronglySorted_firstn, Hs.
Qed.

Lemma py_slice_to_length {A : Type} (k : Z) (l : list A) :
  (0 <= k)%Z → (Z.of_nat (length (py_slice_to k l)) <= k)%Z.
Proof.
  intros Hk. unfold py_slice_to. destruct (Z.leb_spec 0 k); [|lia].
  rewrite length_firstn. lia.
Qed.

Lemma py_slice_to_all {A : Type} (k : Z) (l : list A) :
  (Z.of_nat (length l) <= k)%Z → py_slice_to k l = l.
Proof.
  intros Hk. unfold py_slice_to. destruct (Z.leb_spec 0 k); [|lia].
  apply firstn_all2. lia.
Qed.

(** ** The most similar candidates *)

Section MostSimilarFacts.
Context {vec row : Type}.
Context (reshape : vec → outcome row).
Context (cosine_similarity : row → row → outcome Q).

Lemma similarities_from_indices (i : nat) (query_emb : row)
  (candidates : list (option vec)) (sims : list (nat * Q)) :
  similarities_from reshape cosine_similarity i query_emb candidates = Ok sims →
  map fst sims = seq i (length candidates).
Proof.
  revert i sims. induction candidates as [|c rest IH]; intros i sims H; simpl in H.
  - inversion H. reflexivity.
  - destruct (match c with
              | Some candidate =>
                  try! cand_emb ← reshape candidate;
                  cosine_similarity query_emb cand_emb
              | None => Ok 0
              end) as [s|]; simpl in H; [|discriminate].
    destruct (similarities_from reshape cosine_similarity (S i) query_emb rest)
      as [tl|] eqn:E; simpl in H; [|discriminate].
    inversion H; subst. simpl. f_equal. apply IH. exact E.
Qed.

Lemma similarities_from_scores (i : nat) (query_emb : row)
  (candidates : list (option vec)) (sims : list (nat * Q)) :
  similarities_from reshape cosine_similarity i query_emb candidates = Ok sims →
  Forall2 (fun c p => candidate_score reshape cosine_similarity query_emb c (snd p)) candidates sims.
Proof.
  revert i sims. induction candidates as [|c rest IH]; intros i sims H; simpl in H.
  - inversion H. constructor.
  - destruct (match c with
              | Some candidate =>
                  try! cand_emb ← reshape candidate;
                  cosine_similarity query_emb cand_emb
              | None => Ok 0
              end) as [s|] eqn:Es; simpl in H; [|discriminate].
    destruct (similarities_from reshape cosine_similarity (S i) query_emb rest)
      as [tl|] eqn:E; simpl in H; [|discriminate].
    inversion H; subst. constructor; [|apply (IH (S i)); exact E].
    simpl. destruct c as [v|]; simpl.
    + destruct (reshape v) as [r|] eqn:Er; simpl in Es; [|discriminate].
      exists r. split; [reflexivity|exact Es].
    + inversion Es. reflexivity.
Qed.

Lemma seq_index_order (sims : list (nat * Q)) (i n : nat) :
  map fst sims = seq i n → StronglySorted index_order sims.
Proof.
  revert i n. induction sims as [|p sims IH]; intros i n H; [constructor|].
  destruct n as [|n]; [discriminate|]. simpl in H. inversion H as [[Hp Hrest]].
  constructor; [apply (IH (S (fst p)) n); exact Hrest|].
  apply List.Forall_forall. intros q Hq. unfold index_order.
  assert (Hin : In (fst q) (seq (S (fst p)) n)).
  { rewrite <- Hrest. apply in_map. exact Hq. }
  apply in_seq in Hin. lia.
Qed.

Lemma similarities_from_raises (i : nat) (query_emb : row)
  (candidates : list (option vec)) (c : option vec) :
  In c candidates →
  candidate_raises reshape cosine_similarity query_emb c →
  similarities_from reshape cosine_similarity i query_emb candidates = Raised.
Proof.
  revert i. induction candidates as [|c' rest IH]; intros i Hin Hr; [contradiction|].
  simpl. destruct Hin as [Heq|Hin].
  - subst c'. destruct c as [v|]; [|contradiction]. simpl in Hr.
    destruct Hr as [Hr|[r [Hv Hr]]].
    + rewrite Hr. reflexivity.
    + rewrite Hv. simpl. rewrite Hr. reflexivity.
  - rewrite (IH (S i) Hin Hr).
    destruct (match c' with
              | Some candidate =>
                  try! cand_emb ← reshape candidate;
                  cosine_similarity query_emb cand_emb
              | None => Ok 0
              end); reflexivity.
Qed.

Lemma similarities_from_defined (i : nat) (query_emb : row)
  (candidates : list (option vec)) :
  (∀ c, In c candidates → ¬ candidate_raises reshape cosine_similarity query_emb c) →
  ∃ sims, similarities_from reshape cosine_similarity i query_emb candidates = Ok sims.
Proof.
  revert i. induction candidates as [|c rest IH]; intros i Hno;
    [eexists; reflexivity|].
  simpl. destruct (IH (S i)) as [tl Htl].
  { intros c' Hc'. apply Hno. right. exact Hc'. }
  rewrite Htl.
  assert (Hc : ¬ candidate_raises reshape cosine_similarity query_emb c)
    by (apply Hno; left; reflexivity).
  destruct c as [v|]; [|eexists; reflexivity]. simpl in Hc.
  destruct (reshape v) as [r|] eqn:Ev; [|exfalso; apply Hc; left; reflexivity].
  simpl. destruct (cosine_similarity query_emb r) as [s|] eqn:Es.
  - eexists. reflexivity.
  - exfalso. apply Hc. right. exists r. split; [reflexivity|exact Es].
Qed.

(** C8, as the code has it.  The result is ordered by descending score,
    equal scores by ascending original index.  If the query cannot be
    reshaped, or the loop raises at some candidate, the result is the empty
    list, whatever the other candidates are.  Otherwise it is the first
    [top_k] items of the stably sorted list of pairs, one pair per candidate
    in index order, a missing candidate vector giving the pair
    (its index, 0); when [top_k] covers all candidates every pair is
    returned. *)
Theorem find_most_similar_ranking
  (query_embedding : vec) (candidates : list (option vec)) (top_k : Z) :
  let result :=
    find_most_similar reshape cosine_similarity query_embedding candidates top_k in
  StronglySorted (ranked_before snd index_order) result
  ∧ (reshape query_embedding = Raised → result = [])
  ∧ (∀ (query_emb : row) (c : option vec),
        reshape query_embedding = Ok query_emb →
        In c candidates →
        candidate_raises reshape cosine_similarity query_emb c →
        result = [])
  ∧ (∀ query_emb : row,
        reshape query_embedding = Ok query_emb →
        (∀ c, In c candidates →
              ¬ candidate_raises reshape cosine_similarity query_emb c) →
        ∃ sims : list (nat * Q),
          similarities_from reshape cosine_similarity 0 query_emb candidates = Ok sims
          ∧ result = py_slice_to top_k (sort_desc snd sims)
          ∧ map fst sims = seq 0 (length candidates)
          ∧ Forall2
              (fun c p =>
                 candidate_score reshape cosine_similarity query_emb c (snd p))
              candidates sims
          ∧ ((Z.of_nat (length candidates) <= top_k)%Z → Permutation result sims))
  ∧ ((0 <= top_k)%Z → (Z.of_nat (length result) <= top_k)%Z).
Proof.
  cbv zeta. unfold find_most_similar, most_similar_body.
  destruct candidates as [|c rest] eqn:Ec.
  { split; [constructor|]. split; [reflexivity|]. split; [reflexivity|].
    split; [|simpl; lia].
    intros query_emb Hq _. exists []. split; [reflexivity|].
    repeat split; try reflexivity; try constructor.
    unfold py_slice_to. simpl.
    destruct (0 <=? top_k)%Z; rewrite ?firstn_nil; reflexivity. }
  rewrite <- Ec. clear Ec c rest.
  destruct (reshape query_embedding) as [q|] eqn:Eq; simpl.
  2:{ split; [constructor|]. split; [reflexivity|].
      split; [intros ? ? H; discriminate H|].
      split; [intros ? H; discriminate H|lia]. }
  destruct (similarities_from reshape cosine_similarity 0 q candidates)
    as [sims|] eqn:Es; simpl.
  2:{ split; [constructor|]. split; [reflexivity|]. split; [reflexivity|].
      split; [|lia].
      intros query_emb Hq Hno. inversion Hq; subst query_emb.
      destruct (similarities_from_defined 0 q candidates Hno) as [sims Hs].
      rewrite Hs in Es. discriminate Es. }
  pose proof (similarities_from_indices _ _ _ _ Es) as Hidx.
  split; [|split; [|split; [|split]]].
  - apply StronglySorted_py_slice_to. apply sort_desc_stable.
    apply (seq_index_order _ _ _ Hidx).
  - discriminate.
  - intros query_emb c Hq Hin Hr. inversion Hq; subst query_emb.
    rewrite (similarities_from_raises 0 q candidates c Hin Hr) in Es.
    discriminate Es.
  - intros query_emb Hq _. inversion Hq; subst query_emb.
    exists sims. split; [exact Es|]. split; [reflexivity|].
    split; [exact Hidx|].
    split; [apply (similarities_from_scores _ _ _ _ Es)|].
    intros Hk. rewrite py_slice_to_all.
    + apply sort_desc_perm.
    + rewrite sort_desc_length.
      rewrite <- (length_map fst), Hidx, length_seq. exact Hk.
  - apply py_slice_to_length.
Qed.

End MostSimilarFacts.

Lemma find_most_similar_ranking_witness :
  ∃ sims : list (nat * Q),
    similarities_from Ok product_score 0 1 [Some 0.2; None; Some 0.9; Some 0.2]
    = Ok sims
    ∧ find_most_similar Ok product_score 1 [Some 0.2; None; Some 0.9; Some 0.2] 3
      = py_slice_to 3 (sort_desc snd sims)
    ∧ map fst sims = seq 0 (length [Some 0.2; None; Some 0.9; Some 0.2])
    ∧ Forall2 (fun c p => candidate_score Ok product_score 1 c (snd p))
        [Some 0.2; None; Some 0.9; Some 0.2] sims
    ∧ ((Z.of_nat (length [Some 0.2; None; Some 0.9; Some 0.2]%Q) <= 3)%Z →
       Permutation
         (find_most_similar Ok product_score 1 [Some 0.2; None; Some 0.9; Some 0.2] 3)
         sims).
Proof.
  destruct (find_most_similar_ranking Ok product_score 1
              [Some 0.2; None; Some 0.9; Some 0.2] 3) as (_ & _ & _ & Hok & _).
  apply (Hok 1); [reflexivity|].
  intros c Hin Hr. simpl in Hin.
  destruct Hin as [<-|[<-|[<-|[<-|[]]]]]; simpl in Hr;
    try contradiction; destruct Hr as [Hr|[r [_ Hr]]]; discriminate Hr.
Defined.

(** The pair of the missing vector keeps its index, and equal scores keep
    their index order. *)
Example find_most_similar_example :
  map fst (find_most_similar Ok product_score 1
             [Some 0.2; None; Some 0.9; Some 0.2] 4)
  = [2; 0; 3; 1]%nat.
Proof. vm_compute. reflexivity. Qed.

(** The claim as stated fails when a later candidate cannot be compared
    with the query: the call returns the empty list, so the missing vector
    at index 0 contributes no pair. *)
Lemma find_most_similar_error_counterexample :
  find_most_similar Ok checked_score [1] [None; Some [1; 2]] 3 = []
  ∧ ¬ In (0%nat, 0) (find_most_similar Ok checked_score [1] [None; Some [1; 2]] 3).
Proof.
  split; [reflexivity|]. intros H. exact H.
Qed.

(** ** Similar jobs *)

Section EngineFacts.
Context {vec SearchFilters : Type}.
Context (embed_text : string → outcome vec).
Context (embedding_similarity : vec → vec → Q).
Context (_get_filtered_jobs : option SearchFilters → list JobListingDB).
Context (get_job : string → option JobListingDB).

Lemma similar_jobs_of_only (ref_job : JobListingDB) (reference_id : string)
  (ref_embedding : vec) (all_jobs : list JobListingDB) :
  Forall (similar_only reference_id)
    (similar_jobs_of embed_text embedding_similarity ref_job reference_id
       ref_embedding all_jobs).
Proof.
  induction all_jobs as [|job rest IH]; simpl; [constructor|].
  destruct (String.eqb_spec (id job) reference_id) as [Heq|Hne]; [exact IH|].
  destruct (embed_job_description embed_text (similar_job_dict job)) as [e|];
    [|exact IH].
  destruct (Qltb 0.3 (embedding_similarity ref_embedding e)) eqn:E; [|exact IH].
  constructor; [|exact IH].
  apply Qltb_lt in E. unfold similar_only. simpl.
  repeat split; try reflexivity; assumption.
Qed.

(** C6. Every match returned by [find_similar_jobs] has an id other than
    the reference id and a semantic score above 0.30, its four
    profile-dependent sub-scores are 0 and its overall score is its semantic
    score; the list is in descending order of semantic score; it is the
    [[:limit]] slice of the sorted list of all such matches, so it has at
    most [limit] items for a non-negative limit; an unknown reference id
    gives the empty list. *)
Theorem find_similar_jobs_properties (reference_id : string) (limit : Z) :
  let result :=
    find_similar_jobs embed_text embedding_similarity _get_filtered_jobs get_job
      reference_id limit in
  Forall (similar_only reference_id) result
  ∧ StronglySorted (fun a b => semantic_score b <= semantic_score a) result
  ∧ (∀ (ref_job : JobListingDB) (ref_embedding : vec),
        get_job reference_id = Some ref_job →
        embed_job_description embed_text (similar_job_dict ref_job) = Ok ref_embedding →
        result = py_slice_to limit
                   (sort_desc semantic_score
                      (similar_jobs_of embed_text embedding_similarity ref_job
                         reference_id ref_embedding (_get_filtered_jobs None))))
  ∧ ((0 <= limit)%Z → (Z.of_nat (length result) <= limit)%Z)
  ∧ (get_job reference_id = None → result = []).
Proof.
  cbv zeta. unfold find_similar_jobs, similar_body.
  destruct (get_job reference_id) as [ref_job|] eqn:Eg; simpl.
  2:{ repeat split; try constructor; try lia. intros ? ? H; discriminate H. }
  destruct (embed_job_description embed_text (similar_job_dict ref_job))
    as [ref_embedding|] eqn:Ee; simpl.
  2:{ repeat split; try constructor; try lia; try discriminate.
      intros ref_job' e' Hj He. inversion Hj; subst.
      rewrite Ee in He. discriminate He. }
  split; [|split; [|split; [|split]]].
  - apply List.Forall_forall. intros m Hm.
    apply In_py_slice_to in Hm.
    apply (Permutation_in _ (sort_desc_perm semantic_score _)) in Hm.
    pose proof (similar_jobs_of_only ref_job reference_id ref_embedding
                  (_get_filtered_jobs None)) as Hall.
    rewrite List.Forall_forall in Hall. apply Hall. exact Hm.
  - apply StronglySorted_py_slice_to. apply sort_desc_descending.
  - intros ref_job' e' Hj He. inversion Hj; subst.
    rewrite Ee in He. inversion He; subst. reflexivity.
  - apply py_slice_to_length.
  - discriminate.
Qed.

End EngineFacts.

Lemma find_similar_jobs_properties_witness :
  find_similar_jobs sample_embed sample_similarity sample_table sample_lookup "zz" 5
  = [].
Proof.
  destruct (find_similar_jobs_properties sample_embed sample_similarity
              sample_table sample_lookup "zz" 5) as (_ & _ & _ & _ & Hnone).
  apply Hnone. reflexivity.
Defined.

Example find_similar_jobs_example :
  map job_id
    (find_similar_jobs sample_embed sample_similarity sample_table sample_lookup "a" 5)
  = ["b"; "c"]%string.
Proof. vm_compute. reflexivity. Qed.

(** ** The sort on float keys *)

Section ListSortFacts.
Context {A : Type} (key : A → pyfloat).

Lemma binary_insert_perm (sorted : list A) (pivot : A) :
  Permutation (binary_insert key sorted pivot) (pivot :: sorted).
Proof.
  unfold binary_insert. cbv zeta. symmetry.
  etransitivity; [|apply Permutation_middle].
  rewrite firstn_skipn. reflexivity.
Qed.

Lemma fold_binary_insert_perm (items sorted : list A) :
  Permutation (fold_left (binary_insert key) items sorted) (sorted ++ items).
Proof.
  revert sorted. induction items as [|x items IH]; intros sorted; simpl.
  - rewrite app_nil_r. reflexivity.
  - rewrite IH, binary_insert_perm. simpl. apply Permutation_middle.
Qed.

Lemma binarysort_perm (start : nat) (l : list A) :
  Permutation (binarysort key start l) l.
Proof.
  unfold binarysort. rewrite fold_binary_insert_perm, firstn_skipn. reflexivity.
Qed.

Lemma sort_ascending_perm (l : list A) : Permutation (sort_ascending key l) l.
Proof.
  unfold sort_ascending. destruct (count_run key l) as [n descending].
  rewrite binarysort_perm. destruct descending; [|reflexivity].
  rewrite <- Permutation_rev, firstn_skipn. reflexivity.
Qed.

Lemma list_sort_reverse_perm (l : list A) :
  Permutation (list_sort_reverse key l) l.
Proof.
  unfold list_sort_reverse.
  rewrite <- Permutation_rev, sort_ascending_perm, <- Permutation_rev.
  reflexivity.
Qed.

Lemma list_sort_reverse_length (l : list A) :
  length (list_sort_reverse key l) = length l.
Proof. apply Permutation_length, list_sort_reverse_perm. Qed.

End ListSortFacts.

(** When every key is a number the result is in descending order. *)

Lemma StronglySorted_rev {A : Type} (R : A → A → Prop) (l : list A) :
  StronglySorted R l → StronglySorted (fun a b => R b a) (rev l).
Proof.
  induction 1 as [|x l Hs IH Hx]; simpl; [constructor|].
  apply StronglySorted_app_2; [|exact IH|repeat constructor].
  intros x1 x2 H1 H2. apply list_elem_of_singleton in H2. subst x2.
  rewrite List.Forall_forall in Hx. apply Hx.
  apply list_elem_of_In in H1. apply in_rev. exact H1.
Qed.

Lemma nth_error_skipn_cons {A : Type} (s : list A) (p : nat) (x : A) :
  nth_error s p = Some x → skipn p s = x :: skipn (S p) s.
Proof.
  revert p. induction s as [|a s IH]; intros [|p] H; simpl in H; try discriminate.
  - inversion H. reflexivity.
  - simpl. rewrite (IH p H). reflexivity.
Qed.

Lemma nth_error_firstn_snoc {A : Type} (s : list A) (p : nat) (x : A) :
  nth_error s p = Some x → firstn (S p) s = firstn p s ++ [x].
Proof.
  revert p. induction s as [|a s IH]; intros [|p] H; simpl in H; try discriminate.
  - inversion H. reflexivity.
  - simpl. f_equal. apply IH. exact H.
Qed.

Section ListSortOrder.
Context {A : Type} (key : A → pyfloat) (num : A → Q).

Local Abbreviation numeric := (fun a : A => key a = Fin (num a)).
Local Abbreviation asc := (fun a b : A => num a <= num b).
Local Abbreviation desc := (fun a b : A => num b <= num a).

Lemma key_lt_num (a b : A) :
  numeric a → numeric b → key_lt key a b = Qltb (num a) (num b).
Proof. intros Ha Hb. unfold key_lt. rewrite Ha, Hb. apply flt_Fin. Qed.

Lemma asc_transitive : Transitive asc.
Proof. intros a b c Hab Hbc. simpl in *. lra. Qed.

Lemma desc_transitive : Transitive desc.
Proof. intros a b c Hab Hbc. simpl in *. lra. Qed.

Lemma run_ascending_sorted (previous : A) (l : list A) :
  numeric previous → Forall numeric l →
  Sorted asc (firstn (S (run_ascending key previous l)) (previous :: l)).
Proof.
  revert previous. induction l as [|x l IH]; intros previous Hp Hl.
  - simpl. repeat constructor.
  - inversion Hl as [|? ? Hx Hl']; subst. simpl run_ascending.
    rewrite (key_lt_num x previous Hx Hp).
    destruct (Qltb (num x) (num previous)) eqn:E; [simpl; repeat constructor|].
    apply Qltb_ge in E.
    change (firstn (S (S (run_ascending key x l))) (previous :: x :: l))
      with (previous :: firstn (S (run_ascending key x l)) (x :: l)).
    constructor; [apply IH; assumption|]. simpl. constructor. exact E.
Qed.

Lemma run_descending_sorted (previous : A) (l : list A) :
  numeric previous → Forall numeric l →
  Sorted desc (firstn (S (run_descending key previous l)) (previous :: l)).
Proof.
  revert previous. induction l as [|x l IH]; intros previous Hp Hl.
  - simpl. repeat constructor.
  - inversion Hl as [|? ? Hx Hl']; subst. simpl run_descending.
    rewrite (key_lt_num x previous Hx Hp).
    destruct (Qltb (num x) (num previous)) eqn:E; [|simpl; repeat constructor].
    apply Qltb_lt in E.
    change (firstn (S (S (run_descending key x l))) (previous :: x :: l))
      with (previous :: firstn (S (run_descending key x l)) (x :: l)).
    constructor; [apply IH; assumption|]. simpl. constructor. lra.
Qed.

Lemma run_descending_length (previous : A) (l : list A) :
  (run_descending key previous l <= length l)%nat.
Proof.
  revert previous. induction l as [|x l IH]; intros previous; simpl; [lia|].
  destruct (key_lt key x previous); [|lia]. specialize (IH x). lia.
Qed.

Lemma count_run_cases (x : A) (rest : list A) :
  (count_run key (x :: rest) = (S (run_descending key x rest), true)
   ∧ (S (run_descending key x rest) <= length (x :: rest))%nat)
  ∨ count_run key (x :: rest) = (S (run_ascending key x rest), false).
Proof.
  destruct rest as [|y l]; [right; reflexivity|]. simpl.
  destruct (key_lt key y x).
  - left. split; [reflexivity|]. pose proof (run_descending_length y l). lia.
  - right. reflexivity.
Qed.

Lemma sorted_at (s : list A) (p : nat) (x : A) :
  StronglySorted asc s → nth_error s p = Some x →
  Forall (fun y => num y <= num x) (firstn p s)
  ∧ Forall (fun y => num x <= num y) (skipn (S p) s).
Proof.
  intros Hs. revert p. induction Hs as [|a s Hs IH Ha]; intros [|p] H;
    simpl in H; try discriminate.
  - inversion H; subst a. split; [constructor|exact Ha].
  - destruct (IH p H) as [H1 H2]. split; [|exact H2].
    simpl. constructor; [|exact H1].
    rewrite List.Forall_forall in Ha. apply Ha. exact (nth_error_In _ _ H).
Qed.

Lemma bisect_spec (fuel : nat) (pivot : A) (sorted : list A) (l r : nat) :
  StronglySorted asc sorted → Forall numeric sorted → numeric pivot →
  (l <= r <= length sorted)%nat → (r - l <= fuel)%nat →
  Forall (fun x => num x <= num pivot) (firstn l sorted) →
  Forall (fun x => num pivot < num x) (skipn r sorted) →
  Forall (fun x => num x <= num pivot)
    (firstn (bisect key fuel pivot sorted l r) sorted)
  ∧ Forall (fun x => num pivot < num x)
      (skipn (bisect key fuel pivot sorted l r) sorted).
Proof.
  intros Hs Hn Hp. revert l r.
  induction fuel as [|fuel IH]; intros l r Hlr Hf Hlo Hhi.
  - cbn [bisect]. assert (l = r) by lia. subst r. split; assumption.
  - cbn [bisect]. destruct (Nat.ltb_spec l r) as [Hlt|Hge].
    2:{ assert (l = r) by lia. subst r. split; assumption. }
    assert (Hhalf : ((r - l) / 2 < r - l)%nat)
      by (apply Nat.div_lt; lia).
    set (p := (l + (r - l) / 2)%nat) in *.
    destruct (nth_error sorted p) as [x|] eqn:Ex.
    2:{ apply nth_error_None in Ex. lia. }
    assert (Hx : numeric x).
    { rewrite List.Forall_forall in Hn. apply Hn. exact (nth_error_In _ _ Ex). }
    destruct (sorted_at sorted p x Hs Ex) as [Hbefore Hafter].
    rewrite (key_lt_num pivot x Hp Hx).
    destruct (Qltb (num pivot) (num x)) eqn:E.
    + apply Qltb_lt in E. apply IH; [lia|lia|exact Hlo|].
      rewrite (nth_error_skipn_cons sorted p x Ex). constructor; [exact E|].
      rewrite List.Forall_forall in *. intros y Hy. specialize (Hafter y Hy). lra.
    + apply Qltb_ge in E. apply IH; [lia|lia| |exact Hhi].
      rewrite (nth_error_firstn_snoc sorted p x Ex).
      apply Forall_app. split; [|constructor; [exact E|constructor]].
      rewrite List.Forall_forall in *. intros y Hy. specialize (Hbefore y Hy). lra.
Qed.

Lemma binary_insert_sorted (sorted : list A) (pivot : A) :
  StronglySorted asc sorted → Forall numeric sorted → numeric pivot →
  StronglySorted asc (binary_insert key sorted pivot).
Proof.
  intros Hs Hn Hp. unfold binary_insert. cbv zeta.
  destruct (bisect_spec (length sorted) pivot sorted 0 (length sorted) Hs Hn Hp)
    as [Hlo Hhi]; [lia|lia|constructor|rewrite skipn_all; constructor|].
  set (i := bisect key (length sorted) pivot sorted 0 (length sorted)) in *.
  rewrite <- (firstn_skipn i sorted) in Hs.
  apply StronglySorted_app in Hs. destruct Hs as (Hcross & Hs1 & Hs2).
  apply StronglySorted_app_2; [|exact Hs1|].
  - intros x1 x2 H1 H2. apply elem_of_cons in H2. destruct H2 as [->|H2].
    + rewrite List.Forall_forall in Hlo. apply Hlo. apply list_elem_of_In. exact H1.
    + apply Hcross; assumption.
  - constructor; [exact Hs2|].
    rewrite List.Forall_forall in *. intros y Hy. specialize (Hhi y Hy). lra.
Qed.

Lemma fold_binary_insert_sorted (items sorted : list A) :
  StronglySorted asc sorted → Forall numeric sorted → Forall numeric items →
  StronglySorted asc (fold_left (binary_insert key) items sorted).
Proof.
  revert sorted. induction items as [|x items IH]; intros sorted Hs Hn Hi;
    [exact Hs|].
  inversion Hi as [|? ? Hx Hi']; subst. simpl. apply IH; [| |exact Hi'].
  - apply binary_insert_sorted; assumption.
  - apply (Permutation_Forall (Permutation_sym (binary_insert_perm key sorted x))).
    constructor; assumption.
Qed.

Lemma sort_ascending_sorted (l : list A) :
  Forall numeric l → StronglySorted asc (sort_ascending key l).
Proof.
  intros Hn. unfold sort_ascending. destruct l as [|x rest]; [constructor|].
  inversion Hn as [|? ? Hx Hrest]; subst.
  destruct (count_run_cases x rest) as [[Hc Hlen]|Hc]; rewrite Hc.
  - set (n := S (run_descending key x rest)) in *.
    unfold binarysort.
    assert (Hl : length (rev (firstn n (x :: rest))) = n)
      by (rewrite length_rev, length_firstn; lia).
    set (run := rev (firstn n (x :: rest))) in *.
    set (others := skipn n (x :: rest)).
    replace (firstn n (run ++ others)) with run
      by (rewrite <- Hl; symmetry; apply take_app_length).
    replace (skipn n (run ++ others)) with others
      by (rewrite <- Hl; symmetry; apply drop_app_length).
    apply fold_binary_insert_sorted.
    + apply (StronglySorted_rev desc).
      apply (@Sorted.Sorted_StronglySorted _ desc desc_transitive).
      apply run_descending_sorted; assumption.
    + apply Forall_rev. apply Forall_take. exact Hn.
    + apply Forall_drop. exact Hn.
  - unfold binarysort. apply fold_binary_insert_sorted.
    + apply (@Sorted.Sorted_StronglySorted _ asc asc_transitive).
      apply run_ascending_sorted; assumption.
    + apply Forall_take. exact Hn.
    + apply Forall_drop. exact Hn.
Qed.

Lemma list_sort_reverse_sorted (l : list A) :
  Forall numeric l → StronglySorted desc (list_sort_reverse key l).
Proof.
  intros Hn. unfold list_sort_reverse. apply (StronglySorted_rev asc).
  apply sort_ascending_sorted. apply Forall_rev. exact Hn.
Qed.

End ListSortOrder.

Lemma StronglySorted_among {A : Type} (R R' : A → A → Prop) (P : A → Prop)
  (l : list A) :
  (∀ a b, P a → P b → R a b → R' a b) →
  Forall P l → StronglySorted R l → StronglySorted R' l.
Proof.
  intros Himp Hp Hs. induction Hs as [|a l Hs IH Ha]; [constructor|].
  inversion Hp as [|? ? Hpa Hpl]; subst.
  constructor; [apply IH; exact Hpl|].
  rewrite List.Forall_forall in *. intros b Hb.
  apply Himp; [exact Hpa|apply Hpl; exact Hb|apply Ha; exact Hb].
Qed.

(** ** The search *)

Section SearchFacts.
Context {vec SearchFilters : Type}.
Context (embed_text : string → outcome vec).
Context (embed_user_profile : UserProfile → outcome vec).
Context (_get_filtered_jobs : option SearchFilters → list JobRow).
Context (_calculate_job_match :
  JobRow → vec → option vec → option UserProfile → outcome (option ScoredMatch)).

Lemma job_matches_of_app (jobs1 jobs2 : list JobRow) (query_embedding : vec)
  (user_embedding : option vec) (user_profile : option UserProfile) :
  job_matches_of _calculate_job_match (jobs1 ++ jobs2)
    query_embedding user_embedding user_profile
  = job_matches_of _calculate_job_match jobs1 query_embedding user_embedding user_profile
    ++ job_matches_of _calculate_job_match jobs2 query_embedding user_embedding
         user_profile.
Proof.
  induction jobs1 as [|job rest IH]; simpl; [reflexivity|]. rewrite IH.
  destruct (_calculate_job_match job query_embedding user_embedding user_profile)
    as [[m|]|]; reflexivity.
Qed.

(** A job whose scoring fails is left out, and the jobs around it are
    scored as they would be without it. *)
Lemma job_matches_of_skip (jobs1 jobs2 : list JobRow) (job : JobRow)
  (query_embedding : vec) (user_embedding : option vec)
  (user_profile : option UserProfile) :
  _calculate_job_match job query_embedding user_embedding user_profile = Raised
  ∨ _calculate_job_match job query_embedding user_embedding user_profile = Ok None →
  job_matches_of _calculate_job_match (jobs1 ++ job :: jobs2)
    query_embedding user_embedding user_profile
  = job_matches_of _calculate_job_match (jobs1 ++ jobs2)
      query_embedding user_embedding user_profile.
Proof.
  intros H. rewrite !job_matches_of_app. f_equal. simpl.
  destruct H as [H|H]; rewrite H; reflexivity.
Qed.

Lemma job_matches_of_keeps (jobs : list JobRow) (job : JobRow)
  (m : ScoredMatch) (query_embedding : vec) (user_embedding : option vec)
  (user_profile : option UserProfile) :
  In job jobs →
  _calculate_job_match job query_embedding user_embedding user_profile = Ok (Some m) →
  In m (job_matches_of _calculate_job_match jobs query_embedding user_embedding
          user_profile).
Proof.
  intros Hin Hm. induction jobs as [|j rest IH]; [contradiction|]. simpl.
  destruct Hin as [Heq|Hin].
  - subst j. rewrite Hm. left. reflexivity.
  - specialize (IH Hin).
    destruct (_calculate_job_match j query_embedding user_embedding user_profile)
      as [[m'|]|]; [right|..]; exact IH.
Qed.

Lemma search_result_length (query : string) (user_profile : option UserProfile)
  (filters : option SearchFilters) (limit : Z) :
  (0 <= limit)%Z →
  (Z.of_nat
     (length (search_jobs_semantic embed_text embed_user_profile _get_filtered_jobs
                _calculate_job_match query user_profile filters limit))
   <= limit)%Z.
Proof.
  intros Hl. unfold search_jobs_semantic, search_body.
  destruct (_get_filtered_jobs filters) as [|job rest]; [simpl; lia|].
  destruct (embed_text query) as [qe|]; [|simpl; lia].
  destruct (user_embedding_of embed_user_profile user_profile) as [ue|];
    [|simpl; lia].
  simpl. apply py_slice_to_length. exact Hl.
Qed.

(** What [search_jobs_semantic] does on every path.  It returns a list: the
    empty list when no job passes the filters, and when embedding the query
    or the profile raises.  Otherwise the result is the [[:limit]] slice of
    the sorted matches, where a job whose scoring raises or gives nothing
    is left out and every other job keeps its match; it holds matches of
    the scored jobs only, and at most [limit] of them for a limit of at
    least 0. *)
Lemma search_jobs_semantic_paths (query : string)
  (user_profile : option UserProfile) (filters : option SearchFilters) (limit : Z) :
  let result :=
    search_jobs_semantic embed_text embed_user_profile _get_filtered_jobs
      _calculate_job_match query user_profile filters limit in
  let scored := job_matches_of _calculate_job_match in
  (_get_filtered_jobs filters = [] → result = [])
  ∧ (embed_text query = Raised → result = [])
  ∧ (user_embedding_of embed_user_profile user_profile = Raised → result = [])
  ∧ (∀ (query_embedding : vec) (user_embedding : option vec),
        embed_text query = Ok query_embedding →
        user_embedding_of embed_user_profile user_profile = Ok user_embedding →
        result = py_slice_to limit
                   (list_sort_reverse sm_overall_score
                      (scored (_get_filtered_jobs filters) query_embedding
                         user_embedding user_profile))
        ∧ ∀ m, In m result →
               In m (scored (_get_filtered_jobs filters) query_embedding
                       user_embedding user_profile))
  ∧ (∀ (jobs1 jobs2 : list JobRow) (job : JobRow)
       (query_embedding : vec) (user_embedding : option vec),
        _calculate_job_match job query_embedding user_embedding user_profile = Raised
        ∨ _calculate_job_match job query_embedding user_embedding user_profile
          = Ok None →
        scored (jobs1 ++ job :: jobs2) query_embedding user_embedding user_profile
        = scored (jobs1 ++ jobs2) query_embedding user_embedding user_profile)
  ∧ (∀ (jobs : list JobRow) (job : JobRow) (m : ScoredMatch)
       (query_embedding : vec) (user_embedding : option vec),
        In job jobs →
        _calculate_job_match job query_embedding user_embedding user_profile
        = Ok (Some m) →
        In m (scored jobs query_embedding user_embedding user_profile))
  ∧ (∀ (query_embedding : vec) (user_embedding : option vec),
        embed_text query = Ok query_embedding →
        user_embedding_of embed_user_profile user_profile = Ok user_embedding →
        Forall (fun m => is_number (sm_overall_score m))
          (scored (_get_filtered_jobs filters) query_embedding user_embedding
             user_profile) →
        StronglySorted
          (fun a b => fle (sm_overall_score b) (sm_overall_score a) = true) result)
  ∧ ((0 <= limit)%Z → (Z.of_nat (length result) <= limit)%Z).
Proof.
  cbv zeta.
  assert (Hslice : ∀ qe ue,
    embed_text query = Ok qe →
    user_embedding_of embed_user_profile user_profile = Ok ue →
    search_jobs_semantic embed_text embed_user_profile _get_filtered_jobs
      _calculate_job_match query user_profile filters limit
    = py_slice_to limit
        (list_sort_reverse sm_overall_score
           (job_matches_of _calculate_job_match (_get_filtered_jobs filters)
              qe ue user_profile))).
  { intros qe ue Hq Hu. unfold search_jobs_semantic, search_body.
    rewrite Hq, Hu. simpl.
    destruct (_get_filtered_jobs filters) eqn:E; [|reflexivity].
    simpl. unfold py_slice_to. simpl.
    destruct (0 <=? limit)%Z; rewrite ?firstn_nil; reflexivity. }
  split; [intros H; unfold search_jobs_semantic, search_body; rewrite H; reflexivity|].
  split.
  { intros H. unfold search_jobs_semantic, search_body. rewrite H.
    destruct (_get_filtered_jobs filters); reflexivity. }
  split.
  { intros H. unfold search_jobs_semantic, search_body. rewrite H.
    destruct (_get_filtered_jobs filters); [reflexivity|].
    destruct (embed_text query); reflexivity. }
  split.
  { intros qe ue Hq Hu. pose proof (Hslice qe ue Hq Hu) as Hres.
    split; [exact Hres|]. intros m Hm. rewrite Hres in Hm.
    apply In_py_slice_to in Hm.
    exact (Permutation_in _ (list_sort_reverse_perm sm_overall_score _) Hm). }
  split; [intros; apply job_matches_of_skip; assumption|].
  split; [intros; eapply job_matches_of_keeps; eassumption|].
  split; [|apply search_result_length].
  intros qe ue Hq Hu Hnum. rewrite (Hslice qe ue Hq Hu).
  set (matches := job_matches_of _calculate_job_match (_get_filtered_jobs filters)
                    qe ue user_profile) in *.
  assert (Hkeys : Forall
            (fun m => sm_overall_score m = Fin (float_value (sm_overall_score m)))
            matches).
  { rewrite List.Forall_forall in *. intros m Hm.
    destruct (Hnum m Hm) as [q Hq']. rewrite Hq'. reflexivity. }
  apply StronglySorted_py_slice_to.
  apply (StronglySorted_among
           (fun a b => float_value (sm_overall_score b)
                       <= float_value (sm_overall_score a))
           _ (fun m => sm_overall_score m = Fin (float_value (sm_overall_score m)))).
  - intros a b Ha Hb Hab. rewrite Ha, Hb, fle_Fin. apply Qle_bool_iff. exact Hab.
  - apply (Permutation_Forall
             (Permutation_sym (list_sort_reverse_perm sm_overall_score matches))).
    exact Hkeys.
  - apply (list_sort_reverse_sorted sm_overall_score
             (fun m => float_value (sm_overall_score m))).
    exact Hkeys.
Qed.

End SearchFacts.

(** Job "b" is skipped, the others are ranked. *)
Example search_jobs_semantic_example :
  map sm_job_id
    (search_jobs_semantic sample_embed (fun _ => sample_embed "") salary_table
       sample_scoring "python" None None 20)
  = ["c"; "a"]%string.
Proof. vm_compute. reflexivity. Qed.

(** C7, at the failing input.  The profile asks for a salary of at least
    100000 and names no upper bound; job "b" offers at least 90000 and names
    no upper bound either, so its salary score is NaN, and with it its
    overall score.  Every comparison with NaN is false, and the sort leaves
    the three matches in the order of the table: job "c", with the overall
    score 0.53, stands before job "a", with the overall score 0.59. *)
Theorem search_not_sorted_with_nan :
  let result :=
    search_jobs_semantic sample_embed (fun _ => sample_embed "") salary_table
      (engine_scorer elements sample_embed sample_similarity) "engineer"
      (Some (profile_with_salary (Some 100000) None)) None 20 in
  map sm_job_id result = ["c"; "b"; "a"]%string
  ∧ map sm_salary_match_score result = [Fin 0; NaN; Fin 0.4]
  ∧ map sm_overall_score result = [Fin (to_double 0.53); NaN; Fin (to_double 0.59)]
  ∧ to_double 0.53 < to_double 0.59.
Proof. vm_compute. repeat split; reflexivity. Qed.

(** ** The match explanation without a language model *)

Lemma string_app_assoc (a b c : string) : (a +:+ b) +:+ c = a +:+ b +:+ c.
Proof.
  induction a as [|x a IH]; [reflexivity|].
  change (String x ((a +:+ b) +:+ c) = String x (a +:+ b +:+ c)).
  f_equal. exact IH.
Qed.

Lemma fallback_nonempty (job_dict : gmap string (option string))
  (match_scores : gmap string Q) :
  _fallback_match_explanation job_dict match_scores ≠ ""%string.
Proof.
  unfold _fallback_match_explanation.
  destruct (Qle_bool 0.7 _); [|destruct (Qle_bool 0.5 _)]; simpl; discriminate.
Qed.

Lemma fallback_mentions_title (job_dict : gmap string (option string))
  (match_scores : gmap string Q) :
  mentions (_fallback_match_explanation job_dict match_scores)
    (get_text job_dict "title" "position").
Proof.
  unfold _fallback_match_explanation, mentions.
  destruct (Qle_bool 0.7 _); [|destruct (Qle_bool 0.5 _)];
    eexists; eexists; reflexivity.
Qed.

Lemma fallback_mentions_tier (job_dict : gmap string (option string))
  (match_scores : gmap string Q) :
  let text := _fallback_match_explanation job_dict match_scores in
  let overall := overall_of match_scores in
  (0.7 <= overall → mentions text "strong match")
  ∧ (0.5 <= overall → overall < 0.7 → mentions text "good opportunity")
  ∧ (overall < 0.5 → mentions text "might be a stretch").
Proof.
  cbv zeta. unfold _fallback_match_explanation. fold (overall_of match_scores).
  repeat split.
  - intros H. rewrite (proj2 (Qle_bool_iff _ _) H).
    exists "This looks like a "%string. eexists. reflexivity.
  - intros H5 H7. rewrite (Qle_bool_false _ _ H7).
    rewrite (proj2 (Qle_bool_iff _ _) H5).
    exists "This could be a "%string. eexists. reflexivity.
  - intros H5.
    rewrite (Qle_bool_false 0.7 _) by lra. rewrite (Qle_bool_false _ _ H5).
    exists ("This " +:+ get_text job_dict "title" "position" +:+ " role ")%string.
    exists ", but could offer growth opportunities. Consider whether you're ready to take on new challenges in areas where you have less experience."%string.
    rewrite !string_app_assoc. reflexivity.
Qed.

Section ExplanationFacts.
Context {client profile : Type}.
Context (llm_request :
  client → gmap string (option string) → profile → gmap string Q
  → outcome (option string)).
Context (strip : string → string).

(** C9. With no LLM client, [generate_match_explanation] returns the
    rule-based text: it is not empty, it contains the job title (or the word
    "position" when the job has none) and the wording of the tier of the
    overall score, and no request is made that could fail. *)
Theorem explanation_without_llm (job_dict : gmap string (option string))
  (user_profile : profile) (match_scores : gmap string Q) :
  let text :=
    generate_match_explanation llm_request strip None job_dict user_profile
      match_scores in
  let overall := overall_of match_scores in
  text = _fallback_match_explanation job_dict match_scores
  ∧ text ≠ ""%string
  ∧ mentions text (get_text job_dict "title" "position")
  ∧ (0.7 <= overall → mentions text "strong match")
  ∧ (0.5 <= overall → overall < 0.7 → mentions text "good opportunity")
  ∧ (overall < 0.5 → mentions text "might be a stretch").
Proof.
  cbv zeta. unfold generate_match_explanation.
  split; [reflexivity|].
  split; [apply fallback_nonempty|].
  split; [apply fallback_mentions_title|].
  apply fallback_mentions_tier.
Qed.

End ExplanationFacts.

Lemma explanation_without_llm_witness :
  mentions
    (generate_match_explanation (client := unit) (profile := unit)
       (fun _ _ _ _ => Raised) (fun s => s) None sample_job_dict tt sample_scores)
    "strong match".
Proof.
  destruct (explanation_without_llm (client := unit) (profile := unit)
              (fun _ _ _ _ => Raised) (fun s => s) sample_job_dict tt sample_scores)
    as (_ & _ & _ & Hstrong & _).
  apply Hstrong. vm_compute. discriminate.
Defined.

Example explanation_without_llm_example :
  generate_match_explanation (client := unit) (profile := unit)
    (fun _ _ _ _ => Raised) (fun s => s) None sample_job_dict tt sample_scores
  = "This looks like a strong match for the Data Engineer role at this company. Your skills and experience align well with their requirements."%string.
Proof. vm_compute. reflexivity. Qed.

(** ** Cosine similarity *)

Section CosineFacts.
Local Open Scope R_scope.
Import Exact.

Lemma dot_nil_l (y : list R) : dot [] y = 0.
Proof. reflexivity. Qed.

Lemma dot_cons (a b : R) (x y : list R) : dot (a :: x) (b :: y) = a * b + dot x y.
Proof. reflexivity. Qed.

Lemma dot_self_nonneg (x : list R) : 0 <= dot x x.
Proof.
  induction x as [|a x IH]; [unfold dot; simpl; lra|].
  rewrite dot_cons. nra.
Qed.

(** Scaling both rows scales the product. *)
Lemma dot_scaled (c d : R) (x y : list R) :
  dot (map (fun v => v / c) x) (map (fun v => v / d) y) = dot x y / (c * d).
Proof.
  revert y. induction x as [|a x IH]; intros y.
  - simpl. rewrite !dot_nil_l. unfold Rdiv. lra.
  - destruct y as [|b y].
    + unfold dot. simpl. unfold Rdiv. lra.
    + simpl map. rewrite !dot_cons, IH.
      destruct (Req_dec_T c 0) as [Hc|Hc].
      * subst c. unfold Rdiv. rewrite !Rmult_0_l, Rinv_0. lra.
      * destruct (Req_dec_T d 0) as [Hd|Hd].
        -- subst d. unfold Rdiv. rewrite !Rmult_0_r, Rinv_0. lra.
        -- field. split; assumption.
Qed.

Lemma cosine_similarity_value (x y : list R) :
  length x = length y → length x <> 0%nat →
  calculate_similarity x y
  = dot x y / (handle_zeros (row_norm x) * handle_zeros (row_norm y)).
Proof.
  intros Hlen Hne. unfold calculate_similarity, cosine_similarity.
  rewrite Hlen, Nat.eqb_refl.
  destruct (Nat.eqb_spec (length y) 0) as [H0|H0]; [rewrite Hlen in Hne; contradiction|].
  simpl. unfold normalize. apply dot_scaled.
Qed.

(** C1, at the failing input.  On the opposite unit vectors [1] and [-1]
    [calculate_similarity] returns -1, which is outside [0,1]: the cosine is
    returned as it is, not mapped to [0,1]. *)
Theorem calculate_similarity_opposite_vectors :
  calculate_similarity [1] [-1] = -1
  ∧ ¬ (0 <= calculate_similarity [1] [-1] <= 1).
Proof.
  assert (Hv : calculate_similarity [1] [-1] = -1).
  { rewrite cosine_similarity_value; [|reflexivity|discriminate].
    unfold row_norm. rewrite !dot_cons, !dot_nil_l.
    replace (1 * 1 + 0) with 1 by lra. replace (-1 * -1 + 0) with 1 by lra.
    rewrite sqrt_1. unfold handle_zeros.
    destruct (Req_dec_T 1 0) as [H|H]; [lra|]. lra. }
  split; [exact Hv|]. rewrite Hv. lra.
Qed.

Lemma dot_zero_l (x y : list R) : Forall (fun v => v = 0) x → dot x y = 0.
Proof.
  intros Hz. revert y. induction Hz as [|a x Ha Hx IH]; intros y; [reflexivity|].
  destruct y as [|b y]; [reflexivity|]. rewrite dot_cons, IH, Ha. lra.
Qed.

Lemma dot_comm (x y : list R) : dot x y = dot y x.
Proof.
  revert y. induction x as [|a x IH]; intros [|b y]; try reflexivity.
  rewrite !dot_cons, IH. lra.
Qed.

(** The degenerate zero vector scores 0 against every vector. *)
Lemma calculate_similarity_zero_vector (x y : list R) :
  Forall (fun v => v = 0) x →
  calculate_similarity x y = 0 ∧ calculate_similarity y x = 0.
Proof.
  intros Hz. unfold calculate_similarity, cosine_similarity. split.
  - destruct ((length x =? length y)%nat && negb (length x =? 0)%nat);
      [|reflexivity].
    simpl. unfold normalize. rewrite dot_scaled, (dot_zero_l x y Hz).
    unfold Rdiv. lra.
  - destruct ((length y =? length x)%nat && negb (length y =? 0)%nat);
      [|reflexivity].
    simpl. unfold normalize. rewrite dot_scaled, dot_comm, (dot_zero_l x y Hz).
    unfold Rdiv. lra.
Qed.

Lemma quadratic_nonneg (t : R) (x y : list R) :
  length x = length y →
  0 <= t * t * dot x x - 2 * t * dot x y + dot y y.
Proof.
  revert y. induction x as [|a x IH]; intros [|b y] Hlen; try discriminate.
  - unfold dot. simpl. lra.
  - rewrite !dot_cons. simpl in Hlen. injection Hlen as Hlen.
    specialize (IH y Hlen).
    replace (t * t * (a * a + dot x x) - 2 * t * (a * b + dot x y) + (b * b + dot y y))
      with ((a * t - b) * (a * t - b)
            + (t * t * dot x x - 2 * t * dot x y + dot y y)) by ring.
    pose proof (Rle_0_sqr (a * t - b)) as Hsq. unfold Rsqr in Hsq. lra.
Qed.

Lemma cauchy_schwarz (x y : list R) :
  length x = length y → dot x y * dot x y <= dot x x * dot y y.
Proof.
  intros Hlen.
  pose proof (dot_self_nonneg x) as Hx.
  pose proof (dot_self_nonneg y) as Hy.
  destruct (Req_dec_T (dot x x) 0) as [H0|H0].
  - destruct (Req_dec_T (dot x y) 0) as [Hd|Hd]; [rewrite Hd, H0; lra|].
    exfalso.
    pose proof (quadratic_nonneg ((dot y y + 1) / (2 * dot x y)) x y Hlen) as Hq.
    rewrite H0 in Hq.
    replace (2 * ((dot y y + 1) / (2 * dot x y)) * dot x y) with (dot y y + 1) in Hq
      by (field; exact Hd).
    lra.
  - pose proof (quadratic_nonneg (dot x y / dot x x) x y Hlen) as Hq.
    replace (dot x y / dot x x * (dot x y / dot x x) * dot x x
             - 2 * (dot x y / dot x x) * dot x y + dot y y)
      with ((dot x x * dot y y - dot x y * dot x y) / dot x x) in Hq
      by (field; exact H0).
    assert (Hpos : 0 < dot x x) by lra.
    apply (Rmult_le_compat_r (dot x x)) in Hq; [|lra].
    unfold Rdiv in Hq. rewrite Rmult_assoc, Rinv_l in Hq by exact H0. lra.
Qed.

(** The similarity is a cosine: it lies in [-1,1]. *)
Lemma calculate_similarity_range (x y : list R) :
  -1 <= calculate_similarity x y <= 1.
Proof.
  unfold calculate_similarity, cosine_similarity.
  destruct (Nat.eqb_spec (length x) (length y)) as [Hlen|Hlen]; [|simpl; lra].
  destruct (negb (length x =? 0)%nat); [|simpl; lra].
  simpl. unfold normalize. rewrite dot_scaled.
  pose proof (cauchy_schwarz x y Hlen) as Hcs.
  pose proof (dot_self_nonneg x) as Hx.
  pose proof (dot_self_nonneg y) as Hy.
  unfold row_norm, handle_zeros.
  destruct (Req_dec_T (sqrt (dot x x)) 0) as [Hsx|Hsx].
  { apply sqrt_eq_0 in Hsx; [|exact Hx].
    assert (Hd : dot x y = 0) by nra. rewrite Hd. unfold Rdiv. lra. }
  destruct (Req_dec_T (sqrt (dot y y)) 0) as [Hsy|Hsy].
  { apply sqrt_eq_0 in Hsy; [|exact Hy].
    assert (Hd : dot x y = 0) by nra. rewrite Hd. unfold Rdiv. lra. }
  pose proof (sqrt_pos (dot x x)) as Hpx.
  pose proof (sqrt_pos (dot y y)) as Hpy.
  pose proof (sqrt_sqrt _ Hx) as Hqx.
  pose proof (sqrt_sqrt _ Hy) as Hqy.
  set (p := sqrt (dot x x) * sqrt (dot y y)).
  assert (Hp : 0 < p) by (unfold p; nra).
  assert (Hpp : p * p = dot x x * dot y y) by (unfold p; nra).
  assert (Hb : - p <= dot x y <= p) by nra.
  split.
  - apply (Rmult_le_reg_r p); [exact Hp|].
    unfold Rdiv. rewrite Rmult_assoc, Rinv_l by lra. lra.
  - apply (Rmult_le_reg_r p); [exact Hp|].
    unfold Rdiv. rewrite Rmult_assoc, Rinv_l by lra. lra.
Qed.

End CosineFacts.

(* ===================================================================== *)
(** * Part IV: further properties of the scoring code *)
(* ===================================================================== *)

(** ** Ranges of the sub-scores *)

Lemma ratio_nonneg (a b : nat) :
  0 <= inject_Z (Z.of_nat a) / inject_Z (Z.of_nat b).
Proof.
  destruct b as [|b].
  - unfold Qdiv. change (/ inject_Z (Z.of_nat 0)) with 0. lra.
  - apply Qle_shift_div_l.
    + change 0 with (inject_Z 0). rewrite <- Zlt_Qlt. lia.
    + rewrite Qmult_0_l. change 0 with (inject_Z 0). rewrite <- Zle_Qle. lia.
Qed.

Lemma skills_match_unit (job : JobDict) (user_profile : option UserProfile) :
  0 <= _calculate_skills_match job user_profile <= 1.
Proof.
  destruct user_profile as [profile|]; [|simpl; lra].
  destruct (up_skills profile) as [[|s skills]|] eqn:Hs;
    try (unfold _calculate_skills_match; rewrite Hs; lra).
  rewrite (skills_match_unfold job profile s skills Hs).
  destruct (decide (job_skills_union job = ∅)) as [He|Hne]; [lra|].
  split; [apply ratio_nonneg|].
  apply ratio_at_most_one; [apply subseteq_size, intersection_subseteq_r|].
  destruct (size (job_skills_union job)) eqn:E; [|lia].
  apply size_empty_iff in E. exfalso. apply Hne. apply leibniz_equiv. exact E.
Qed.

Lemma experience_match_unit (job : JobDict) (user_profile : option UserProfile) :
  0 <= _calculate_experience_match job user_profile <= 1.
Proof.
  destruct user_profile as [profile|]; [|simpl; lra].
  unfold _calculate_experience_match.
  destruct (negb (truthy_int (up_experience_years profile))); [lra|].
  destruct (up_experience_years profile) as [y|]; [|lra].
  destruct (level_to_years !! lower (or_empty (jd_experience_level job)))
    as [[mn mx]|]; [|lra].
  destruct ((mn <=? y)%Z && (y <=? mx)%Z) eqn:Eband; [lra|].
  destruct (Z.ltb_spec y mn) as [Hlt|Hge].
  - assert (Hg : 0 < inject_Z (mn - y)).
    { change 0 with (inject_Z 0). rewrite <- Zlt_Qlt. lia. }
    split; [apply Q.le_max_l|].
    apply Q.max_lub; [lra|].
    assert (0 <= inject_Z (mn - y) / 5) by (apply Qle_shift_div_l; lra). lra.
  - assert (Hg : 0 <= inject_Z (y - mx)).
    { change 0 with (inject_Z 0). rewrite <- Zle_Qle.
      apply andb_false_iff in Eband. destruct Eband as [E|E].
      - apply Z.leb_gt in E. lia.
      - apply Z.leb_gt in E. lia. }
    split.
    + apply Qle_trans with 0.6; [lra|apply Q.le_max_l].
    + apply Q.max_lub; [lra|].
      assert (0 <= inject_Z (y - mx) / 10) by (apply Qle_shift_div_l; lra). lra.
Qed.

Lemma location_match_values (job : JobDict) (user_profile : option UserProfile) :
  let score := _calculate_location_match job user_profile in
  score = 0.2 ∨ score = 0.5 ∨ score = 0.7 ∨ score = 1.
Proof.
  cbv zeta. destruct user_profile as [profile|]; [|simpl; tauto].
  unfold _calculate_location_match.
  destruct (up_preferred_locations profile) as [[|p ps]|]; try tauto.
  destruct (existsb _ _ && existsb _ _); [tauto|].
  destruct (location_loop _ _); [tauto|].
  destruct (String.eqb _ _); tauto.
Qed.

Lemma pymin_unit (x : Q) : 0 <= x → 0 <= pymin x 1 <= 1.
Proof.
  intros Hx. unfold pymin. destruct (Qltb 1 x) eqn:E; [lra|].
  apply Qltb_ge in E. lra.
Qed.

Lemma pymax_unit (x : Q) : x <= 1 → 0 <= pymax 0 x <= 1.
Proof.
  intros Hx. unfold pymax. destruct (Qltb 0 x) eqn:E; [|lra].
  apply Qltb_lt in E. lra.
Qed.

Lemma unit_score_Fin (q : Q) : 0 <= q <= 1 → unit_score (Fin q).
Proof. intros H. exists q. split; [reflexivity|exact H]. Qed.

(** The penalty branch gives a number in [0,1] whatever the bounds. *)
Lemma salary_gap_branch_unit (known : list Q) (overlap_start overlap_end : Q) :
  overlap_end < overlap_start →
  unit_score
    (except
       (try! avg_salary ←
          fdiv (Fin (Qsum known)) (Fin (inject_Z (Z.of_nat (length known))));
        if flt (Fin 0) avg_salary then
          try! gap_ratio ← fdiv (Fin (overlap_start - overlap_end)) avg_salary;
          Ok (fmax (Fin 0) (fsub (Fin 1) gap_ratio))
        else Ok (Fin 0))
       (Fin 0.5)).
Proof.
  intros Hgap. unfold fdiv at 1.
  destruct (Qeq_bool (inject_Z (Z.of_nat (length known))) 0).
  { simpl. apply unit_score_Fin. lra. }
  unfold obind at 1. rewrite flt_Fin.
  set (avg := Qsum known / inject_Z (Z.of_nat (length known))).
  destruct (Qltb 0 avg) eqn:E.
  - apply Qltb_lt in E. rewrite fdiv_Fin by lra.
    unfold obind, except. rewrite fsub_Fin, fmax_Fin.
    apply unit_score_Fin. apply pymax_unit.
    assert (0 <= (overlap_start - overlap_end) / avg)
      by (apply Qle_shift_div_l; lra).
    lra.
  - simpl. apply unit_score_Fin. lra.
Qed.

Lemma or_else_upper (x : option Q) :
  (truthy x = true ∧ ∃ q, or_else x PInf = Fin q)
  ∨ (truthy x = false ∧ or_else x PInf = PInf).
Proof.
  destruct x as [q|]; simpl; [|right; split; reflexivity].
  destruct (Qeq_bool q 0); simpl.
  - right. split; reflexivity.
  - left. split; [reflexivity|]. exists q. reflexivity.
Qed.

Lemma salary_overlap_ratio_unit (overlap_start overlap_end job_size user_size : Q) :
  overlap_start <= overlap_end → 0 < job_size → 0 < user_size →
  unit_score
    (except
       (try! avg_range_size ← fdiv (fadd (Fin job_size) (Fin user_size)) (Fin 2);
        try! score ← fdiv (Fin (overlap_end - overlap_start)) avg_range_size;
        Ok (fmin score (Fin 1)))
       (Fin 0.5)).
Proof.
  intros Hov Hj Hu. rewrite fadd_Fin.
  rewrite fdiv_Fin by (intros H; discriminate H). unfold obind at 1.
  pose proof (half_sum_positive _ _ Hj Hu) as Havg.
  rewrite fdiv_Fin by lra. unfold obind, except. rewrite fmin_Fin.
  apply unit_score_Fin. apply pymin_unit.
  apply Qle_shift_div_l; lra.
Qed.

Section SalaryRange.
Variables (job : JobDict) (profile : UserProfile).

Local Abbreviation job_min := (jd_salary_min job).
Local Abbreviation job_max := (jd_salary_max job).
Local Abbreviation user_min := (up_desired_salary_min profile).
Local Abbreviation user_max := (up_desired_salary_max profile).

Lemma salary_match_dichotomy :
  (lower_bounds_only job profile ∧ _calculate_salary_match job (Some profile) = NaN)
  ∨ (¬ lower_bounds_only job profile
     ∧ unit_score (_calculate_salary_match job (Some profile))).
Proof.
  unfold lower_bounds_only.
  destruct (truthy job_min || truthy job_max) eqn:Hj.
  2:{ apply orb_false_iff in Hj. destruct Hj as [Hj1 Hj2]. right.
      split; [intros (H & _); congruence|].
      destruct (truthy user_min || truthy user_max) eqn:Hu.
      - rewrite (salary_job_silent job profile Hj1 Hj2 Hu).
        apply unit_score_Fin. lra.
      - apply orb_false_iff in Hu. destruct Hu as [Hu1 Hu2].
        rewrite (salary_no_bounds job profile Hj1 Hj2 Hu1 Hu2).
        apply unit_score_Fin. lra. }
  destruct (truthy user_min || truthy user_max) eqn:Hu.
  2:{ apply orb_false_iff in Hu. destruct Hu as [Hu1 Hu2]. right.
      split; [intros (_ & _ & H & _); congruence|].
      rewrite (salary_user_silent job profile Hj Hu1 Hu2).
      apply unit_score_Fin. lra. }
  unfold _calculate_salary_match.
  rewrite (salary_body_supplied _ _ _ _ Hj Hu). cbv zeta.
  destruct (or_else_upper job_max) as [[Hjm [jh Hjh]]|[Hjm Hjh]];
    destruct (or_else_upper user_max) as [[Hum [uh Huh]]|[Hum Huh]];
    rewrite Hjh, Huh.
  - right. split; [intros (_ & H & _); congruence|].
    rewrite fmax_Fin, fmin_Fin, fle_Fin, !fsub_Fin, !flt_Fin.
    destruct (Qle_bool _ _) eqn:Eov.
    + apply Qle_bool_iff in Eov.
      destruct (Qltb 0 (jh - lower_bound job_min)) eqn:Ej;
        [|simpl; apply unit_score_Fin; lra].
      destruct (Qltb 0 (uh - lower_bound user_min)) eqn:Eu;
        [|simpl; apply unit_score_Fin; lra].
      apply Qltb_lt in Ej. apply Qltb_lt in Eu. simpl andb. cbv iota.
      apply salary_overlap_ratio_unit; assumption.
    + apply salary_gap_branch_unit.
      apply Qnot_le_lt. intros H. apply Qle_bool_iff in H. congruence.
  - right. split; [intros (_ & H & _); congruence|].
    rewrite fmax_Fin.
    change (fmin (Fin jh) PInf) with (Fin jh).
    change (fsub PInf (Fin (lower_bound user_min))) with PInf.
    change (flt (Fin 0) PInf) with true.
    rewrite fle_Fin, !fsub_Fin, flt_Fin.
    destruct (Qle_bool _ _) eqn:Eov.
    + destruct (Qltb 0 (jh - lower_bound job_min)); simpl;
        apply unit_score_Fin; lra.
    + apply salary_gap_branch_unit.
      apply Qnot_le_lt. intros H. apply Qle_bool_iff in H. congruence.
  - right. split; [intros (_ & _ & _ & H); congruence|].
    rewrite fmax_Fin.
    change (fmin PInf (Fin uh)) with (Fin uh).
    change (fsub PInf (Fin (lower_bound job_min))) with PInf.
    change (flt (Fin 0) PInf) with true.
    rewrite fle_Fin, !fsub_Fin, flt_Fin.
    destruct (Qle_bool _ _) eqn:Eov.
    + destruct (Qltb 0 (uh - lower_bound user_min)); simpl;
        apply unit_score_Fin; lra.
    + apply salary_gap_branch_unit.
      apply Qnot_le_lt. intros H. apply Qle_bool_iff in H. congruence.
  - left.
    assert (Hj1 : truthy job_min = true).
    { rewrite Hjm in Hj. rewrite orb_false_r in Hj. exact Hj. }
    assert (Hu1 : truthy user_min = true).
    { rewrite Hum in Hu. rewrite orb_false_r in Hu. exact Hu. }
    repeat split; try assumption. rewrite fmax_Fin. reflexivity.
Qed.

End SalaryRange.

Lemma unit_score_not_nan (f : pyfloat) : unit_score f → f ≠ NaN.
Proof. intros [q [Hq _]] Hf. rewrite Hq in Hf. discriminate Hf. Qed.

(** X1. Every sub-score is a number in [0,1], with one exception: the salary
    score is NaN exactly when a profile is given and the job and the user
    each supply a lower bound and no upper bound.  The location score is
    one of 0.2, 0.5, 0.7 and 1. *)
Theorem sub_scores_in_unit_interval (job : JobDict) (user_profile : option UserProfile) :
  0 <= _calculate_skills_match job user_profile <= 1
  ∧ 0 <= _calculate_experience_match job user_profile <= 1
  ∧ (_calculate_location_match job user_profile = 0.2
     ∨ _calculate_location_match job user_profile = 0.5
     ∨ _calculate_location_match job user_profile = 0.7
     ∨ _calculate_location_match job user_profile = 1)
  ∧ (_calculate_salary_match job user_profile = NaN
     ∨ unit_score (_calculate_salary_match job user_profile))
  ∧ (_calculate_salary_match job user_profile = NaN ↔
     ∃ profile, user_profile = Some profile ∧ lower_bounds_only job profile).
Proof.
  split; [apply skills_match_unit|].
  split; [apply experience_match_unit|].
  split; [apply location_match_values|].
  destruct user_profile as [profile|].
  - destruct (salary_match_dichotomy job profile) as [[Hl Hf]|[Hn Hu]].
    + split; [left; exact Hf|]. split; [|intros _; exact Hf].
      intros _. exists profile. split; [reflexivity|exact Hl].
    + split; [right; exact Hu|]. split.
      * intros Hf. exfalso. exact (unit_score_not_nan _ Hu Hf).
      * intros (p & Hp & Hl). inversion Hp; subst p. contradiction.
  - split; [right; apply unit_score_Fin; lra|].
    split; [discriminate|]. intros (p & Hp & _). discriminate Hp.
Qed.

(** ** Monotonicity of the overall score *)

(** X2. The overall score is monotone: raising any sub-score never lowers
    it. *)
Theorem overall_score_monotone
  (semantic skills experience salary location : Q)
  (semantic' skills' experience' salary' location' : Q) :
  semantic <= semantic' → skills <= skills' → experience <= experience' →
  salary <= salary' → location <= location' →
  _calculate_overall_score semantic skills experience salary location
  <= _calculate_overall_score semantic' skills' experience' salary' location'.
Proof.
  intros Hs Hk He Ha Hl. unfold _calculate_overall_score.
  apply py_round3_monotone, weighted_sum_monotone; assumption.
Qed.

Lemma overall_score_monotone_witness :
  _calculate_overall_score 0.4 0.5 0.5 0.5 0.5
  <= _calculate_overall_score 0.9 0.5 1 0.5 0.5.
Proof.
  apply (overall_score_monotone 0.4 0.5 0.5 0.5 0.5 0.9 0.5 1 0.5 0.5); lra.
Defined.

(** ** Match reasons *)

Section MatchReasonsFacts.
Context (list_of_set : gset string → list string).

Lemma semantic_reasons_length (semantic : Q) :
  (length (semantic_reasons semantic) <= 1)%nat.
Proof.
  unfold semantic_reasons.
  destruct (Qltb 0.7 semantic); [simpl; lia|].
  destruct (Qltb 0.5 semantic); simpl; lia.
Qed.

Lemma skills_reasons_length (job_dict : JobDict)
  (user_profile : option UserProfile) (skills : Q) :
  (length (skills_reasons list_of_set job_dict user_profile skills) <= 1)%nat.
Proof.
  unfold skills_reasons.
  destruct (Qltb 0.7 skills); [|simpl; lia].
  destruct user_profile as [profile|]; [|simpl; lia].
  destruct (up_skills profile) as [[|s l]|]; try (simpl; lia).
  destruct (decide _); simpl; lia.
Qed.

Lemma experience_reasons_length (job_dict : JobDict) (experience : Q)
  (part : list string) :
  experience_reasons job_dict experience = Ok part → (length part <= 1)%nat.
Proof.
  unfold experience_reasons. intros H.
  destruct (Qltb 0.8 experience); [inversion H; simpl; lia|].
  destruct (Qltb 0.6 experience); [inversion H; simpl; lia|].
  destruct (Qltb experience 0.4); [|inversion H; simpl; lia].
  destruct (jd_experience_level job_dict) as [level|]; [|discriminate].
  destruct (nonempty _); inversion H; simpl; lia.
Qed.

Lemma salary_reasons_length (job_dict : JobDict) (salary : pyfloat) :
  (length (salary_reasons job_dict salary) <= 1)%nat.
Proof.
  unfold salary_reasons. destruct (flt (Fin 0.7) salary); [simpl; lia|].
  destruct (flt salary (Fin 0.3) && truthy (jd_salary_min job_dict)); simpl; lia.
Qed.

Lemma location_reasons_length (job_dict : JobDict) (location : Q) :
  (length (location_reasons job_dict location) <= 1)%nat.
Proof.
  unfold location_reasons. destruct (Qltb 0.8 location).
  - destruct (is_remote_type job_dict "remote"); simpl; lia.
  - destruct (is_remote_type job_dict "hybrid"); simpl; lia.
Qed.

Lemma reasons_before_company_length (job_dict : JobDict)
  (user_profile : option UserProfile) (semantic skills experience : Q)
  (salary : pyfloat) (location : Q) (earlier : list string) :
  reasons_before_company list_of_set job_dict user_profile semantic skills
    experience salary location = Ok earlier →
  (length earlier <= 5)%nat.
Proof.
  unfold reasons_before_company. intros H.
  destruct (experience_reasons job_dict experience) as [part|] eqn:E;
    [|discriminate].
  simpl in H. inversion H; subst earlier. rewrite !length_app.
  pose proof (semantic_reasons_length semantic).
  pose proof (skills_reasons_length job_dict user_profile skills).
  pose proof (experience_reasons_length _ _ _ E).
  pose proof (salary_reasons_length job_dict salary).
  pose proof (location_reasons_length job_dict location).
  lia.
Qed.

(** X3. [_generate_match_reasons] returns at most five reasons.  The five
    score categories give at most one reason each; the company reason comes
    last, so it is returned exactly when fewer than five of the others were
    found, and dropped when all five were. *)
Theorem match_reasons_company_last (job_dict : JobDict)
  (user_profile : option UserProfile) (semantic skills experience : Q)
  (salary : pyfloat) (location : Q) (reasons : list string) :
  _generate_match_reasons list_of_set job_dict user_profile semantic skills
    experience salary location = Ok reasons →
  (length reasons <= 5)%nat
  ∧ ∃ earlier : list string,
      reasons_before_company list_of_set job_dict user_profile semantic skills
        experience salary location = Ok earlier
      ∧ (length earlier <= 5)%nat
      ∧ ((length earlier < 5)%nat → reasons = earlier ++ company_reasons job_dict)
      ∧ (length earlier = 5%nat → reasons = earlier).
Proof.
  unfold _generate_match_reasons. intros H.
  destruct (reasons_before_company list_of_set job_dict user_profile semantic
              skills experience salary location) as [earlier|] eqn:E;
    [|discriminate].
  simpl in H. inversion H as [Hr].
  pose proof (reasons_before_company_length _ _ _ _ _ _ _ _ E) as Hlen.
  split; [rewrite length_firstn; lia|].
  exists earlier. split; [reflexivity|]. split; [exact Hlen|]. split.
  - intros Hlt. apply firstn_all2. rewrite length_app.
    unfold company_reasons. destruct (jd_company job_dict) as [c|]; [|simpl; lia].
    destruct (nonempty c); simpl; lia.
  - intros Heq. rewrite firstn_app, Heq, Nat.sub_diag. simpl.
    rewrite app_nil_r. apply firstn_all2. lia.
Qed.

End MatchReasonsFacts.

Lemma match_reasons_company_last_witness :
  (length ["Excellent match with your search query and interests";
           "Strong skills match: python"; "Perfect experience level match";
           "Salary range aligns with your expectations";
           "Fully remote position"]%string <= 5)%nat
  ∧ ∃ earlier : list string,
      reasons_before_company elements busy_job (Some busy_profile)
        0.9 1 1 (Fin 1) 1 = Ok earlier
      ∧ (length earlier <= 5)%nat
      ∧ ((length earlier < 5)%nat
         → ["Excellent match with your search query and interests";
            "Strong skills match: python"; "Perfect experience level match";
            "Salary range aligns with your expectations";
            "Fully remote position"]%string
           = earlier ++ company_reasons busy_job)
      ∧ (length earlier = 5%nat
         → ["Excellent match with your search query and interests";
            "Strong skills match: python"; "Perfect experience level match";
            "Salary range aligns with your expectations";
            "Fully remote position"]%string = earlier).
Proof.
  apply (match_reasons_company_last elements busy_job (Some busy_profile)
           0.9 1 1 (Fin 1) 1).
  vm_compute. reflexivity.
Defined.

(** ** The job match *)



Section JobMatchingFacts.
Context {vec : Type}.
Context (list_of_set : gset string → list string).
Context (embed_text : string → outcome vec).
Context (embedding_similarity : vec → vec → Q).


(** X5. For a search without a profile the four profile-dependent
    sub-scores are all the neutral 0.5 and the overall score is that of
    (semantic, 0.5, 0.5, 0.5, 0.5): for a semantic score in [-1,1] it is the
    double of a decimal k/1000 that is a nearest one to
    0.35 * semantic + 0.325, up to the rounding of the float operations.
    The only reasons are the one on the semantic score, the hybrid note and
    the company. *)
Theorem calculate_job_match_without_profile (job : JobRow) (query_embedding : vec)
  (user_embedding : option vec) (job_embedding : vec) :
  embed_job_description embed_text (job_dict_of_row job) = Ok job_embedding →
  ∃ m : ScoredMatch,
    calculate_job_match list_of_set embed_text embedding_similarity job
      query_embedding user_embedding None = Some m
    ∧ sm_skills_match_score m = 0.5
    ∧ sm_experience_match_score m = 0.5
    ∧ sm_salary_match_score m = Fin 0.5
    ∧ sm_location_match_score m = 0.5
    ∧ sm_overall_score m
      = Fin (_calculate_overall_score (sm_semantic_score m) 0.5 0.5 0.5 0.5)
    ∧ (-1 <= sm_semantic_score m <= 1 →
       ∃ thousandths : Z,
         sm_overall_score m = Fin (to_double (inject_Z thousandths / 1000))
         ∧ Qabs (inject_Z thousandths / 1000 - (0.35 * sm_semantic_score m + 0.325))
           <= (1 # 2000) + sum_tolerance)
    ∧ sm_match_reasons m
      = semantic_reasons (sm_semantic_score m)
        ++ (if is_remote_type (job_dict_of_row job) "hybrid"
            then ["Hybrid work arrangement available"%string] else [])
        ++ company_reasons (job_dict_of_row job).
Proof.
  intros He. unfold calculate_job_match, job_match_body. cbv zeta. rewrite He.
  unfold obind at 1. simpl _calculate_skills_match.
  simpl _calculate_experience_match. simpl _calculate_salary_match.
  simpl _calculate_location_match.
  unfold _generate_match_reasons, reasons_before_company.
  change (experience_reasons (job_dict_of_row job) 0.5) with (Ok (@nil string)).
  unfold obind.
  eexists. split; [reflexivity|]. simpl sm_skills_match_score.
  simpl sm_experience_match_score. simpl sm_salary_match_score.
  simpl sm_location_match_score. simpl sm_overall_score. simpl sm_match_reasons.
  simpl sm_semantic_score.
  split; [reflexivity|]. split; [reflexivity|]. split; [reflexivity|].
  split; [reflexivity|]. split; [reflexivity|]. split.
  - intros Hs.
    destruct (overall_score_nearest
                (embedding_similarity query_embedding job_embedding)
                0.5 0.5 0.5 0.5) as [_ Hnear]; try lra.
    cbv zeta in Hnear.
    eexists. split; [reflexivity|].
    apply Qabs_Qle_condition. apply Qabs_Qle_condition in Hnear. lra.
  - change (skills_reasons list_of_set (job_dict_of_row job) None 0.5)
      with (@nil string).
    change (salary_reasons (job_dict_of_row job) (Fin 0.5)) with (@nil string).
    change (location_reasons (job_dict_of_row job) 0.5)
      with (if is_remote_type (job_dict_of_row job) "hybrid"
            then ["Hybrid work arrangement available"%string] else []).
    rewrite <- app_assoc.
    apply firstn_all2. rewrite !length_app.
    pose proof (semantic_reasons_length
                  (embedding_similarity query_embedding job_embedding)).
    assert ((length (company_reasons (job_dict_of_row job)) <= 1)%nat).
    { unfold company_reasons. destruct (jd_company _) as [c|]; [|simpl; lia].
      destruct (nonempty c); simpl; lia. }
    destruct (is_remote_type (job_dict_of_row job) "hybrid"); simpl; lia.
Qed.

End JobMatchingFacts.

Lemma calculate_job_match_without_profile_witness :
  ∃ m : ScoredMatch,
    calculate_job_match elements sample_embed sample_similarity sample_row
      0%nat None None = Some m
    ∧ sm_skills_match_score m = 0.5
    ∧ sm_experience_match_score m = 0.5
    ∧ sm_salary_match_score m = Fin 0.5
    ∧ sm_location_match_score m = 0.5
    ∧ sm_overall_score m
      = Fin (_calculate_overall_score (sm_semantic_score m) 0.5 0.5 0.5 0.5)
    ∧ (-1 <= sm_semantic_score m <= 1 →
       ∃ thousandths : Z,
         sm_overall_score m = Fin (to_double (inject_Z thousandths / 1000))
         ∧ Qabs (inject_Z thousandths / 1000 - (0.35 * sm_semantic_score m + 0.325))
           <= (1 # 2000) + sum_tolerance)
    ∧ sm_match_reasons m
      = semantic_reasons (sm_semantic_score m)
        ++ (if is_remote_type (job_dict_of_row sample_row) "hybrid"
            then ["Hybrid work arrangement available"%string] else [])
        ++ company_reasons (job_dict_of_row sample_row).
Proof.
  apply (calculate_job_match_without_profile elements sample_embed
           sample_similarity sample_row 0%nat None 5%nat).
  reflexivity.
Defined.

(** ** Stripping *)

Lemma rstrip_cons (c : ascii) (s : string) :
  rstrip (String c s) =
  match rstrip s with
  | EmptyString => if is_space c then EmptyString else String c EmptyString
  | r => String c r
  end.
Proof. reflexivity. Qed.

Lemma rstrip_idempotent (s : string) : rstrip (rstrip s) = rstrip s.
Proof.
  induction s as [|c s IH]; [reflexivity|]. rewrite rstrip_cons.
  destruct (rstrip s) as [|d r] eqn:E.
  - destruct (is_space c) eqn:Ec; [reflexivity|].
    rewrite rstrip_cons. simpl rstrip. rewrite Ec. reflexivity.
  - rewrite rstrip_cons, IH. reflexivity.
Qed.

Lemma lstrip_head (s : string) :
  match lstrip s with
  | EmptyString => True
  | String c _ => is_space c = false
  end.
Proof.
  induction s as [|c s IH]; simpl; [exact I|].
  destruct (is_space c) eqn:E; [exact IH|exact E].
Qed.

Lemma lstrip_fixed (s : string) :
  match s with
  | EmptyString => True
  | String c _ => is_space c = false
  end → lstrip s = s.
Proof.
  destruct s as [|c s]; [reflexivity|]. simpl. intros H. rewrite H. reflexivity.
Qed.

Lemma rstrip_head (s : string) :
  match s with
  | EmptyString => True
  | String c _ => is_space c = false
  end →
  match rstrip s with
  | EmptyString => True
  | String c _ => is_space c = false
  end.
Proof.
  destruct s as [|c s]; [exact (fun H => H)|]. simpl. intros H.
  destruct (rstrip s); [rewrite H|]; exact H.
Qed.

Lemma py_strip_idempotent (s : string) : py_strip (py_strip s) = py_strip s.
Proof.
  unfold py_strip.
  rewrite (lstrip_fixed (rstrip (lstrip s)))
    by (apply rstrip_head, lstrip_head).
  apply rstrip_idempotent.
Qed.

Lemma lstrip_all_space (s : string) : all_space s = true → lstrip s = ""%string.
Proof.
  induction s as [|c s IH]; [reflexivity|]. simpl.
  intros H. apply andb_true_iff in H. destruct H as [Hc Hs].
  rewrite Hc. apply IH. exact Hs.
Qed.

Lemma py_strip_all_space (s : string) : all_space s = true → py_strip s = ""%string.
Proof.
  intros H. unfold py_strip. rewrite (lstrip_all_space s H). reflexivity.
Qed.

Lemma is_blank_strip (s : string) : is_blank (py_strip s) = is_blank s.
Proof. unfold is_blank. rewrite py_strip_idempotent. reflexivity. Qed.

(** ** The embedding service *)

Section EmbeddingFacts.
Import EmbeddingService.
Context {vec : Type}.
Context (zeros : vec).
Context (cache_key : string → string).
Context (can_write : string → bool).

(** X6. A text of whitespace only (the empty text included) embeds to the
    zero vector; the cache is left as it was and the answer does not depend
    on the model. *)
Theorem embed_text_blank (encode : string → outcome vec) (text : string)
  (use_cache : bool) (cache : gmap string vec) :
  all_space text = true →
  embed_text zeros encode cache_key can_write text use_cache cache = (zeros, cache).
Proof.
  intros H. unfold embed_text, is_blank. rewrite (py_strip_all_space text H).
  reflexivity.
Qed.

(** X7. Once a text has been embedded with the cache on, the same text gives
    the same vector again and the cache no longer changes, whatever the
    model would now answer, provided the model answered and the cache file
    could be written.  A failure of the model gives the zero vector and
    caches nothing. *)
Theorem embed_text_cache_stable (encode encode' : string → outcome vec)
  (text : string) (cache : gmap string vec) :
  let first := embed_text zeros encode cache_key can_write text true cache in
  (can_write (cache_key (py_strip text)) = true →
   (∃ e, encode (py_strip text) = Ok e) →
   embed_text zeros encode' cache_key can_write text true (snd first) = first)
  ∧ (is_blank text = false → cache !! cache_key (py_strip text) = None →
     encode (py_strip text) = Raised → first = (zeros, cache)).
Proof.
  cbv zeta. unfold embed_text, cached, _load_from_cache, _save_to_cache. split.
  - intros Hw [e He].
    destruct (is_blank text); [reflexivity|].
    destruct (cache !! cache_key (py_strip text)) as [v|] eqn:Ec.
    + simpl. rewrite Ec. reflexivity.
    + rewrite He, Hw. simpl. rewrite lookup_insert_eq. reflexivity.
  - intros Hb Hc Hr. rewrite Hb, Hc, Hr. reflexivity.
Qed.

(** X8. Surrounding whitespace does not matter: a text and its stripped
    form give the same vector and the same cache. *)
Theorem embed_text_strip (encode : string → outcome vec) (text : string)
  (use_cache : bool) (cache : gmap string vec) :
  embed_text zeros encode cache_key can_write (py_strip text) use_cache cache
  = embed_text zeros encode cache_key can_write text use_cache cache.
Proof.
  unfold embed_text. rewrite is_blank_strip, py_strip_idempotent. reflexivity.
Qed.

Lemma scan_texts_known (i : nat) (texts : list string) (use_cache : bool)
  (cache : gmap string vec) :
  fst (scan_texts zeros cache_key i texts use_cache cache)
  = known_embedding zeros cache_key use_cache cache <$> texts.
Proof.
  revert i. induction texts as [|text rest IH]; intros i; [reflexivity|].
  simpl. unfold known_embedding at 1.
  destruct (is_blank text); [simpl; f_equal; apply IH|].
  destruct (cached cache_key use_cache cache (py_strip text));
    simpl; f_equal; apply IH.
Qed.

Lemma fill_with_nil (embeddings : list (option vec)) :
  fill_with embeddings [] = embeddings.
Proof.
  induction embeddings as [|[v|] rest IH]; simpl; [reflexivity | |]; f_equal; exact IH.
Qed.

Lemma fill_with_length (embeddings : list (option vec)) (batch : list vec) :
  length (fill_with embeddings batch) = length embeddings.
Proof.
  revert batch. induction embeddings as [|[v|] rest IH]; intros batch; simpl.
  - reflexivity.
  - f_equal. apply IH.
  - destruct batch; simpl; f_equal; apply IH.
Qed.

Lemma store_batch_scan (texts : list string) (use_cache : bool)
  (cache cache0 : gmap string vec) (i : nat) (prefix : list (option vec))
  (batch : list vec) :
  length prefix = i →
  fst (store_batch cache_key can_write
         (snd (scan_texts zeros cache_key i texts use_cache cache)) batch use_cache
         (prefix ++ fst (scan_texts zeros cache_key i texts use_cache cache)) cache0)
  = prefix ++ fill_with (fst (scan_texts zeros cache_key i texts use_cache cache)) batch.
Proof.
  revert i prefix batch cache0.
  induction texts as [|text rest IH]; intros i prefix batch cache0 Hlen.
  - simpl. destruct batch; reflexivity.
  - simpl. destruct (is_blank text).
    { simpl. rewrite !(cons_middle _ prefix), !app_assoc. apply IH.
      rewrite length_app. simpl. lia. }
    destruct (cached cache_key use_cache cache (py_strip text)) as [v|].
    { simpl. rewrite !(cons_middle _ prefix), !app_assoc. apply IH.
      rewrite length_app. simpl. lia. }
    simpl. destruct batch as [|e batch]; [rewrite fill_with_nil; reflexivity|].
    rewrite insert_app_r_alt by lia. rewrite Hlen, Nat.sub_diag. simpl.
    rewrite !(cons_middle _ prefix), !app_assoc. apply IH. rewrite length_app. simpl. lia.
Qed.

Lemma fill_zeros_scan (texts : list string) (use_cache : bool)
  (cache : gmap string vec) (i : nat) (prefix : list (option vec)) :
  length prefix = i →
  fill_zeros zeros
    (fst <$> snd (scan_texts zeros cache_key i texts use_cache cache))
    (prefix ++ fst (scan_texts zeros cache_key i texts use_cache cache))
  = prefix
    ++ fill_with (fst (scan_texts zeros cache_key i texts use_cache cache))
         (replicate
            (length (snd (scan_texts zeros cache_key i texts use_cache cache)))
            zeros).
Proof.
  revert i prefix. induction texts as [|text rest IH]; intros i prefix Hlen.
  - reflexivity.
  - simpl. destruct (is_blank text).
    { simpl. rewrite !(cons_middle _ prefix), !app_assoc. apply IH.
      rewrite length_app. simpl. lia. }
    destruct (cached cache_key use_cache cache (py_strip text)) as [v|].
    { simpl. rewrite !(cons_middle _ prefix), !app_assoc. apply IH.
      rewrite length_app. simpl. lia. }
    simpl. rewrite <- Hlen. rewrite list_lookup_middle by reflexivity.
    rewrite insert_app_r_alt by lia. rewrite Nat.sub_diag. simpl.
    rewrite !(cons_middle _ prefix), !app_assoc. apply IH. rewrite length_app. simpl. lia.
Qed.

End EmbeddingFacts.

Lemma embed_text_blank_witness :
  EmbeddingService.embed_text 0%nat sample_embed (fun s => s) (fun _ => true)
    "  " true ∅
  = (0%nat, ∅).
Proof.
  apply (embed_text_blank 0%nat (fun s => s) (fun _ => true) sample_embed "  "
           true ∅).
  reflexivity.
Defined.

Section EmbedTextsFacts.
Import EmbeddingService.
Context {vec : Type}.
Context (zeros : vec).
Context (encode_batch : list string → outcome (list vec)).
Context (cache_key : string → string).
Context (can_write : string → bool).

Lemma scan_texts_pending (i : nat) (texts : list string) (use_cache : bool)
  (cache : gmap string vec) :
  snd <$> snd (scan_texts zeros cache_key i texts use_cache cache)
  = unknown_texts zeros cache_key use_cache cache texts.
Proof.
  unfold unknown_texts. revert i.
  induction texts as [|text rest IH]; intros i; [reflexivity|].
  simpl. unfold known_embedding at 1.
  destruct (is_blank text); [simpl; apply IH|].
  destruct (cached cache_key use_cache cache (py_strip text));
    simpl; [apply IH|]. f_equal. apply IH.
Qed.

Lemma fill_known_full (texts : list string) (use_cache : bool)
  (cache : gmap string vec) (batch : list vec) :
  (length (unknown_texts zeros cache_key use_cache cache texts) <= length batch)%nat →
  Forall is_Some
    (fill_with (known_embedding zeros cache_key use_cache cache <$> texts) batch).
Proof.
  unfold unknown_texts. revert batch.
  induction texts as [|text rest IH]; intros batch Hlen; [constructor|].
  simpl in *.
  destruct (known_embedding zeros cache_key use_cache cache text) as [v|].
  - constructor; [eexists; reflexivity|]. apply IH. exact Hlen.
  - rewrite fmap_cons in Hlen. rewrite length_cons in Hlen.
    destruct batch as [|e batch]; [simpl in Hlen; lia|].
    constructor; [eexists; reflexivity|]. apply IH. simpl in Hlen. lia.
Qed.

(** X9. [embed_texts] returns one entry per text, in input order.  A blank
    text gets the zero vector and a cached text its cached vector, without
    the model; the other texts, stripped and in input order, go to the model
    in one batch, and the k-th of them gets the k-th vector of the reply.  If
    the batch call raises they all get the zero vector and the cache is
    unchanged.  No placeholder is left when the call raises or the reply has
    a vector for each text sent. *)
Theorem embed_texts_in_order (texts : list string) (use_cache : bool)
  (cache : gmap string vec) :
  let result :=
    embed_texts zeros encode_batch cache_key can_write texts use_cache cache in
  let known := known_embedding zeros cache_key use_cache cache <$> texts in
  let unknown := unknown_texts zeros cache_key use_cache cache texts in
  length (fst result) = length texts
  ∧ (unknown = [] → result = (known, cache))
  ∧ (∀ batch : list vec,
       unknown ≠ [] → encode_batch unknown = Ok batch →
       fst result = fill_with known batch
       ∧ ((length unknown <= length batch)%nat → Forall is_Some (fst result)))
  ∧ (unknown ≠ [] → encode_batch unknown = Raised →
     result = (fill_with known (replicate (length unknown) zeros), cache)
     ∧ Forall is_Some (fst result)).
Proof.
  cbv zeta. unfold embed_texts.
  destruct texts as [|text rest] eqn:Et.
  { simpl. repeat split; try reflexivity; intros; contradiction. }
  rewrite <- Et. clear Et text rest. cbv zeta.
  pose proof (scan_texts_known zeros cache_key 0 texts use_cache cache) as Hk.
  pose proof (scan_texts_pending 0 texts use_cache cache) as Hp.
  assert (Hs : ∀ batch c0,
    fst (store_batch cache_key can_write
           (snd (scan_texts zeros cache_key 0 texts use_cache cache)) batch
           use_cache (fst (scan_texts zeros cache_key 0 texts use_cache cache)) c0)
    = fill_with (fst (scan_texts zeros cache_key 0 texts use_cache cache)) batch).
  { intros batch c0.
    exact (store_batch_scan zeros cache_key can_write texts use_cache cache c0 0
             [] batch eq_refl). }
  assert (Hz :
    fill_zeros zeros
      (fst <$> snd (scan_texts zeros cache_key 0 texts use_cache cache))
      (fst (scan_texts zeros cache_key 0 texts use_cache cache))
    = fill_with (fst (scan_texts zeros cache_key 0 texts use_cache cache))
        (replicate
           (length (snd (scan_texts zeros cache_key 0 texts use_cache cache)))
           zeros)).
  { exact (fill_zeros_scan zeros cache_key texts use_cache cache 0 [] eq_refl). }
  revert Hk Hp Hs Hz.
  destruct (scan_texts zeros cache_key 0 texts use_cache cache)
    as [embeddings pending].
  cbn [fst snd]. intros Hk Hp Hs Hz. subst embeddings. rewrite <- Hp.
  destruct pending as [|p pending].
  { cbn [fst snd]. split; [apply length_fmap|]. split; [reflexivity|].
    split; intros; contradiction. }
  assert (Hne : snd <$> p :: pending ≠ []) by discriminate.
  destruct (encode_batch (snd <$> p :: pending)) as [batch|] eqn:Eb.
  - rewrite Hs. split; [rewrite fill_with_length; apply length_fmap|].
    split; [intros H; contradiction|].
    split; [|intros _ H; discriminate H].
    intros batch' _ Hb. inversion Hb; subst batch'. split; [reflexivity|].
    intros Hlen. apply fill_known_full. rewrite <- Hp. exact Hlen.
  - cbn [fst snd]. rewrite Hz.
    split; [rewrite fill_with_length; apply length_fmap|].
    split; [intros H; contradiction|].
    split; [intros batch' _ H; discriminate H|].
    intros _ _. rewrite length_fmap. split; [reflexivity|].
    apply fill_known_full. rewrite <- Hp, length_fmap, length_replicate. lia.
Qed.

End EmbedTextsFacts.

(** ** The rule-based job analysis *)

Lemma first_responsibilities_raises (job_dict : gmap string pyval) :
  first_responsibilities job_dict = Raised ↔
  (job_dict !! "responsibilities"%string = Some PyNone
   ∨ ∃ q, job_dict !! "responsibilities"%string = Some (PyNum q)).
Proof.
  unfold first_responsibilities.
  destruct (job_dict !! "responsibilities"%string) as [[|s|l|q]|]; split;
    try discriminate; try reflexivity.
  - intros _. left. reflexivity.
  - intros [H|[q H]]; discriminate H.
  - intros [H|[q H]]; discriminate H.
  - intros _. right. exists q. reflexivity.
  - intros [H|[q H]]; discriminate H.
Qed.

(** X10. The fallback analysis splits the job's skills, required first and
    preferred after, into the first five ([required_skills]) and the rest
    ([nice_to_have]): together they are the skills, in order, none lost.  It
    raises exactly when the dictionary holds [None] or a number under
    'responsibilities'; a missing key is read as no responsibilities. *)
Theorem fallback_job_analysis_split (job_dict : gmap string pyval) :
  let skills := list_field job_dict "skills_required"
                ++ list_field job_dict "skills_preferred" in
  (∀ a : JobAnalysis,
     _fallback_job_analysis job_dict = Ok a →
     required_skills a ++ nice_to_have a = skills
     ∧ (length (required_skills a) <= 5)%nat
     ∧ (job_dict !! "responsibilities"%string = None →
        key_responsibilities a = PyList [])
     ∧ (∀ l, job_dict !! "responsibilities"%string = Some (PyList l) →
          key_responsibilities a = PyList (firstn 3 l)))
  ∧ (_fallback_job_analysis job_dict = Raised ↔
     (job_dict !! "responsibilities"%string = Some PyNone
      ∨ ∃ q, job_dict !! "responsibilities"%string = Some (PyNum q))).
Proof.
  cbv zeta. unfold _fallback_job_analysis. split.
  - intros a Ha.
    destruct (first_responsibilities job_dict) as [r|] eqn:Er; [|discriminate].
    simpl in Ha. inversion Ha; subst a. simpl. clear Ha.
    set (skills := list_field job_dict "skills_required"
                   ++ list_field job_dict "skills_preferred").
    split.
    { destruct (Nat.ltb_spec 5 (length skills)) as [Hlt|Hge].
      - apply firstn_skipn.
      - rewrite app_nil_r. apply firstn_all2. exact Hge. }
    split; [rewrite length_firstn; lia|].
    unfold first_responsibilities in Er. split.
    + intros Hn. rewrite Hn in Er. inversion Er. reflexivity.
    + intros l Hl. rewrite Hl in Er. inversion Er. reflexivity.
  - rewrite <- first_responsibilities_raises.
    destruct (first_responsibilities job_dict); simpl; split;
      try discriminate; reflexivity.
Qed.

Section AnalyzerFacts.
Context {client json : Type}.
Context (llm_request : client → gmap string pyval → outcome (option string)).
Context (json_loads : string → option json).

(** X11. [analyze_job_requirements] returns the model's parsed reply only
    when a client is configured, the request gives a non-empty text and the
    text parses; in every other case, an exception in the request included,
    its outcome is that of the fallback analysis.  So it raises to its
    caller exactly when the fallback is reached and raises. *)
Theorem analyze_job_requirements_cases (self_client : option client)
  (job_dict : gmap string pyval) :
  let result := analyze_job_requirements llm_request json_loads self_client job_dict in
  (∀ reply : json,
     result = Ok (Parsed reply) ↔
     ∃ c text, self_client = Some c
       ∧ llm_request c job_dict = Ok (Some text)
       ∧ nonempty text = true ∧ json_loads text = Some reply)
  ∧ ((∀ reply : json, result ≠ Ok (Parsed reply)) →
     result = fallback_analysis job_dict).
Proof.
  cbv zeta. unfold analyze_job_requirements, analyze_body, fallback_analysis.
  assert (Hfb : ∀ reply : json,
            (try! a ← _fallback_job_analysis job_dict; Ok (RuleBased a))
            ≠ Ok (Parsed reply)).
  { intros reply. destruct (_fallback_job_analysis job_dict); simpl; discriminate. }
  destruct self_client as [c|].
  2:{ split; [|reflexivity]. intros reply. split.
      - intros H. exfalso. exact (Hfb reply H).
      - intros (c & text & Hc & _). discriminate Hc. }
  destruct (llm_request c job_dict) as [[text|]|] eqn:Er; simpl.
  - destruct (nonempty text) eqn:En.
    + destruct (json_loads text) as [reply0|] eqn:Ej.
      * split.
        -- intros reply. split.
           ++ intros H. inversion H; subst reply0. exists c, text. auto.
           ++ intros (c' & text' & Hc & Hr & _ & Hj). inversion Hc; subst c'.
              rewrite Er in Hr. inversion Hr; subst text'. rewrite Ej in Hj.
              inversion Hj. reflexivity.
        -- intros Hno. exfalso. exact (Hno reply0 eq_refl).
      * split.
        -- intros reply. split.
           ++ intros H. exfalso.
              destruct (_fallback_job_analysis job_dict); simpl in H;
                [discriminate H|]. exact (Hfb reply H).
           ++ intros (c' & text' & Hc & Hr & _ & Hj). inversion Hc; subst c'.
              rewrite Er in Hr. inversion Hr; subst text'. rewrite Ej in Hj.
              discriminate Hj.
        -- intros _. destruct (_fallback_job_analysis job_dict); reflexivity.
    + split.
      * intros reply. split.
        -- intros H. exfalso.
           destruct (_fallback_job_analysis job_dict); simpl in H;
             [discriminate H|]. exact (Hfb reply H).
        -- intros (c' & text' & Hc & Hr & Hn & _). inversion Hc; subst c'.
           rewrite Er in Hr. inversion Hr; subst text'. congruence.
      * intros _. destruct (_fallback_job_analysis job_dict); reflexivity.
  - split.
    + intros reply. split.
      * intros H. exfalso.
        destruct (_fallback_job_analysis job_dict); simpl in H;
          [discriminate H|]. exact (Hfb reply H).
      * intros (c' & text' & Hc & Hr & _). inversion Hc; subst c'.
        rewrite Er in Hr. discriminate Hr.
    + intros _. destruct (_fallback_job_analysis job_dict); reflexivity.
  - split.
    + intros reply. split.
      * intros H. exfalso. exact (Hfb reply H).
      * intros (c' & text' & Hc & Hr & _). inversion Hc; subst c'.
        rewrite Er in Hr. discriminate Hr.
    + intros _. reflexivity.
Qed.

End AnalyzerFacts.

(** ** The job page *)

Lemma detail_job_dict_responsibilities (job : JobRow) :
  detail_job_dict job !! "responsibilities"%string
  = Some (py_items (responsibilities (row_listing job))).
Proof.
  unfold detail_job_dict.
  repeat (rewrite lookup_insert_ne by discriminate).
  apply lookup_insert_eq.
Qed.

Section JobDetailFacts.
Context {client json : Type}.
Context (llm_request : client → gmap string pyval → outcome (option string)).
Context (json_loads : string → option json).
Context (explain : UserProfile → JobRow → analysis json → outcome (analysis json)).
Context (similar_jobs_of_id : string → Z → list JobMatch).

(** X12. On the job page with no language model configured, a job whose
    responsibilities column is NULL makes the fallback analysis raise, and
    the page then shows neither an analysis nor any similar job, whatever
    similar jobs exist.  With a list of responsibilities and no profile the
    page shows the rule-based analysis, with the first three
    responsibilities, and the similar jobs of limit 5. *)
Theorem job_detail_without_llm (job : JobRow) (user_profile : option UserProfile) :
  let result :=
    job_detail_ai llm_request json_loads explain similar_jobs_of_id None job
      user_profile in
  (responsibilities (row_listing job) = None → result = (None, []))
  ∧ (∀ l, responsibilities (row_listing job) = Some l → user_profile = None →
       ∃ a : JobAnalysis,
         result = (Some (RuleBased a), similar_jobs_of_id (id (row_listing job)) 5)
         ∧ key_responsibilities a = PyList (firstn 3 l)).
Proof.
  cbv zeta. unfold job_detail_ai, analyze_job_requirements, fallback_analysis,
    _fallback_job_analysis, first_responsibilities.
  rewrite detail_job_dict_responsibilities. split.
  - intros H. rewrite H. reflexivity.
  - intros l H Hp. rewrite H, Hp. simpl. eexists. split; reflexivity.
Qed.

End JobDetailFacts.

Lemma job_detail_without_llm_witness :
  job_detail_ai (client := unit) (json := unit) (fun _ _ => Raised) (fun _ => None)
    (fun _ _ a => Ok a) (fun _ _ => [sample_match 0.9 (sample_job "b")]) None
    sample_row None
  = (None, []).
Proof.
  destruct (job_detail_without_llm (client := unit) (json := unit)
              (fun _ _ => Raised) (fun _ => None) (fun _ _ a => Ok a)
              (fun _ _ => [sample_match 0.9 (sample_job "b")]) sample_row None)
    as [Hnull _].
  apply Hnull. reflexivity.
Defined.

(** X13. The job page passes its scores under the keys 'overall', 'skills',
    'experience' and 'salary', while the fallback explanation reads
    'overall_score': without a language model the page always shows the
    text of the lowest tier, whatever the overall score of the match. *)
Theorem job_page_explanation_lowest_tier (job_dict : gmap string (option string))
  (job_match : JobMatch) :
  detail_match_scores job_match !! "overall_score"%string = None
  ∧ _fallback_match_explanation job_dict (detail_match_scores job_match)
    = ("This " +:+ get_text job_dict "title" "position"
       +:+ " role might be a stretch, but could offer growth opportunities. Consider whether you're ready to take on new challenges in areas where you have less experience.")%string.
Proof.
  assert (H : detail_match_scores job_match !! "overall_score"%string = None).
  { unfold detail_match_scores.
    repeat (rewrite lookup_insert_ne by discriminate).
    apply lookup_singleton_ne. discriminate. }
  split; [exact H|].
  unfold _fallback_match_explanation. rewrite H. reflexivity.
Qed.

(** ** The explanation with a language model *)

Lemma rstrip_empty (s : string) : rstrip s = ""%string → all_space s = true.
Proof.
  induction s as [|c s IH]; [reflexivity|]. rewrite rstrip_cons. simpl.
  destruct (rstrip s) as [|d r]; [|discriminate].
  destruct (is_space c); [|discriminate]. intros _. apply IH. reflexivity.
Qed.

Lemma lstrip_empty (s : string) : lstrip s = ""%string → all_space s = true.
Proof.
  induction s as [|c s IH]; [reflexivity|]. simpl.
  destruct (is_space c); [exact IH|discriminate].
Qed.

Lemma py_strip_empty (s : string) : py_strip s = ""%string ↔ all_space s = true.
Proof.
  split; [|apply py_strip_all_space].
  unfold py_strip. intros H. apply rstrip_empty in H.
  pose proof (lstrip_head s) as Hh.
  destruct (lstrip s) as [|c r] eqn:E; [apply lstrip_empty; exact E|].
  simpl in H. rewrite Hh in H. discriminate H.
Qed.

Section ExplanationReplyFacts.
Context {client profile : Type}.
Context (llm_request :
  client → gmap string (option string) → profile → gmap string Q
  → outcome (option string)).

(** X14. With a client configured, [generate_match_explanation] returns the
    stripped reply when the request gives a non-empty one, and the
    rule-based text otherwise (no reply, an empty reply, an exception).  The
    explanation is the empty string exactly when the reply is non-empty and
    made of whitespace only. *)
Theorem explanation_with_llm (c : client) (job_dict : gmap string (option string))
  (user_profile : profile) (match_scores : gmap string Q) :
  let text :=
    generate_match_explanation llm_request py_strip (Some c) job_dict user_profile
      match_scores in
  let reply := llm_request c job_dict user_profile match_scores in
  (∀ r, reply = Ok (Some r) → nonempty r = true → text = py_strip r)
  ∧ (reply = Raised ∨ reply = Ok None ∨ reply = Ok (Some ""%string) →
     text = _fallback_match_explanation job_dict match_scores)
  ∧ (text = ""%string ↔
     ∃ r, reply = Ok (Some r) ∧ nonempty r = true ∧ all_space r = true).
Proof.
  cbv zeta. unfold generate_match_explanation.
  pose proof (fallback_nonempty job_dict match_scores) as Hfb.
  destruct (llm_request c job_dict user_profile match_scores) as [[r|]|] eqn:Er;
    unfold obind, except.
  - destruct (nonempty r) eqn:En.
    + split; [intros r' H _; inversion H; reflexivity|].
      split; [intros [H|[H|H]]; try discriminate H; inversion H; subst r;
              discriminate En|].
      rewrite py_strip_empty. split.
      * intros H. exists r. auto.
      * intros (r' & H & _ & Ha). inversion H; subst r'. exact Ha.
    + split; [intros r' H Hn; inversion H; subst r'; congruence|].
      split; [reflexivity|]. split.
      * intros H. contradiction.
      * intros (r' & H & Hn & _). inversion H; subst r'. congruence.
  - split; [intros r' H; discriminate H|]. split; [reflexivity|]. split.
    + intros H. contradiction.
    + intros (r' & H & _). discriminate H.
  - split; [intros r' H; discriminate H|]. split; [reflexivity|]. split.
    + intros H. contradiction.
    + intros (r' & H & _). discriminate H.
Qed.

End ExplanationReplyFacts.

(** ** The rule-based skill gaps *)

Section SkillGapsFacts.
Context (list_of_set : gset string → list string).
(** [list(s)] lists the elements of [s], each once. *)
Hypothesis list_of_set_elements : ∀ (s : gset string) (x : string),
  x ∈ list_of_set s ↔ x ∈ s.
Hypothesis list_of_set_length : ∀ s : gset string, length (list_of_set s) = size s.

(** X15. In the fallback skill-gap report every missing skill is a required
    skill the user does not list, the matching skills are the required
    skills the user lists, both compared as written; at most five missing
    skills are reported, the learning priorities are the first three of
    them, and the time estimates are given for exactly those. *)
Theorem fallback_skill_gaps_report (job_dict : JobDict) (user_profile : UserProfile) :
  let gaps := _fallback_skill_gaps list_of_set job_dict user_profile in
  let required := items_of (jd_skills_required job_dict) in
  let user := items_of (up_skills user_profile) in
  (∀ x, x ∈ missing_skills gaps → x ∈ required ∧ x ∉ user)
  ∧ (∀ x, x ∈ matching_skills gaps ↔ x ∈ required ∧ x ∈ user)
  ∧ (length (missing_skills gaps) <= 5)%nat
  ∧ learning_priorities gaps = firstn 3 (missing_skills gaps)
  ∧ dom (time_estimates gaps) = list_to_set (learning_priorities gaps)
  ∧ ((size (list_to_set required ∖ list_to_set user : gset string) <= 5)%nat →
     ∀ x, x ∈ required → x ∉ user → x ∈ missing_skills gaps).
Proof.
  cbv zeta. unfold _fallback_skill_gaps. simpl.
  split; [|split; [|split; [|split; [|split]]]].
  - intros x Hx.
    assert (Hin : x ∈ list_of_set
              (list_to_set (items_of (jd_skills_required job_dict))
               ∖ list_to_set (items_of (up_skills user_profile)))).
    { apply list_elem_of_In. apply list_elem_of_In in Hx.
      exact (In_firstn _ _ _ Hx). }
    apply list_of_set_elements in Hin.
    apply elem_of_difference in Hin. destruct Hin as [H1 H2].
    rewrite elem_of_list_to_set in H1. rewrite elem_of_list_to_set in H2.
    split; assumption.
  - intros x. rewrite list_of_set_elements, elem_of_intersection.
    rewrite !elem_of_list_to_set. reflexivity.
  - rewrite length_firstn. lia.
  - rewrite firstn_firstn. reflexivity.
  - rewrite dom_list_to_map_L. f_equal.
    rewrite <- list_fmap_compose. apply list_fmap_id.
  - intros Hsize x Hr Hu.
    rewrite firstn_all2 by (rewrite list_of_set_length; exact Hsize).
    apply list_of_set_elements. apply elem_of_difference.
    rewrite !elem_of_list_to_set. split; assumption.
Qed.

End SkillGapsFacts.

Lemma fallback_skill_gaps_report_witness :
  let gaps :=
    _fallback_skill_gaps elements
      (job_with_skills (Some ["Python"; "SQL"]%string) None)
      (profile_with_skills (Some ["python"; "SQL"]%string)) in
  let required := ["Python"; "SQL"]%string in
  let user := ["python"; "SQL"]%string in
  (∀ x, x ∈ missing_skills gaps → x ∈ required ∧ x ∉ user)
  ∧ (∀ x, x ∈ matching_skills gaps ↔ x ∈ required ∧ x ∈ user)
  ∧ (length (missing_skills gaps) <= 5)%nat
  ∧ learning_priorities gaps = firstn 3 (missing_skills gaps)
  ∧ dom (time_estimates gaps) = list_to_set (learning_priorities gaps)
  ∧ ((size (list_to_set required ∖ list_to_set user : gset string) <= 5)%nat →
     ∀ x, x ∈ required → x ∉ user → x ∈ missing_skills gaps).
Proof.
  apply (fallback_skill_gaps_report elements
           (fun s x => elem_of_elements s x) (fun s => eq_refl)
           (job_with_skills (Some ["Python"; "SQL"]%string) None)
           (profile_with_skills (Some ["python"; "SQL"]%string))).
Defined.

Lemma lower_ascii_idempotent (c : ascii) :
  lower_ascii (lower_ascii c) = lower_ascii c.
Proof.
  destruct c as [[] [] [] [] [] [] [] []]; reflexivity.
Qed.

Lemma lower_idempotent (s : string) : lower (lower s) = lower s.
Proof.
  induction s as [|c s IH]; [reflexivity|]. simpl.
  rewrite lower_ascii_idempotent, IH. reflexivity.
Qed.

Section CaseOfSkills.
Context (list_of_set : gset string → list string).
Hypothesis list_of_set_elements : ∀ (s : gset string) (x : string),
  x ∈ list_of_set s ↔ x ∈ s.
Hypothesis list_of_set_length : ∀ s : gset string, length (list_of_set s) = size s.

Lemma list_of_singleton (x : string) : list_of_set {[ x ]} = [x].
Proof.
  pose proof (list_of_set_length {[ x ]}) as Hlen. rewrite size_singleton in Hlen.
  destruct (list_of_set {[ x ]}) as [|y [|z l]] eqn:E; try discriminate Hlen.
  f_equal. assert (Hy : y ∈ list_of_set {[ x ]}) by (rewrite E; left).
  apply list_of_set_elements in Hy. apply elem_of_singleton in Hy. exact Hy.
Qed.

Lemma list_of_empty : list_of_set ∅ = [].
Proof.
  pose proof (list_of_set_length ∅) as Hlen. rewrite size_empty in Hlen.
  destruct (list_of_set ∅); [reflexivity|discriminate Hlen].
Qed.

(** X16. The skills score and the skill-gap report disagree on case.  For a
    skill written with an upper-case letter that the job requires and the
    user lists in lower case, the skills score is 1.0 (a full match), while
    the fallback report lists the skill as missing and finds no matching
    skill. *)
Theorem skills_case_disagreement (skill : string) :
  lower skill ≠ skill →
  let job := job_with_skills (Some [skill]) None in
  let profile := profile_with_skills (Some [lower skill]) in
  _calculate_skills_match job (Some profile) == 1
  ∧ missing_skills (_fallback_skill_gaps list_of_set job profile) = [skill]
  ∧ matching_skills (_fallback_skill_gaps list_of_set job profile) = [].
Proof.
  intros Hne. cbv zeta. split; [|split].
  - rewrite (skills_match_unfold (job_with_skills (Some [skill]) None)
               (profile_with_skills (Some [lower skill])) (lower skill) [] eq_refl).
    assert (Hj : job_skills_union (job_with_skills (Some [skill]) None)
                 = {[ lower skill ]}).
    { unfold job_skills_union, lower_set. simpl.
      apply (right_id_L ∅ (∪)). }
    rewrite Hj.
    assert (Hu : lower_set [lower skill] = {[ lower skill ]}).
    { unfold lower_set. simpl. rewrite lower_idempotent.
      apply (right_id_L ∅ (∪)). }
    rewrite Hu.
    destruct (decide ({[ lower skill ]} = (∅ : gset string))) as [He|_].
    { exfalso. exact (non_empty_singleton_L (lower skill) He). }
    replace ({[ lower skill ]} ∩ {[ lower skill ]} : gset string)
      with ({[ lower skill ]} : gset string)
      by (symmetry; apply (idemp_L (∩))).
    rewrite size_singleton. reflexivity.
  - unfold _fallback_skill_gaps. simpl.
    replace ((({[ skill ]} ∪ ∅) ∖ ({[ lower skill ]} ∪ ∅)) : gset string)
      with ({[ skill ]} : gset string).
    + rewrite list_of_singleton. reflexivity.
    + apply set_eq. intros x.
      rewrite elem_of_difference, !elem_of_union, !elem_of_singleton.
      rewrite elem_of_empty. split.
      * intros Hx. subst x. split; [left; reflexivity|].
        intros [H|[]]. apply Hne. symmetry. exact H.
      * intros [[H|[]] _]. exact H.
  - unfold _fallback_skill_gaps. simpl.
    replace ((({[ skill ]} ∪ ∅) ∩ ({[ lower skill ]} ∪ ∅)) : gset string)
      with (∅ : gset string).
    + apply list_of_empty.
    + apply set_eq. intros x.
      rewrite elem_of_intersection, !elem_of_union, !elem_of_singleton.
      rewrite elem_of_empty. split.
      * intros [].
      * intros [[H1|[]] [H2|[]]]. apply Hne. congruence.
Qed.

End CaseOfSkills.

Lemma skills_case_disagreement_witness :
  _calculate_skills_match (job_with_skills (Some ["Python"%string]) None)
    (Some (profile_with_skills (Some [lower "Python"]))) == 1
  ∧ missing_skills
      (_fallback_skill_gaps elements (job_with_skills (Some ["Python"%string]) None)
         (profile_with_skills (Some [lower "Python"])))
    = ["Python"%string]
  ∧ matching_skills
      (_fallback_skill_gaps elements (job_with_skills (Some ["Python"%string]) None)
         (profile_with_skills (Some [lower "Python"])))
    = [].
Proof.
  apply (skills_case_disagreement elements
           (fun s x => elem_of_elements s x) (fun s => eq_refl) "Python").
  vm_compute. discriminate.
Defined.

(** ** The profile text of the prompts *)

Lemma nonempty_append (a b : string) : nonempty a = true → nonempty (a +:+ b) = true.
Proof. destruct a; [discriminate|reflexivity]. Qed.

Lemma nonempty_concat (sep x : string) (xs : list string) :
  nonempty x = true → nonempty (String.concat sep (x :: xs)) = true.
Proof.
  intros H. simpl. destruct xs; [exact H|]. apply nonempty_append. exact H.
Qed.

Lemma labelled_text_nonempty (label : string) (x : option string) :
  nonempty label = true → Forall (fun p => nonempty p = true) (labelled_text label x).
Proof.
  intros H. unfold labelled_text. destruct x as [s|]; [|constructor].
  destruct (nonempty s); constructor; [|constructor]. apply nonempty_append, H.
Qed.

Lemma labelled_list_nonempty (label : string) (x : option (list string)) :
  nonempty label = true → Forall (fun p => nonempty p = true) (labelled_list label x).
Proof.
  intros H. unfold labelled_list. destruct x as [[|s l]|]; try constructor;
    [|constructor]. apply nonempty_append, H.
Qed.

(** X17. [_prepare_profile_text] never returns the empty string, whatever
    the profile holds: each part it writes starts with its label, and a
    profile with none of the six fields gives a fixed sentence instead. *)
Theorem prepare_profile_text_nonempty (str_of_int : Z → string)
  (user_profile : ProfileText) :
  nonempty (_prepare_profile_text str_of_int user_profile) = true.
Proof.
  unfold _prepare_profile_text.
  set (parts := labelled_text "Current Role: " (pt_current_title user_profile)
    ++ (match up_experience_years (pt_profile user_profile) with
        | Some years =>
            if (years =? 0)%Z then []
            else ["Years of Experience: " +:+ str_of_int years]
        | None => []
        end)
    ++ labelled_text "Industry: " (pt_industry user_profile)
    ++ labelled_list "Skills: " (up_skills (pt_profile user_profile))
    ++ labelled_list "Preferred Roles: " (pt_preferred_titles user_profile)
    ++ labelled_list "Preferred Locations: "
         (up_preferred_locations (pt_profile user_profile))).
  assert (Hall : Forall (fun p => nonempty p = true) parts).
  { unfold parts. repeat apply Forall_app_2;
      try (apply labelled_text_nonempty; reflexivity);
      try (apply labelled_list_nonempty; reflexivity).
    destruct (up_experience_years (pt_profile user_profile)) as [y|];
      [|constructor].
    destruct (y =? 0)%Z; constructor; [reflexivity|constructor]. }
  destruct parts as [|p rest]; [reflexivity|].
  apply nonempty_concat. inversion Hall; assumption.
Qed.

(** ** Pages of the search route *)

Lemma firstn_min_length {A : Type} (n : nat) (l : list A) :
  firstn (Nat.min n (length l)) l = firstn n l.
Proof.
  destruct (Nat.le_ge_cases n (length l)) as [H|H].
  - rewrite Nat.min_l by exact H. reflexivity.
  - rewrite Nat.min_r by exact H. rewrite firstn_all. symmetry.
    apply firstn_all2. exact H.
Qed.

Lemma py_slice_nonneg {A : Type} (l : list A) (a n : Z) :
  (0 <= a)%Z → (0 <= n)%Z →
  py_slice l a (a + n) = firstn (Z.to_nat n) (skipn (Z.to_nat a) l).
Proof.
  intros Ha Hn. unfold py_slice, slice_index.
  destruct (Z.ltb_spec a 0); [lia|]. destruct (Z.ltb_spec (a + n) 0); [lia|].
  destruct (Nat.le_ge_cases (length l) (Z.to_nat a)) as [Hge|Hlt].
  - rewrite (Nat.min_r (Z.to_nat a)) by exact Hge.
    rewrite (Nat.min_r (Z.to_nat (a + n))) by lia.
    rewrite Nat.sub_diag. rewrite firstn_0.
    rewrite (skipn_all2 l) by exact Hge. rewrite firstn_nil. reflexivity.
  - rewrite (Nat.min_l (Z.to_nat a)) by exact Hlt.
    rewrite <- (firstn_min_length (Z.to_nat n)). rewrite length_skipn.
    f_equal. lia.
Qed.

Lemma page_matches_chunk {A : Type} (all_matches : list A) (page per_page : Z) :
  (1 <= page)%Z → (1 <= per_page)%Z →
  page_matches all_matches page per_page
  = firstn (Z.to_nat per_page)
      (skipn (Z.to_nat (page - 1) * Z.to_nat per_page) all_matches).
Proof.
  intros Hp Hpp. unfold page_matches. cbv zeta.
  rewrite py_slice_nonneg by nia.
  rewrite Z2Nat.inj_mul by lia. reflexivity.
Qed.

Lemma chunks_cover {A : Type} (n k : nat) (l : list A) :
  skipn (k * n) l = firstn n (skipn (k * n) l) ++ skipn (S k * n) l.
Proof.
  rewrite <- (firstn_skipn n (skipn (k * n) l)) at 1. f_equal.
  rewrite skipn_skipn. reflexivity.
Qed.

Lemma first_five_pages {A : Type} (all_matches : list A) (per_page : Z) :
  (1 <= per_page)%Z →
  (Z.of_nat (length all_matches) <= per_page * 5)%Z →
  page_matches all_matches 1 per_page ++ page_matches all_matches 2 per_page
  ++ page_matches all_matches 3 per_page ++ page_matches all_matches 4 per_page
  ++ page_matches all_matches 5 per_page = all_matches.
Proof.
  intros Hpp Hlen. rewrite !page_matches_chunk by lia.
  change (Z.to_nat (1 - 1)) with 0%nat. change (Z.to_nat (2 - 1)) with 1%nat.
  change (Z.to_nat (3 - 1)) with 2%nat. change (Z.to_nat (4 - 1)) with 3%nat.
  change (Z.to_nat (5 - 1)) with 4%nat.
  set (n := Z.to_nat per_page).
  assert (Hend : skipn (5 * n) all_matches = []).
  { apply skipn_all2. unfold n. lia. }
  transitivity (skipn (0 * n) all_matches); [|reflexivity].
  rewrite (chunks_cover n 0 all_matches) at 2.
  rewrite (chunks_cover n 1 all_matches) at 2.
  rewrite (chunks_cover n 2 all_matches) at 2.
  rewrite (chunks_cover n 3 all_matches) at 2.
  rewrite (chunks_cover n 4 all_matches) at 2.
  rewrite Hend, app_nil_r. reflexivity.
Qed.

Lemma page_past_the_end {A : Type} (all_matches : list A) (page per_page : Z) :
  (1 <= per_page)%Z → (1 <= page)%Z →
  (Z.of_nat (length all_matches) <= (page - 1) * per_page)%Z →
  page_matches all_matches page per_page = [].
Proof.
  intros Hpp Hp Hlen. rewrite page_matches_chunk by lia.
  rewrite skipn_all2 by nia. apply firstn_nil.
Qed.

(** X18. The pages of a result list of at most 5 * per_page matches: page
    p (from 1) holds at most per_page matches, those from position
    (p-1) * per_page on; pages 1 to 5 together are the whole list, in order;
    every later page is empty. *)
Theorem pages_partition {A : Type} (all_matches : list A) (per_page : Z) :
  (1 <= per_page)%Z →
  (Z.of_nat (length all_matches) <= per_page * 5)%Z →
  page_matches all_matches 1 per_page ++ page_matches all_matches 2 per_page
  ++ page_matches all_matches 3 per_page ++ page_matches all_matches 4 per_page
  ++ page_matches all_matches 5 per_page = all_matches
  ∧ (∀ page, (1 <= page)%Z →
       page_matches all_matches page per_page
       = firstn (Z.to_nat per_page)
           (skipn (Z.to_nat ((page - 1) * per_page)) all_matches)
       ∧ (Z.of_nat (length (page_matches all_matches page per_page)) <= per_page)%Z)
  ∧ (∀ page, (6 <= page)%Z → page_matches all_matches page per_page = []).
Proof.
  intros Hpp Hlen. split; [|split].
  - apply first_five_pages; assumption.
  - intros page Hp. rewrite page_matches_chunk by lia. split.
    + rewrite Z2Nat.inj_mul by lia. reflexivity.
    + rewrite length_firstn. lia.
  - intros page Hp. apply page_past_the_end; [lia|lia|nia].
Qed.

Lemma pages_partition_witness :
  page_matches [1; 2; 3; 4; 5; 6; 7]%nat 1 2 ++ page_matches [1; 2; 3; 4; 5; 6; 7]%nat 2 2
  ++ page_matches [1; 2; 3; 4; 5; 6; 7]%nat 3 2
  ++ page_matches [1; 2; 3; 4; 5; 6; 7]%nat 4 2
  ++ page_matches [1; 2; 3; 4; 5; 6; 7]%nat 5 2 = [1; 2; 3; 4; 5; 6; 7]%nat
  ∧ (∀ page, (1 <= page)%Z →
       page_matches [1; 2; 3; 4; 5; 6; 7]%nat page 2
       = firstn (Z.to_nat 2)
           (skipn (Z.to_nat ((page - 1) * 2)) [1; 2; 3; 4; 5; 6; 7]%nat)
       ∧ (Z.of_nat (length (page_matches [1; 2; 3; 4; 5; 6; 7]%nat page 2)) <= 2)%Z)
  ∧ (∀ page, (6 <= page)%Z → page_matches [1; 2; 3; 4; 5; 6; 7]%nat page 2 = []).
Proof.
  apply (pages_partition [1; 2; 3; 4; 5; 6; 7]%nat 2); simpl; lia.
Defined.

Section SearchRouteFacts.
Context {vec SearchFilters : Type}.
Context (embed_text : string → outcome vec).
Context (embed_user_profile : UserProfile → outcome vec).
Context (_get_filtered_jobs : option SearchFilters → list JobRow).
Context (_calculate_job_match :
  JobRow → vec → option vec → option UserProfile → outcome (option ScoredMatch)).

(** X19. The search route asks for 5 * per_page matches and cuts pages out
    of them: for a non-blank query pages 1 to 5 together show the whole
    search result, in rank order, and any later page shows nothing, however
    many jobs match; a blank query shows nothing on any page. *)
Theorem search_route_pages (q : string) (per_page : Z)
  (user_profile : option UserProfile) (filters : SearchFilters) :
  (1 <= per_page)%Z →
  let shown := fun page =>
    search_route_matches embed_text embed_user_profile _get_filtered_jobs
      _calculate_job_match q page per_page user_profile filters in
  (nonempty (py_strip q) = true →
   shown 1%Z ++ shown 2%Z ++ shown 3%Z ++ shown 4%Z ++ shown 5%Z
   = search_jobs_semantic embed_text embed_user_profile _get_filtered_jobs
       _calculate_job_match (py_strip q) user_profile (Some filters) (per_page * 5))
  ∧ (∀ page, (6 <= page)%Z → shown page = [])
  ∧ (all_space q = true → ∀ page, shown page = []).
Proof.
  intros Hpp. cbv zeta. unfold search_route_matches. cbv zeta.
  pose proof (search_result_length embed_text embed_user_profile
                _get_filtered_jobs _calculate_job_match (py_strip q) user_profile
                (Some filters) (per_page * 5) ltac:(lia)) as Hlen.
  split; [|split].
  - intros Hq. rewrite Hq. apply first_five_pages; assumption.
  - intros page Hp. destruct (nonempty (py_strip q)); [|reflexivity].
    apply page_past_the_end; [lia|lia|nia].
  - intros Hb page. rewrite (py_strip_all_space q Hb). reflexivity.
Qed.

End SearchRouteFacts.

Lemma search_route_pages_witness :
  let shown := fun page =>
    search_route_matches sample_embed (fun _ => sample_embed "")
      salary_table sample_scoring " python " page 1 None tt in
  (nonempty (py_strip " python ") = true →
   shown 1%Z ++ shown 2%Z ++ shown 3%Z ++ shown 4%Z ++ shown 5%Z
   = search_jobs_semantic sample_embed (fun _ => sample_embed "") salary_table
       sample_scoring (py_strip " python ") None (Some tt) (1 * 5))
  ∧ (∀ page, (6 <= page)%Z → shown page = [])
  ∧ (all_space " python " = true → ∀ page, shown page = []).
Proof.
  apply (search_route_pages sample_embed (fun _ => sample_embed "") salary_table
           sample_scoring " python " 1 None tt).
  lia.
Defined.

(** ** The growth reason *)

Lemma title_from_cons (b : bool) (c : ascii) (s : string) :
  title_from b (String c s)
  = String
      (if is_lower_ascii c then (if b then c else upper_ascii c)
       else if is_upper_ascii c then (if b then lower_ascii c else c) else c)
      (title_from (is_lower_ascii c || is_upper_ascii c) s).
Proof.
  simpl. destruct (is_lower_ascii c); [reflexivity|].
  destruct (is_upper_ascii c); reflexivity.
Qed.

Lemma title_char_lower (b : bool) (c : ascii) :
  let c1 := if Ascii.eqb (lower_ascii c) "_" then " "%char else lower_ascii c in
  let c2 := if Ascii.eqb c "_" then " "%char else c in
  (if is_lower_ascii c1 then (if b then c1 else upper_ascii c1)
   else if is_upper_ascii c1 then (if b then lower_ascii c1 else c1) else c1)
  = (if is_lower_ascii c2 then (if b then c2 else upper_ascii c2)
     else if is_upper_ascii c2 then (if b then lower_ascii c2 else c2) else c2)
  ∧ is_lower_ascii c1 || is_upper_ascii c1 = is_lower_ascii c2 || is_upper_ascii c2.
Proof.
  destruct c as [[] [] [] [] [] [] [] []]; destruct b; vm_compute; split; reflexivity.
Qed.

Lemma title_from_lower_char (b : bool) (c : ascii) (s s' : string) :
  (∀ b', title_from b' s = title_from b' s') →
  title_from b
    (String (if Ascii.eqb (lower_ascii c) "_" then " "%char else lower_ascii c) s)
  = title_from b (String (if Ascii.eqb c "_" then " "%char else c) s').
Proof.
  intros H. rewrite !title_from_cons.
  destruct (title_char_lower b c) as [Hh Hc]. cbv zeta in Hh, Hc.
  rewrite Hh, Hc, H. reflexivity.
Qed.

(** [title()] after [replace] does not see the case the level is written
    in. *)
Lemma title_from_lower (b : bool) (s : string) :
  title_from b (underscores_to_spaces (lower s))
  = title_from b (underscores_to_spaces s).
Proof.
  revert b. induction s as [|c s IH]; intros b; [reflexivity|].
  cbn [lower underscores_to_spaces]. apply title_from_lower_char. exact IH.
Qed.

Lemma growth_reason_of_level (job_dict : JobDict) (key level_name : string) :
  lower (or_empty (jd_experience_level job_dict)) = key →
  nonempty key = true →
  title_case (underscores_to_spaces key) = level_name →
  nonempty level_name = true →
  match jd_experience_level job_dict with
  | None => Raised
  | Some level =>
      let job_level := title_case (underscores_to_spaces level) in
      if nonempty job_level
      then Ok ["Consider this " +:+ job_level +:+ " opportunity for growth"]
      else Ok []
  end
  = Ok ["Consider this " +:+ level_name +:+ " opportunity for growth"].
Proof.
  intros Hk Hne Ht Hn.
  destruct (jd_experience_level job_dict) as [level|].
  - cbv zeta. simpl or_empty in Hk. unfold title_case in *.
    rewrite <- title_from_lower, Hk, Ht, Hn. reflexivity.
  - simpl in Hk. subst key. discriminate Hne.
Qed.

Lemma under_qualified_gap (gap : Z) :
  Qmax 0 (1 - inject_Z gap / 5) < 0.4 → (3 < gap)%Z.
Proof.
  intros H. pose proof (Q.le_max_r 0 (1 - inject_Z gap / 5)) as Hm.
  set (m := Qmax 0 (1 - inject_Z gap / 5)) in *.
  assert (Hd : inject_Z gap / 5 == inject_Z gap * (1 # 5)) by reflexivity.
  rewrite Hd in Hm. rewrite Zlt_Qlt. change (inject_Z 3) with 3. lra.
Qed.

(** X20. For a user with a positive number of years the reason on
    experience is always defined, and the growth reason appears only for a
    job whose level asks for more than three years beyond the user's: it can
    name the levels Senior Level, Director and Executive only, in that
    spelling whatever the case the job's level is written in. *)
Theorem growth_reason_levels (job_dict : JobDict) (profile : UserProfile)
  (years : Z) :
  up_experience_years profile = Some years → (0 <= years)%Z →
  ∃ part : list string,
    experience_reasons job_dict
      (_calculate_experience_match job_dict (Some profile)) = Ok part
    ∧ (part = []
       ∨ part = ["Perfect experience level match"%string]
       ∨ part = ["Good experience level alignment"%string]
       ∨ ∃ (level_name : string) (min_years max_years : Z),
           level_to_years !! lower (or_empty (jd_experience_level job_dict))
           = Some (min_years, max_years)
           ∧ (years + 3 < min_years)%Z
           ∧ In level_name ["Senior Level"; "Director"; "Executive"]%string
           ∧ part = ["Consider this " +:+ level_name
                     +:+ " opportunity for growth"]%string).
Proof.
  intros Hy Hpos. unfold experience_reasons.
  destruct (Qltb 0.8 _); [eexists; split; [reflexivity|tauto]|].
  destruct (Qltb 0.6 _); [eexists; split; [reflexivity|tauto]|].
  destruct (Qltb _ 0.4) eqn:E; [|eexists; split; [reflexivity|tauto]].
  apply Qltb_lt in E. unfold _calculate_experience_match in E. rewrite Hy in E.
  destruct (negb (truthy_int (Some years))); [lra|].
  destruct (level_to_years !! lower (or_empty (jd_experience_level job_dict)))
    as [[mn mx]|] eqn:Hl; [|lra].
  destruct ((mn <=? years)%Z && (years <=? mx)%Z); [lra|].
  destruct (Z.ltb_spec years mn) as [Hlt|Hge].
  2:{ pose proof (Q.le_max_l 0.6 (1 - inject_Z (years - mx) / 10)). lra. }
  apply under_qualified_gap in E.
  pose proof Hl as Hin. unfold level_to_years in Hin.
  apply elem_of_list_to_map_2 in Hin.
  repeat (apply elem_of_cons in Hin; destruct Hin as [Hin|Hin]);
    try (apply elem_of_nil in Hin; contradiction);
    injection Hin as Hk Hmn Hmx; subst mn mx; try lia.
  - exists ["Consider this Senior Level opportunity for growth"%string].
    split; [apply (growth_reason_of_level job_dict "senior_level" "Senior Level");
            [exact Hk|reflexivity|reflexivity|reflexivity]|].
    right. right. right. exists "Senior Level"%string, 5%Z, 12%Z.
    split; [reflexivity|]. split; [lia|]. split; [simpl; tauto|reflexivity].
  - exists ["Consider this Director opportunity for growth"%string].
    split; [apply (growth_reason_of_level job_dict "director" "Director");
            [exact Hk|reflexivity|reflexivity|reflexivity]|].
    right. right. right. exists "Director"%string, 8%Z, 20%Z.
    split; [reflexivity|]. split; [lia|]. split; [simpl; tauto|reflexivity].
  - exists ["Consider this Executive opportunity for growth"%string].
    split; [apply (growth_reason_of_level job_dict "executive" "Executive");
            [exact Hk|reflexivity|reflexivity|reflexivity]|].
    right. right. right. exists "Executive"%string, 10%Z, 30%Z.
    split; [reflexivity|]. split; [lia|]. split; [simpl; tauto|reflexivity].
Qed.

Lemma growth_reason_levels_witness :
  ∃ part : list string,
    experience_reasons (job_with_level (Some "SENIOR_LEVEL"%string))
      (_calculate_experience_match (job_with_level (Some "SENIOR_LEVEL"%string))
         (Some (profile_with_years (Some 1%Z)))) = Ok part
    ∧ (part = []
       ∨ part = ["Perfect experience level match"%string]
       ∨ part = ["Good experience level alignment"%string]
       ∨ ∃ (level_name : string) (min_years max_years : Z),
           level_to_years
             !! lower (or_empty (jd_experience_level
                                   (job_with_level (Some "SENIOR_LEVEL"%string))))
           = Some (min_years, max_years)
           ∧ (1 + 3 < min_years)%Z
           ∧ In level_name ["Senior Level"; "Director"; "Executive"]%string
           ∧ part = ["Consider this " +:+ level_name
                     +:+ " opportunity for growth"]%string).
Proof.
  apply (growth_reason_levels (job_with_level (Some "SENIOR_LEVEL"%string))
           (profile_with_years (Some 1%Z)) 1%Z).
  - reflexivity.
  - lia.
Defined.

(** ** Search suggestions *)

Section SuggestionsFacts.
Context (list_of_set : gset string → list string).
Context (str_lower : string → string).
Context (str_len : string → nat).
(** [list(s)] lists elements of [s]. *)
Hypothesis list_of_set_sound : ∀ (s : gset string) (x : string),
  x ∈ list_of_set s → x ∈ s.

Lemma job_suggestions_spec (query : string) (job : JobListingDB)
  (found : gset string) (s : string) :
  job_suggestions str_lower query job = Ok found →
  (s ∈ found ↔
   py_in query (str_lower s) = true
   ∧ (title job = Some s ∨ s ∈ items_of (skills_required job))).
Proof.
  unfold job_suggestions. destruct (title job) as [t|]; [|discriminate].
  intros H. inversion H; subst found. clear H.
  rewrite elem_of_union, elem_of_list_to_set, list_elem_of_In, filter_In.
  rewrite <- list_elem_of_In. split.
  - intros [Ht|[Hs Hq]].
    + destruct (py_in query (str_lower t)) eqn:E.
      * apply elem_of_singleton in Ht. subst s. split; [exact E|left; reflexivity].
      * apply elem_of_empty in Ht. contradiction.
    + split; [exact Hq|right; exact Hs].
  - intros [Hq [Ht|Hs]].
    + left. inversion Ht; subst t. rewrite Hq. apply elem_of_singleton. reflexivity.
    + right. split; assumption.
Qed.

Lemma collect_suggestions_spec (query : string) (recent_jobs : list JobListingDB)
  (found : gset string) (s : string) :
  collect_suggestions str_lower query recent_jobs = Ok found →
  (s ∈ found ↔
   py_in query (str_lower s) = true
   ∧ ∃ job, job ∈ recent_jobs
       ∧ (title job = Some s ∨ s ∈ items_of (skills_required job))).
Proof.
  revert found. induction recent_jobs as [|job rest IH]; intros found H.
  - simpl in H. inversion H; subst found. split.
    + intros Hs. apply elem_of_empty in Hs. contradiction.
    + intros (_ & job & Hj & _). apply elem_of_nil in Hj. contradiction.
  - simpl in H.
    destruct (job_suggestions str_lower query job) as [here|] eqn:Eh;
      [|discriminate].
    cbv beta iota delta [obind] in H.
    destruct (collect_suggestions str_lower query rest) as [others|] eqn:Eo;
      [|discriminate].
    inversion H; subst found. clear H.
    rewrite elem_of_union, (job_suggestions_spec _ _ _ s Eh), (IH others eq_refl).
    split.
    + intros [[Hq Hj]|(Hq & job' & Hin & Hj)].
      * split; [exact Hq|]. exists job. split; [left|exact Hj].
      * split; [exact Hq|]. exists job'. split; [right; exact Hin|exact Hj].
    + intros (Hq & job' & Hin & Hj). apply elem_of_cons in Hin.
      destruct Hin as [->|Hin].
      * left. split; assumption.
      * right. split; [exact Hq|]. exists job'. split; assumption.
Qed.

Lemma collect_suggestions_defined (query : string) (recent_jobs : list JobListingDB) :
  (∀ job, job ∈ recent_jobs → title job ≠ None) →
  ∃ found, collect_suggestions str_lower query recent_jobs = Ok found.
Proof.
  induction recent_jobs as [|job rest IH]; intros Ht; [eexists; reflexivity|].
  simpl. unfold job_suggestions at 1.
  destruct (title job) as [t|] eqn:E.
  - destruct IH as [others Ho].
    { intros j Hj. apply Ht. right. exact Hj. }
    cbv beta iota delta [obind]. rewrite Ho. eexists. reflexivity.
  - exfalso. apply (Ht job); [left|exact E].
Qed.

(** X21. The search suggestions: at most eight; none when the lower-cased
    query has fewer than two characters; every suggestion is a title or a
    required skill of one of the recent jobs whose lower-cased form contains
    the lower-cased query.  When the query has two characters or more and
    every job has a title, the suggestions are the first eight of the set of
    all such titles and skills. *)
Theorem search_suggestions_sound (q : string) (recent_jobs : list JobListingDB) :
  let suggestions := search_suggestions list_of_set str_lower str_len q recent_jobs in
  (length suggestions <= 8)%nat
  ∧ ((str_len (str_lower q) < 2)%nat → suggestions = [])
  ∧ (∀ s, s ∈ suggestions →
       py_in (str_lower q) (str_lower s) = true
       ∧ ∃ job, job ∈ recent_jobs
           ∧ (title job = Some s ∨ s ∈ items_of (skills_required job)))
  ∧ ((2 <= str_len (str_lower q))%nat →
     (∀ job, job ∈ recent_jobs → title job ≠ None) →
     ∃ found : gset string,
       suggestions = firstn 8 (list_of_set found)
       ∧ ∀ s, s ∈ found ↔
           py_in (str_lower q) (str_lower s) = true
           ∧ ∃ job, job ∈ recent_jobs
               ∧ (title job = Some s ∨ s ∈ items_of (skills_required job))).
Proof.
  cbv zeta. unfold search_suggestions. cbv zeta.
  destruct (Nat.leb_spec 2 (str_len (str_lower q))) as [Hlen|Hlen].
  2:{ split; [simpl; lia|]. split; [reflexivity|]. split.
      - intros s Hs. apply elem_of_nil in Hs. contradiction.
      - intros H. lia. }
  destruct (collect_suggestions str_lower (str_lower q) recent_jobs)
    as [found|] eqn:Ec; cbv beta iota delta [obind except].
  - split; [rewrite length_firstn; lia|]. split; [intros H; lia|]. split.
    + intros s Hs.
      apply (collect_suggestions_spec _ _ _ s Ec).
      apply list_of_set_sound. apply list_elem_of_In.
      apply list_elem_of_In in Hs. exact (In_firstn _ _ _ Hs).
    + intros _ _. exists found. split; [reflexivity|].
      intros s. exact (collect_suggestions_spec _ _ _ s Ec).
  - split; [simpl; lia|]. split; [reflexivity|]. split.
    + intros s Hs. apply elem_of_nil in Hs. contradiction.
    + intros _ Ht.
      destruct (collect_suggestions_defined (str_lower q) recent_jobs Ht)
        as [found Hf]. rewrite Hf in Ec. discriminate Ec.
Qed.

End SuggestionsFacts.

Lemma search_suggestions_sound_witness :
  let suggestions :=
    search_suggestions elements lower String.length "PY"
      [python_job; sample_job "b"] in
  (length suggestions <= 8)%nat
  ∧ ((String.length (lower "PY") < 2)%nat → suggestions = [])
  ∧ (∀ s, s ∈ suggestions →
       py_in (lower "PY") (lower s) = true
       ∧ ∃ job, job ∈ [python_job; sample_job "b"]
           ∧ (title job = Some s ∨ s ∈ items_of (skills_required job)))
  ∧ ((2 <= String.length (lower "PY"))%nat →
     (∀ job, job ∈ [python_job; sample_job "b"] → title job ≠ None) →
     ∃ found : gset string,
       suggestions = firstn 8 (elements found)
       ∧ ∀ s, s ∈ found ↔
           py_in (lower "PY") (lower s) = true
           ∧ ∃ job, job ∈ [python_job; sample_job "b"]
               ∧ (title job = Some s ∨ s ∈ items_of (skills_required job))).
Proof.
  apply (search_suggestions_sound elements lower String.length
           (fun s x H => proj1 (elem_of_elements s x) H) "PY"
           [python_job; sample_job "b"]).
Defined.

(** ** A job without text *)

(** X22. A job whose combined text is empty or whitespace only (no title,
    description, requirements, responsibilities or skills) is embedded as
    the zero vector, without the model and without touching the cache; its
    similarity to any query embedding is therefore 0. *)
Theorem blank_job_scores_zero (n : nat) (encode : string → outcome (list R))
  (cache_key : string → string) (can_write : string → bool)
  (job_dict : JobDict) (cache : gmap string (list R)) (query_embedding : list R) :
  all_space (job_combined_text job_dict) = true →
  let embedded :=
    EmbeddingService.embed_job_description (replicate n 0%R) encode cache_key
      can_write job_dict cache in
  embedded = (replicate n 0%R, cache)
  ∧ Exact.calculate_similarity query_embedding (fst embedded) = 0%R.
Proof.
  intros Hb. cbv zeta. unfold EmbeddingService.embed_job_description,
    EmbeddingService.embed_text, is_blank.
  rewrite (py_strip_all_space _ Hb). cbn [nonempty negb fst].
  split; [reflexivity|].
  apply (calculate_similarity_zero_vector (replicate n 0%R) query_embedding).
  apply Forall_replicate. reflexivity.
Qed.

Lemma blank_job_scores_zero_witness :
  let embedded :=
    EmbeddingService.embed_job_description (replicate 3 0%R) (fun _ => Raised)
      (fun s => s) (fun _ => true) (job_with_level (Some "director"%string)) ∅ in
  embedded = (replicate 3 0%R, ∅)
  ∧ Exact.calculate_similarity [1%R; 2%R; 3%R] (fst embedded) = 0%R.
Proof.
  apply (blank_job_scores_zero 3 (fun _ => Raised) (fun s => s) (fun _ => true)
           (job_with_level (Some "director"%string)) ∅ [1%R; 2%R; 3%R]).
  reflexivity.
Defined.
